(** * Mouse Dash: the update-and-collision loop of [game.js]

    A shallow embedding of the game logic of [src/game.js] (the classes
    [Vec2], [Player], [Item], [Hazard], [Particle], [FloatingText] and
    [Game]) together with the properties of its specification.

    Numbers.  JavaScript numbers are modelled by exact rationals [Q]:
    every double is a rational, and rounding is not modelled.  The
    properties below are therefore stated on what a frame finds and
    leaves (comparisons, signs, one subtraction at a time), which rounding
    preserves, and never on the sum of the time steps of several frames,
    which a timer that is decremented in binary64 need not match.  Integer
    valued quantities (score, lives, combo, indices) are [Z]; lengths and
    loop counters are [nat].  The library functions that leave the
    rationals ([Math.hypot], [Math.sqrt], [Math.cos], [Math.sin]) and the
    canvas size, which comes from the page and not from the script, are
    fields of a [Host] that every definition takes as a parameter; so is
    the sequence of values that [Math.random] is going to return.

    Effects.  The number of random values consumed and the content of
    [localStorage] are threaded explicitly as a [World]; code that touches
    them lives in the monad [M], whose outcomes also record a thrown
    [TypeError] and a loop that does not return.

    Left out: drawing, sprite loading and the wiring of DOM events, and
    with them the fields that only drawing reads (colours, canvases). *)

From Stdlib Require Import QArith Qminmax Qabs ZArith List String Bool Lia Lqa.
From Stdlib Require Import Sorted.
Import ListNotations.
Open Scope Q_scope.

(** ** Comparisons and [clamp] *)

Definition Qlt_bool (a b : Q) : bool := negb (Qle_bool b a).

(** [function clamp(value, min, max) { return Math.max(min, Math.min(max, value)); }] *)
Definition clamp (value min max : Q) : Q := Qmax min (Qmin max value).

(** The integer instance, used on the difficulty index. *)
Definition clampZ (value min max : Z) : Z := Z.max min (Z.min max value).

(** ** The host page and the ambient world *)

Record Host : Type := {
  canvas_width : Q;                (* canvas.width  *)
  canvas_height : Q;               (* canvas.height *)
  Math_hypot : Q -> Q -> Q;
  Math_sqrt : Q -> Q;
  Math_cos : Q -> Q;
  Math_sin : Q -> Q;
  Math_PI : Q;
  dice : nat -> Q                  (* the values Math.random() returns, in
                                      order, to the code modelled here *)
}.

(** What [Number.parseInt(localStorage.getItem(HIGHSCORE_KEY) || "0", 10)]
    makes of the stored item: nothing stored, a number, or text that does
    not parse ([NaN]).  The text itself is not modelled: [Numeric v] stands
    for any text that reads as [v], such as the decimal digits that
    [String(score)] writes for an integer score below 10^21.  Nothing
    below is a statement about the round trip through that text. *)
Inductive Stored : Type :=
| Absent
| Numeric (v : Z)
| Garbage.

Record World : Type := {
  drawn : nat;              (* how many values of Math.random() were consumed *)
  storage_throws : bool;    (* whether touching localStorage throws *)
  slot : Stored             (* the item under HIGHSCORE_KEY *)
}.

Inductive Outcome (A : Type) : Type :=
| Done (a : A)
| Throws        (* a TypeError: property of undefined *)
| Spins.        (* an unbounded loop used up its fuel *)
Arguments Done {A} a.
Arguments Throws {A}.
Arguments Spins {A}.

Definition M (A : Type) : Type := World -> Outcome (A * World).

Definition ret {A} (a : A) : M A := fun w => Done (a, w).

Definition bind {A B} (c : M A) (k : A -> M B) : M B :=
  fun w =>
    match c w with
    | Done (a, w') => k a w'
    | Throws => Throws
    | Spins => Spins
    end.

Definition throw {A} : M A := fun _ => Throws.
Definition spin {A} : M A := fun _ => Spins.

Declare Scope game_scope.
Delimit Scope game_scope with game.
Notation "x <- c ;; k" := (bind c (fun x => k))
  (at level 61, c at next level, right associativity) : game_scope.
Notation "' pat <- c ;; k" := (bind c (fun x => match x with pat => k end))
  (at level 61, pat pattern, c at next level, right associativity) : game_scope.
Open Scope game_scope.

(** [Math.random()] *)
Definition Math_random (host : Host) : M Q :=
  fun w => Done (dice host (drawn w),
                 {| drawn := S (drawn w);
                    storage_throws := storage_throws w; slot := slot w |}).

(** [function rand(min, max) { return min + Math.random() * (max - min); }] *)
Definition rand (host : Host) (min max : Q) : M Q :=
  r <- Math_random host ;; ret (min + r * (max - min)).

(** ** Constants *)

Definition PLAYER_SPEED : Q := 280.
Definition INVULN_TIME : Q := 1.0.
Definition TRAIL_LENGTH : nat := 12.
Definition COMBO_WINDOW : Q := 1.25.
Definition COMBO_BONUS_STEP : Z := 2.
Definition COMBO_BONUS_CAP : Z := 14.

Module Difficulty.
Record t : Type := {
    name : string;
    lives : Z;
    time : Q;
    hazards : nat;
    items : nat;
    hazardSpeed : Q * Q
  }.
End Difficulty.

Definition DIFFICULTIES : list Difficulty.t :=
  [ {| Difficulty.name := "Easy"; Difficulty.lives := 5; Difficulty.time := 60;
       Difficulty.hazards := 3; Difficulty.items := 8;
       Difficulty.hazardSpeed := (120, 170) |};
    {| Difficulty.name := "Normal"; Difficulty.lives := 4; Difficulty.time := 50;
       Difficulty.hazards := 4; Difficulty.items := 10;
       Difficulty.hazardSpeed := (150, 210) |};
    {| Difficulty.name := "Hard"; Difficulty.lives := 3; Difficulty.time := 40;
       Difficulty.hazards := 10; Difficulty.items := 12;
       Difficulty.hazardSpeed := (190, 260) |} ].

(** [DIFFICULTIES[index]]: [None] is JavaScript's [undefined]. *)
Definition preset (index : Z) : option Difficulty.t :=
  if (index <? 0)%Z then None else nth_error DIFFICULTIES (Z.to_nat index).

(** The sprites, as far as the logic reads them: the width of the scaled
    cheese sprite when it loaded, and the widths of the scaled mouse
    frames. *)
Record Assets : Type := {
  cheese : option Q;
  mouseFrames : list Q
}.

(** ** Vec2 *)

Module Vec2.
Record t : Type := new { x : Q; y : Q }.

Definition copy (v : t) : t := new (x v) (y v).
Definition len2 (v : t) : Q := x v * x v + y v * y v.

Section WithHost.
Variable host : Host.

Definition len (v : t) : Q := Math_hypot host (x v) (y v).

Definition normalize (v : t) : t :=
      let length := len v in
      if Qlt_bool 0 length then new (x v / length) (y v / length) else v.

Definition distanceTo (v other : t) : Q :=
      Math_hypot host (x v - x other) (y v - y other).
End WithHost.
End Vec2.

(** [keys.has(k)] on the set of held keys. *)
Definition has (k : string) (keys : list string) : bool :=
  existsb (String.eqb k) keys.

(** ** Player *)

Module Player.
Record t : Type := {
    pos : Vec2.t;
    frames : list Q;
    radius : Q;
    hitCooldown : Q;
    trail : list Vec2.t;
    animTime : Q;
    animIndex : nat;
    lastMove : Vec2.t
  }.

Definition new (pos : Vec2.t) (frames : list Q) : t :=
    {| pos := pos;
       frames := frames;
       radius := match frames with f :: _ => f / 2 | [] => 18 end;
       hitCooldown := 0;
       trail := [];
       animTime := 0;
       animIndex := 0;
       lastMove := Vec2.new 1 0 |}.

Definition canTakeHit (p : t) : bool := Qle_bool (hitCooldown p) 0.

Definition markHit (p : t) : t :=
    {| pos := pos p; frames := frames p; radius := radius p;
       hitCooldown := INVULN_TIME;
       trail := trail p; animTime := animTime p; animIndex := animIndex p;
       lastMove := lastMove p |}.

  (** [this.player.pos = ...; this.player.hitCooldown = 0] of [startGame]. *)
Definition recenter (centre : Vec2.t) (p : t) : t :=
    {| pos := centre; frames := frames p; radius := radius p;
       hitCooldown := 0;
       trail := trail p; animTime := animTime p; animIndex := animIndex p;
       lastMove := lastMove p |}.

Section WithHost.
Variable host : Host.
Let WIDTH := canvas_width host.
Let HEIGHT := canvas_height host.

Definition update (keys : list string) (dt : Q) (p : t) : t :=
      let dx := 0 in
      let dx := if has "ArrowLeft" keys || has "a" keys then dx - 1 else dx in
      let dx := if has "ArrowRight" keys || has "d" keys then dx + 1 else dx in
      let dy := 0 in
      let dy := if has "ArrowUp" keys || has "w" keys then dy - 1 else dy in
      let dy := if has "ArrowDown" keys || has "s" keys then dy + 1 else dy in
      let direction := Vec2.new dx dy in
      let moving := Qlt_bool 0 (Vec2.len2 direction) in
      let direction := if moving then Vec2.normalize host direction else direction in
      let lastMove' := if moving then Vec2.copy direction else lastMove p in
      let px := Vec2.x (pos p) + Vec2.x direction * PLAYER_SPEED * dt in
      let py := Vec2.y (pos p) + Vec2.y direction * PLAYER_SPEED * dt in
      let px := clamp px (radius p) (WIDTH - radius p) in
      let py := clamp py (radius p + 40) (HEIGHT - radius p) in
      let cooldown :=
        if Qlt_bool 0 (hitCooldown p) then Qmax 0 (hitCooldown p - dt)
        else hitCooldown p in
      let pushed := trail p ++ [Vec2.new px py] in
      let trail' :=
        if (TRAIL_LENGTH <? List.length pushed)%nat then tl pushed else pushed in
      let '(animTime', animIndex') :=
        match frames p with
        | [] => (animTime p, animIndex p)
        | _ :: _ =>
            let moving := Qlt_bool 0 (Vec2.len2 direction) in
            if moving then
              let t := animTime p + dt in
              if Qle_bool 0.08 t
              then (0, ((animIndex p + 1) mod List.length (frames p))%nat)
              else (t, animIndex p)
            else (0, 0%nat)
        end in
      {| pos := Vec2.new px py; frames := frames p; radius := radius p;
         hitCooldown := cooldown; trail := trail';
         animTime := animTime'; animIndex := animIndex';
         lastMove := lastMove' |}.
End WithHost.
End Player.

(** ** Item *)

Module Item.
Record t : Type := {
  pos : Vec2.t;
  sprite : option Q;
  radius : Q;
  wobble : Q
}.

Section WithHost.
Variable host : Host.
Let TAU := Math_PI host * 2.

Definition new (pos : Vec2.t) (sprite : option Q) : M t :=
  wobble <- rand host 0 TAU ;;
  ret {| pos := pos;
         sprite := sprite;
         radius := match sprite with Some width => width / 2 | None => 10 end;
         wobble := wobble |}.
End WithHost.
End Item.

(** ** Hazard *)

Module Hazard.
Record t : Type := {
  pos : Vec2.t;
  size : Q;
  vel : Vec2.t
}.

Section WithHost.
Variable host : Host.
Let WIDTH := canvas_width host.
Let HEIGHT := canvas_height host.

(** [static randomVelocity([minSpeed, maxSpeed])]: a [while (true)] loop
    that draws again as long as the direction is too short.  [fuel] bounds
    the number of draws; running out of it is the outcome [Spins]. *)
Fixpoint randomVelocity (fuel : nat) (speedRange : Q * Q) : M Vec2.t :=
  match fuel with
  | O => spin
  | S fuel' =>
      vx <- rand host (-1) 1 ;;
      vy <- rand host (-1) 1 ;;
      let len2 := vx * vx + vy * vy in
      if Qle_bool len2 0.1 then randomVelocity fuel' speedRange
      else
        let len := Math_sqrt host len2 in
        speed <- rand host (fst speedRange) (snd speedRange) ;;
        ret (Vec2.new ((vx / len) * speed) ((vy / len) * speed))
  end.

Definition new (fuel : nat) (pos : Vec2.t) (speedRange : Q * Q) : M t :=
  vel <- randomVelocity fuel speedRange ;;
  ret {| pos := pos; size := 24; vel := vel |}.

Definition update (dt : Q) (h : t) : t :=
  let px := Vec2.x (pos h) + Vec2.x (vel h) * dt in
  let py := Vec2.y (pos h) + Vec2.y (vel h) * dt in
  let hitX := Qlt_bool px (size h) || Qlt_bool (WIDTH - size h) px in
  let velx := if hitX then Vec2.x (vel h) * -1 else Vec2.x (vel h) in
  let hitY := Qlt_bool py (size h + 40) || Qlt_bool (HEIGHT - size h) py in
  let vely := if hitY then Vec2.y (vel h) * -1 else Vec2.y (vel h) in
  let bounced := hitX || hitY in
  let px := if bounced then clamp px (size h) (WIDTH - size h) else px in
  let py := if bounced then clamp py (size h + 40) (HEIGHT - size h) else py in
  {| pos := Vec2.new px py; size := size h; vel := Vec2.new velx vely |}.

Definition nudgeAwayFrom (point : Vec2.t) (h : t) : M t :=
  let dx := Vec2.x (pos h) - Vec2.x point in
  let dy := Vec2.y (pos h) - Vec2.y point in
  '(dx, dy) <-
    (if Qeq_bool dx 0 && Qeq_bool dy 0
     then (rx <- rand host (-1) 1 ;; ry <- rand host (-1) 1 ;; ret (rx, ry))
     else ret (dx, dy)) ;;
  let hyp := Math_hypot host dx dy in
  let len := if Qeq_bool hyp 0 then 1 else hyp in
  ret {| pos := Vec2.new (Vec2.x (pos h) + (dx / len) * 18)
                         (Vec2.y (pos h) + (dy / len) * 18);
         size := size h; vel := vel h |}.
End WithHost.
End Hazard.

(** ** Particle and FloatingText *)

Module Particle.
Record t : Type := {
  pos : Vec2.t;
  vel : Vec2.t;
  life : Q;
  total : Q;
  size : Q
}.

Definition new (pos vel : Vec2.t) (lifetime size : Q) : t :=
  {| pos := Vec2.copy pos; vel := Vec2.copy vel;
     life := lifetime; total := lifetime; size := size |}.

Definition update (dt : Q) (p : t) : t :=
  {| pos := Vec2.new (Vec2.x (pos p) + Vec2.x (vel p) * dt)
                     (Vec2.y (pos p) + Vec2.y (vel p) * dt);
     vel := vel p; life := life p - dt; total := total p; size := size p |}.
End Particle.

(** The two texts the game floats: [`+${points}`] and [`Combo x${combo}`]. *)
Inductive Caption : Type :=
| PlusPoints (points : Z)
| ComboTimes (combo : Z).

Module FloatingText.
Record t : Type := {
  pos : Vec2.t;
  text : Caption;
  life : Q
}.

Definition new (pos : Vec2.t) (text : Caption) : t :=
  {| pos := Vec2.copy pos; text := text; life := 1.0 |}.

Definition update (dt : Q) (ft : t) : t :=
  {| pos := Vec2.new (Vec2.x (pos ft)) (Vec2.y (pos ft) - 30 * dt);
     text := text ft; life := life ft - dt |}.
End FloatingText.

(** ** Game *)

(** The screen states ["menu"], ["playing"], ["paused"] and ["game_over"]. *)
Inductive State : Type := Menu | Playing | Paused | GameOver.

Module Game.
Record t : Type := {
  assets : Assets;
  state : State;
  difficultyIndex : Z;
  timeAcc : Q;
  score : Z;
  lives : Z;
  timeLeft : Q;
  combo : Z;
  comboTimer : Q;
  player : Player.t;
  items : list Item.t;
  hazards : list Hazard.t;
  particles : list Particle.t;
  floaters : list FloatingText.t;
  shakeTimer : Q;
  shakeStrength : Q;
  highScore : Z;
  newHighScore : bool
}.

(** Assignments to one field, [this.f = v]. *)
Definition set_state (v : State) (g : t) : t :=
  {| assets := assets g; state := v; difficultyIndex := difficultyIndex g;
     timeAcc := timeAcc g; score := score g; lives := lives g;
     timeLeft := timeLeft g; combo := combo g; comboTimer := comboTimer g;
     player := player g; items := items g; hazards := hazards g;
     particles := particles g; floaters := floaters g;
     shakeTimer := shakeTimer g; shakeStrength := shakeStrength g;
     highScore := highScore g; newHighScore := newHighScore g |}.

Definition set_difficultyIndex (v : Z) (g : t) : t :=
  {| assets := assets g; state := state g; difficultyIndex := v;
     timeAcc := timeAcc g; score := score g; lives := lives g;
     timeLeft := timeLeft g; combo := combo g; comboTimer := comboTimer g;
     player := player g; items := items g; hazards := hazards g;
     particles := particles g; floaters := floaters g;
     shakeTimer := shakeTimer g; shakeStrength := shakeStrength g;
     highScore := highScore g; newHighScore := newHighScore g |}.

Definition set_timeAcc (v : Q) (g : t) : t :=
  {| assets := assets g; state := state g;
     difficultyIndex := difficultyIndex g; timeAcc := v; score := score g;
     lives := lives g; timeLeft := timeLeft g; combo := combo g;
     comboTimer := comboTimer g; player := player g; items := items g;
     hazards := hazards g; particles := particles g; floaters := floaters g;
     shakeTimer := shakeTimer g; shakeStrength := shakeStrength g;
     highScore := highScore g; newHighScore := newHighScore g |}.

Definition set_score (v : Z) (g : t) : t :=
  {| assets := assets g; state := state g;
     difficultyIndex := difficultyIndex g; timeAcc := timeAcc g; score := v;
     lives := lives g; timeLeft := timeLeft g; combo := combo g;
     comboTimer := comboTimer g; player := player g; items := items g;
     hazards := hazards g; particles := particles g; floaters := floaters g;
     shakeTimer := shakeTimer g; shakeStrength := shakeStrength g;
     highScore := highScore g; newHighScore := newHighScore g |}.

Definition set_lives (v : Z) (g : t) : t :=
  {| assets := assets g; state := state g;
     difficultyIndex := difficultyIndex g; timeAcc := timeAcc g;
     score := score g; lives := v; timeLeft := timeLeft g; combo := combo g;
     comboTimer := comboTimer g; player := player g; items := items g;
     hazards := hazards g; particles := particles g; floaters := floaters g;
     shakeTimer := shakeTimer g; shakeStrength := shakeStrength g;
     highScore := highScore g; newHighScore := newHighScore g |}.

Definition set_timeLeft (v : Q) (g : t) : t :=
  {| assets := assets g; state := state g;
     difficultyIndex := difficultyIndex g; timeAcc := timeAcc g;
     score := score g; lives := lives g; timeLeft := v; combo := combo g;
     comboTimer := comboTimer g; player := player g; items := items g;
     hazards := hazards g; particles := particles g; floaters := floaters g;
     shakeTimer := shakeTimer g; shakeStrength := shakeStrength g;
     highScore := highScore g; newHighScore := newHighScore g |}.

Definition set_combo (v : Z) (g : t) : t :=
  {| assets := assets g; state := state g;
     difficultyIndex := difficultyIndex g; timeAcc := timeAcc g;
     score := score g; lives := lives g; timeLeft := timeLeft g; combo := v;
     comboTimer := comboTimer g; player := player g; items := items g;
     hazards := hazards g; particles := particles g; floaters := floaters g;
     shakeTimer := shakeTimer g; shakeStrength := shakeStrength g;
     highScore := highScore g; newHighScore := newHighScore g |}.

Definition set_comboTimer (v : Q) (g : t) : t :=
  {| assets := assets g; state := state g;
     difficultyIndex := difficultyIndex g; timeAcc := timeAcc g;
     score := score g; lives := lives g; timeLeft := timeLeft g;
     combo := combo g; comboTimer := v; player := player g; items := items g;
     hazards := hazards g; particles := particles g; floaters := floaters g;
     shakeTimer := shakeTimer g; shakeStrength := shakeStrength g;
     highScore := highScore g; newHighScore := newHighScore g |}.

Definition set_player (v : Player.t) (g : t) : t :=
  {| assets := assets g; state := state g;
     difficultyIndex := difficultyIndex g; timeAcc := timeAcc g;
     score := score g; lives := lives g; timeLeft := timeLeft g;
     combo := combo g; comboTimer := comboTimer g; player := v;
     items := items g; hazards := hazards g; particles := particles g;
     floaters := floaters g; shakeTimer := shakeTimer g;
     shakeStrength := shakeStrength g; highScore := highScore g;
     newHighScore := newHighScore g |}.

Definition set_items (v : list Item.t) (g : t) : t :=
  {| assets := assets g; state := state g;
     difficultyIndex := difficultyIndex g; timeAcc := timeAcc g;
     score := score g; lives := lives g; timeLeft := timeLeft g;
     combo := combo g; comboTimer := comboTimer g; player := player g;
     items := v; hazards := hazards g; particles := particles g;
     floaters := floaters g; shakeTimer := shakeTimer g;
     shakeStrength := shakeStrength g; highScore := highScore g;
     newHighScore := newHighScore g |}.

Definition set_hazards (v : list Hazard.t) (g : t) : t :=
  {| assets := assets g; state := state g;
     difficultyIndex := difficultyIndex g; timeAcc := timeAcc g;
     score := score g; lives := lives g; timeLeft := timeLeft g;
     combo := combo g; comboTimer := comboTimer g; player := player g;
     items := items g; hazards := v; particles := particles g;
     floaters := floaters g; shakeTimer := shakeTimer g;
     shakeStrength := shakeStrength g; highScore := highScore g;
     newHighScore := newHighScore g |}.

Definition set_particles (v : list Particle.t) (g : t) : t :=
  {| assets := assets g; state := state g;
     difficultyIndex := difficultyIndex g; timeAcc := timeAcc g;
     score := score g; lives := lives g; timeLeft := timeLeft g;
     combo := combo g; comboTimer := comboTimer g; player := player g;
     items := items g; hazards := hazards g; particles := v;
     floaters := floaters g; shakeTimer := shakeTimer g;
     shakeStrength := shakeStrength g; highScore := highScore g;
     newHighScore := newHighScore g |}.

Definition set_floaters (v : list FloatingText.t) (g : t) : t :=
  {| assets := assets g; state := state g;
     difficultyIndex := difficultyIndex g; timeAcc := timeAcc g;
     score := score g; lives := lives g; timeLeft := timeLeft g;
     combo := combo g; comboTimer := comboTimer g; player := player g;
     items := items g; hazards := hazards g; particles := particles g;
     floaters := v; shakeTimer := shakeTimer g;
     shakeStrength := shakeStrength g; highScore := highScore g;
     newHighScore := newHighScore g |}.

Definition set_shakeTimer (v : Q) (g : t) : t :=
  {| assets := assets g; state := state g;
     difficultyIndex := difficultyIndex g; timeAcc := timeAcc g;
     score := score g; lives := lives g; timeLeft := timeLeft g;
     combo := combo g; comboTimer := comboTimer g; player := player g;
     items := items g; hazards := hazards g; particles := particles g;
     floaters := floaters g; shakeTimer := v;
     shakeStrength := shakeStrength g; highScore := highScore g;
     newHighScore := newHighScore g |}.

Definition set_highScore (v : Z) (g : t) : t :=
  {| assets := assets g; state := state g;
     difficultyIndex := difficultyIndex g; timeAcc := timeAcc g;
     score := score g; lives := lives g; timeLeft := timeLeft g;
     combo := combo g; comboTimer := comboTimer g; player := player g;
     items := items g; hazards := hazards g; particles := particles g;
     floaters := floaters g; shakeTimer := shakeTimer g;
     shakeStrength := shakeStrength g; highScore := v;
     newHighScore := newHighScore g |}.

Definition set_newHighScore (v : bool) (g : t) : t :=
  {| assets := assets g; state := state g;
     difficultyIndex := difficultyIndex g; timeAcc := timeAcc g;
     score := score g; lives := lives g; timeLeft := timeLeft g;
     combo := combo g; comboTimer := comboTimer g; player := player g;
     items := items g; hazards := hazards g; particles := particles g;
     floaters := floaters g; shakeTimer := shakeTimer g;
     shakeStrength := shakeStrength g; highScore := highScore g;
     newHighScore := v |}.

(** [static loadHighScore()]: a throwing [localStorage], a missing item and
    an item that does not parse all give 0. *)
Definition loadHighScore : M Z :=
  fun w =>
    if storage_throws w then Done (0%Z, w)
    else match slot w with
         | Numeric v => Done (v, w)
         | Absent | Garbage => Done (0%Z, w)
         end.

(** [static saveHighScore(score)]: the exception of a throwing
    [localStorage] is swallowed. *)
Definition saveHighScore (score : Z) : M unit :=
  fun w =>
    if storage_throws w then Done (tt, w)
    else Done (tt, {| drawn := drawn w;
                      storage_throws := storage_throws w;
                      slot := Numeric score |}).

Definition enterGameOver (g : t) : M t :=
  let g := set_state GameOver g in
  if (highScore g <? score g)%Z then
    let g := set_highScore (score g) g in
    let g := set_newHighScore true g in
    _ <- saveHighScore (highScore g) ;;
    ret g
  else ret (set_newHighScore false g).

Section WithHost.
Variable host : Host.
Variable fuel : nat.
Let WIDTH := canvas_width host.
Let HEIGHT := canvas_height host.
Let TAU := Math_PI host * 2.

(** *** The spawner *)

(** The three rejection tests of [spawnItems]. *)
Definition itemTooClose (newItemRadius : Q) (player : Player.t)
    (hazards : list Hazard.t) (items : list Item.t) (pos : Vec2.t) : bool :=
  let tooClosePlayer :=
    Qlt_bool (Vec2.distanceTo host pos (Player.pos player)) 80 in
  let tooCloseOther :=
    existsb (fun it => Qlt_bool (Vec2.distanceTo host pos (Item.pos it))
                                (Item.radius it + newItemRadius + 8)) items in
  let tooCloseHazard :=
    existsb (fun hz => Qlt_bool (Vec2.distanceTo host pos (Hazard.pos hz))
                                (Hazard.size hz + newItemRadius + 12)) hazards in
  tooClosePlayer || tooCloseOther || tooCloseHazard.

(** The [while] loop of [spawnItems], on [this.items] and the local
    [attempts]; both are returned.  [budget] is the structural measure of
    the recursion: every turn of the loop increments [attempts], so
    [count * 20] turns are enough to falsify the loop condition. *)
Fixpoint spawnItemsLoop (budget count attempts : nat) (sprite : option Q)
    (player : Player.t) (hazards : list Hazard.t) (items : list Item.t)
    : M (list Item.t * nat) :=
  match budget with
  | O => ret (items, attempts)
  | S budget' =>
      if (List.length items <? count)%nat && (attempts <? count * 20)%nat then
        let attempts := S attempts in
        px <- rand host 40 (WIDTH - 40) ;;
        py <- rand host 80 (HEIGHT - 40) ;;
        let pos := Vec2.new px py in
        let newItemRadius :=
          match sprite with Some width => width / 2 | None => 10 end in
        if itemTooClose newItemRadius player hazards items pos
        then spawnItemsLoop budget' count attempts sprite player hazards items
        else
          it <- Item.new host pos sprite ;;
          spawnItemsLoop budget' count attempts sprite player hazards
                         (items ++ [it])
      else ret (items, attempts)
  end.

Definition spawnItems (count : nat) (g : t) : M t :=
  '(its, _) <- spawnItemsLoop (count * 20) count 0 (cheese (assets g))
                              (player g) (hazards g) (items g) ;;
  ret (set_items its g).

(** The two [continue] tests of [spawnHazards]. *)
Definition hazardTooClose (player : Player.t) (hazards : list Hazard.t)
    (pos : Vec2.t) : bool :=
  Qlt_bool (Vec2.distanceTo host pos (Player.pos player)) 120
  || existsb (fun h => Qlt_bool (Vec2.distanceTo host pos (Hazard.pos h)) 60)
             hazards.

Fixpoint spawnHazardsLoop (budget count attempts : nat) (speedRange : Q * Q)
    (player : Player.t) (hazards : list Hazard.t)
    : M (list Hazard.t * nat) :=
  match budget with
  | O => ret (hazards, attempts)
  | S budget' =>
      if (List.length hazards <? count)%nat && (attempts <? count * 25)%nat then
        let attempts := S attempts in
        px <- rand host 60 (WIDTH - 60) ;;
        py <- rand host 100 (HEIGHT - 60) ;;
        let pos := Vec2.new px py in
        if hazardTooClose player hazards pos
        then spawnHazardsLoop budget' count attempts speedRange player hazards
        else
          h <- Hazard.new host fuel pos speedRange ;;
          spawnHazardsLoop budget' count attempts speedRange player
                           (hazards ++ [h])
      else ret (hazards, attempts)
  end.

Definition spawnHazards (count : nat) (speedRange : Q * Q) (g : t) : M t :=
  '(hs, _) <- spawnHazardsLoop (count * 25) count 0 speedRange
                               (player g) (hazards g) ;;
  ret (set_hazards hs g).

(** *** Effects *)

(** The particle loops of [spawnCollectEffect] and [spawnHitEffect]: [n]
    particles leaving [pos] at a random angle, with a speed drawn from
    [lo, hi]. *)
Fixpoint burst (n : nat) (pos : Vec2.t) (lo hi lifetime size : Q)
    (particles : list Particle.t) : M (list Particle.t) :=
  match n with
  | O => ret particles
  | S n' =>
      angle <- rand host 0 TAU ;;
      speed <- rand host lo hi ;;
      let vel := Vec2.new (Math_cos host angle * speed)
                          (Math_sin host angle * speed) in
      burst n' pos lo hi lifetime size
            (particles ++ [Particle.new pos vel lifetime size])
  end.

Definition spawnCollectEffect (pos : Vec2.t) (points combo : Z) (g : t) : M t :=
  ps <- burst 12 pos 80 160 0.4 3 (particles g) ;;
  let fs := floaters g ++ [FloatingText.new pos (PlusPoints points)] in
  let fs :=
    if (2 <=? combo)%Z
    then fs ++ [FloatingText.new (Vec2.new (Vec2.x pos) (Vec2.y pos - 18))
                                 (ComboTimes combo)]
    else fs in
  ret (set_floaters fs (set_particles ps g)).

Definition spawnHitEffect (pos : Vec2.t) (g : t) : M t :=
  ps <- burst 18 pos 120 220 0.5 4 (particles g) ;;
  ret (set_shakeTimer 0.25 (set_particles ps g)).

Definition updateEffects (dt : Q) (g : t) : t :=
  let ps := filter (fun p => Qlt_bool 0 (Particle.life p))
                   (map (Particle.update dt) (particles g)) in
  let fs := filter (fun ft => Qlt_bool 0 (FloatingText.life ft))
                   (map (FloatingText.update dt) (floaters g)) in
  set_floaters fs (set_particles ps g).

(** [cameraOffset()], which the drawing of the game calls once per frame. *)
Definition cameraOffset (g : t) : M Vec2.t :=
  if Qle_bool (shakeTimer g) 0 then ret (Vec2.new 0 0)
  else
    let power := shakeTimer g / 0.25 in
    rx <- rand host (-1) 1 ;;
    ry <- rand host (-1) 1 ;;
    ret (Vec2.new (rx * shakeStrength g * power)
                  (ry * shakeStrength g * power)).

(** *** Runs *)

Definition centre : Vec2.t := Vec2.new (WIDTH / 2) (HEIGHT / 2).

Definition resetRun (difficultyIndex : option Z) (g : t) : M t :=
  let g := match difficultyIndex with
           | Some index => set_difficultyIndex index g
           | None => g
           end in
  match preset (Game.difficultyIndex g) with
  | None => throw
  | Some diff =>
      let g := set_score 0 g in
      let g := set_lives (Difficulty.lives diff) g in
      let g := set_timeLeft (Difficulty.time diff) g in
      let g := set_combo 0 g in
      let g := set_comboTimer 0 g in
      let g := set_player (Player.new centre (mouseFrames (assets g))) g in
      let g := set_items [] g in
      let g := set_hazards [] g in
      let g := set_particles [] g in
      let g := set_floaters [] g in
      let g := set_shakeTimer 0 g in
      let g := set_newHighScore false g in
      g <- spawnHazards (Difficulty.hazards diff) (Difficulty.hazardSpeed diff) g ;;
      g <- spawnItems (Difficulty.items diff) g ;;
      ret (set_state Menu g)
  end.

Definition startGame (g : t) : M t :=
  match preset (difficultyIndex g) with
  | None => throw
  | Some diff =>
      let g := set_state Playing g in
      let g := set_timeLeft (Difficulty.time diff) g in
      let g := set_score 0 g in
      let g := set_lives (Difficulty.lives diff) g in
      let g := set_combo 0 g in
      let g := set_comboTimer 0 g in
      let g := set_player (Player.recenter centre (player g)) g in
      let g := set_items [] g in
      let g := set_hazards [] g in
      let g := set_particles [] g in
      let g := set_floaters [] g in
      let g := set_shakeTimer 0 g in
      let g := set_newHighScore false g in
      g <- spawnHazards (Difficulty.hazards diff) (Difficulty.hazardSpeed diff) g ;;
      spawnItems (Difficulty.items diff) g
  end.

(** [constructor(assets)] *)
Definition new (assets : Assets) : M t :=
  loaded <- loadHighScore ;;
  match preset 0 with
  | None => throw
  | Some easy =>
      resetRun None
        {| Game.assets := assets; state := Menu; difficultyIndex := 0;
           timeAcc := 0; score := 0; lives := Difficulty.lives easy;
           timeLeft := Difficulty.time easy; combo := 0; comboTimer := 0;
           player := Player.new centre (mouseFrames assets);
           items := []; hazards := []; particles := []; floaters := [];
           shakeTimer := 0; shakeStrength := 10;
           highScore := loaded; newHighScore := false |}
  end.

(** *** Collisions and scoring *)

Definition overlapsItem (p : Player.t) (it : Item.t) : bool :=
  Qle_bool (Vec2.distanceTo host (Player.pos p) (Item.pos it))
           (Player.radius p + Item.radius it).

Definition overlapsHazard (p : Player.t) (hz : Hazard.t) : bool :=
  Qle_bool (Vec2.distanceTo host (Player.pos p) (Hazard.pos hz))
           (Player.radius p + Hazard.size hz * 0.5).

(** What [handleCollisions] does for one overlapping item, after pushing
    it on [collected]. *)
Definition collectItem (it : Item.t) (g : t) : M t :=
  let g := if Qlt_bool 0 (comboTimer g)
           then set_combo (combo g + 1) g
           else set_combo 1 g in
  let g := set_comboTimer COMBO_WINDOW g in
  let bonus := Z.min COMBO_BONUS_CAP ((combo g - 1) * COMBO_BONUS_STEP) in
  let points := (10 + bonus)%Z in
  let g := set_score (score g + points) g in
  spawnCollectEffect (Item.pos it) points (combo g) g.

(** The [for (const item of this.items)] loop. *)
Fixpoint collectLoop (its collected : list Item.t) (g : t)
    : M (list Item.t * t) :=
  match its with
  | [] => ret (collected, g)
  | it :: rest =>
      if overlapsItem (player g) it then
        g <- collectItem it g ;;
        collectLoop rest (collected ++ [it]) g
      else collectLoop rest collected g
  end.

(** The [for (const hazard of this.hazards)] loop up to its [break]: the
    first overlapping hazard is nudged in place; the flag tells whether
    there was one. *)
Fixpoint firstHit (p : Player.t) (hs : list Hazard.t)
    : M (bool * list Hazard.t) :=
  match hs with
  | [] => ret (false, [])
  | h :: rest =>
      if overlapsHazard p h then
        h' <- Hazard.nudgeAwayFrom host (Player.pos p) h ;;
        ret (true, h' :: rest)
      else
        '(hit, rest') <- firstHit p rest ;;
        ret (hit, h :: rest')
  end.

(** [handleCollisions()].  The items pushed on [collected] are exactly
    those that pass the overlap test, and neither the player nor an item
    moves during the loop, so [!collected.includes(it)] keeps the items
    that fail the test. *)
Definition handleCollisions (g : t) : M t :=
  '(collected, g) <- collectLoop (items g) [] g ;;
  let g := match collected with
           | [] => g
           | _ :: _ =>
               set_items
                 (filter (fun it => negb (overlapsItem (player g) it)) (items g))
                 g
           end in
  g <- match items g with
       | [] =>
           match preset (difficultyIndex g) with
           | None => throw
           | Some diff => spawnItems (Difficulty.items diff) g
           end
       | _ :: _ => ret g
       end ;;
  if negb (Player.canTakeHit (player g)) then ret g
  else
    '(hit, hs) <- firstHit (player g) (hazards g) ;;
    if hit then
      let g := set_lives (lives g - 1) g in
      let g := set_player (Player.markHit (player g)) g in
      let g := set_hazards hs g in
      spawnHitEffect (Vec2.copy (Player.pos (player g))) g
    else ret g.

(** *** The frame update *)

Definition update (dt : Q) (keys : list string) (g : t) : M t :=
  let g := set_timeAcc (timeAcc g + dt) g in
  let g := if Qlt_bool 0 (shakeTimer g)
           then set_shakeTimer (Qmax 0 (shakeTimer g - dt)) g
           else g in
  let g := updateEffects dt g in
  match state g with
  | Playing =>
      let g :=
        if Qlt_bool 0 (comboTimer g) then
          let g := set_comboTimer (Qmax 0 (comboTimer g - dt)) g in
          if Qeq_bool (comboTimer g) 0 then set_combo 0 g else g
        else g in
      let g := set_player (Player.update host keys dt (player g)) g in
      let g := set_hazards (map (Hazard.update host dt) (hazards g)) g in
      g <- handleCollisions g ;;
      let g := set_timeLeft (Qmax 0 (timeLeft g - dt)) g in
      if Qle_bool (timeLeft g) 0 || (lives g <=? 0)%Z
      then enterGameOver g
      else ret g
  | Menu | Paused | GameOver => ret g
  end.

(** *** Key presses *)

Definition isPlaying (s : State) : bool :=
  match s with Playing => true | _ => false end.
Definition isPaused (s : State) : bool :=
  match s with Paused => true | _ => false end.

Definition DIFFICULTIES_length : Z := Z.of_nat (List.length DIFFICULTIES).

Definition onKeyDown (key : string) (g : t) : M t :=
  if (key =? "q")%string then resetRun (Some (difficultyIndex g)) g
  else if (isPlaying (state g) || isPaused (state g))
          && ((key =? "p")%string || (key =? "Escape")%string)
  then ret (set_state (if isPlaying (state g) then Paused else Playing) g)
  else if isPlaying (state g) && (key =? "r")%string then startGame g
  else if isPaused (state g) then
    g <- (if (key =? "r")%string then startGame g else ret g) ;;
    if (key =? "m")%string then resetRun (Some (difficultyIndex g)) g
    else ret g
  else
    match state g with
    | Menu =>
        let g :=
          if (key =? "ArrowUp")%string then
            set_difficultyIndex
              (Z.rem (difficultyIndex g - 1 + DIFFICULTIES_length)
                     DIFFICULTIES_length) g
          else g in
        let g :=
          if (key =? "ArrowDown")%string then
            set_difficultyIndex
              (Z.rem (difficultyIndex g + 1) DIFFICULTIES_length) g
          else g in
        if (key =? "1")%string || (key =? "2")%string || (key =? "3")%string
        then
          let parsed := (if (key =? "1")%string then 1
                         else if (key =? "2")%string then 2 else 3)%Z in
          let idx := (parsed - 1)%Z in
          let g := set_difficultyIndex
                     (clampZ idx 0 (DIFFICULTIES_length - 1)) g in
          startGame g
        else if (key =? "Enter")%string || (key =? " ")%string
        then startGame g
        else ret g
    | GameOver =>
        g <- (if (key =? "Enter")%string || (key =? " ")%string
              then startGame g else ret g) ;;
        if (key =? "r")%string || (key =? "m")%string
        then resetRun (Some (difficultyIndex g)) g
        else ret g
    | Playing | Paused => ret g
    end.

End WithHost.
End Game.

(** ** The frame driver *)

(** What [tick] does to the game over a sequence of frames, each with its
    time step and the keys held: one [update] per frame.  The games after
    each frame are returned in order. *)
Fixpoint frames (host : Host) (steps : list (Q * list string)) (g : Game.t)
    : M (list Game.t) :=
  match steps with
  | [] => ret []
  | (dt, keys) :: rest =>
      g' <- Game.update host dt keys g ;;
      later <- frames host rest g' ;;
      ret (g' :: later)
  end.

Definition isGameOver (s : State) : bool :=
  match s with GameOver => true | _ => false end.

(** The number of frames of a run that entered ["game_over"]: frames that
    began in another state and ended in it. *)
Fixpoint gameOverEntries (before : State) (run : list Game.t) : nat :=
  match run with
  | [] => 0
  | g :: later =>
      ((if negb (isGameOver before) && isGameOver (Game.state g) then 1 else 0)
       + gameOverEntries (Game.state g) later)%nat
  end.

(** The hazard alone, over a sequence of time steps. *)
Definition hazardSteps (host : Host) (dts : list Q) (h : Hazard.t) : Hazard.t :=
  fold_left (fun h dt => Hazard.update host dt h) dts h.

(** ** Separation of what the spawner places *)

Section Separation.
Variable host : Host.

(** An item placed at [pos] keeps its distance from the player, from the
    items placed before it and from the hazards. *)
Definition itemClear (newItemRadius : Q) (player : Player.t)
    (hazards : list Hazard.t) (before : list Item.t) (pos : Vec2.t) : Prop :=
  80 <= Vec2.distanceTo host pos (Player.pos player)
  /\ Forall (fun it => Item.radius it + newItemRadius + 8
                       <= Vec2.distanceTo host pos (Item.pos it)) before
  /\ Forall (fun hz => Hazard.size hz + newItemRadius + 12
                       <= Vec2.distanceTo host pos (Hazard.pos hz)) hazards.

Fixpoint itemsClear (newItemRadius : Q) (player : Player.t)
    (hazards : list Hazard.t) (before placed : list Item.t) : Prop :=
  match placed with
  | [] => True
  | it :: later =>
      itemClear newItemRadius player hazards before (Item.pos it)
      /\ Item.radius it == newItemRadius
      /\ itemsClear newItemRadius player hazards (before ++ [it]) later
  end.

Definition hazardClear (player : Player.t) (before : list Hazard.t)
    (pos : Vec2.t) : Prop :=
  120 <= Vec2.distanceTo host pos (Player.pos player)
  /\ Forall (fun h => 60 <= Vec2.distanceTo host pos (Hazard.pos h)) before.

Fixpoint hazardsClear (player : Player.t) (before placed : list Hazard.t)
    : Prop :=
  match placed with
  | [] => True
  | h :: later =>
      hazardClear player before (Hazard.pos h)
      /\ hazardsClear player (before ++ [h]) later
  end.
End Separation.

(** Every draw of a hazard velocity returns within [fuel] attempts,
    wherever in the random sequence it starts. *)
Definition velocityReturns (host : Host) (fuel : nat) : Prop :=
  forall (speedRange : Q * Q) (w : World),
    Hazard.randomVelocity host fuel speedRange w <> Spins.

(** ** Sample inputs *)

(** Square roots rounded down to six decimals. *)
Definition sqrt6 (q : Q) : Q :=
  Z.sqrt (Qnum q * 1000000000000 / Zpos (Qden q)) # 1000000.

(** A 960 x 540 canvas.  Sines and cosines only steer particles; two short
    polynomials stand for them. *)
Definition pageWith (values : nat -> Q) : Host :=
  {| canvas_width := 960;
     canvas_height := 540;
     Math_hypot := fun a b => sqrt6 (a * a + b * b);
     Math_sqrt := sqrt6;
     Math_cos := fun a => 1 - a * a / 2;
     Math_sin := fun a => a - a * a * a / 6;
     Math_PI := 3.141592653589793;
     dice := values |}.

(** [Math.random()] stuck in the middle of its range, and at its bottom. *)
Definition stuckHalf : nat -> Q := fun _ => 0.5.
Definition stuckZero : nat -> Q := fun _ => 0.

Definition freshWorld : World :=
  {| drawn := 0; storage_throws := false; slot := Absent |}.

Definition noSprites : Assets := {| cheese := None; mouseFrames := [] |}.

(** A game in the middle of a run on [Easy]: the player at (480, 300), the
    given items and hazards, combo state and cooldown. *)
Definition midRun (combo : Z) (comboTimer cooldown : Q)
    (items : list Item.t) (hazards : list Hazard.t) : Game.t :=
  {| Game.assets := noSprites; Game.state := Playing;
     Game.difficultyIndex := 0; Game.timeAcc := 0; Game.score := 0;
     Game.lives := 5; Game.timeLeft := 60;
     Game.combo := combo; Game.comboTimer := comboTimer;
     Game.player :=
       {| Player.pos := Vec2.new 480 300; Player.frames := [];
          Player.radius := 18; Player.hitCooldown := cooldown;
          Player.trail := []; Player.animTime := 0; Player.animIndex := 0;
          Player.lastMove := Vec2.new 1 0 |};
     Game.items := items; Game.hazards := hazards;
     Game.particles := []; Game.floaters := [];
     Game.shakeTimer := 0; Game.shakeStrength := 10;
     Game.highScore := 0; Game.newHighScore := false |}.

Definition cheeseAt (px py : Q) : Item.t :=
  {| Item.pos := Vec2.new px py; Item.sprite := None;
     Item.radius := 10; Item.wobble := 0 |}.

Definition catAt (px py vx vy : Q) : Hazard.t :=
  {| Hazard.pos := Vec2.new px py; Hazard.size := 24;
     Hazard.vel := Vec2.new vx vy |}.

(** The same game near its end: a score, a high score from an earlier run
    and little time left. *)
Definition lateRun (score highScore : Z) (timeLeft : Q)
    (items : list Item.t) (hazards : list Hazard.t) : Game.t :=
  Game.set_highScore highScore
    (Game.set_score score
       (Game.set_timeLeft timeLeft (midRun 0 0 0 items hazards))).

(** A player that has been running to the right for [n] frames of 50 ms. *)
Definition runner (host : Host) (n : nat) : Player.t :=
  Nat.iter n (Player.update host ["d"%string] 0.05)
           (Game.player (midRun 0 0 0 [] [])).


(** ** Notions used in the statements and the proofs *)

(** [triple spinning c P]: from every world, [c] does not throw; when it
    returns, [localStorage] is as it was and the result satisfies [P];
    when it does not return, [spinning] holds.  With [spinning := False]
    this is total correctness. *)
Definition triple {A : Type} (spinning : Prop) (c : M A) (P : A -> Prop) : Prop :=
  forall w,
    match c w with
    | Done (a, w') =>
        storage_throws w' = storage_throws w /\ slot w' = slot w /\ P a
    | Throws => False
    | Spins => spinning
    end.

(** The fields of a game that no visual effect touches. *)
Definition board (g : Game.t) :=
  (Game.state g, Game.difficultyIndex g, Game.lives g, Game.timeLeft g,
   Game.player g, Game.items g, Game.hazards g, Game.highScore g,
   Game.newHighScore g, Game.assets g).

Definition tally (g : Game.t) :=
  (Game.score g, Game.combo g, Game.comboTimer g).

(** The points of a collection that brings the combo to [combo]. *)
Definition comboPoints (combo : Z) : Z :=
  (10 + Z.min COMBO_BONUS_CAP ((combo - 1) * COMBO_BONUS_STEP))%Z.

Definition nextCombo (g : Game.t) : Z :=
  if Qlt_bool 0 (Game.comboTimer g) then (Game.combo g + 1)%Z else 1%Z.

(** The combo on which the collections of a frame build: the running
    combo when the timer is active, nothing otherwise. *)
Definition comboBase (g : Game.t) : Z :=
  if Qlt_bool 0 (Game.comboTimer g) then Game.combo g else 0%Z.

Definition overlapCount (host : Host) (p : Player.t) (its : list Item.t) : Z :=
  Z.of_nat (List.length (filter (Game.overlapsItem host p) its)).

Definition sameBody (h h' : Hazard.t) : Prop :=
  Hazard.vel h' = Hazard.vel h /\ Hazard.size h' = Hazard.size h.

(** What [handleCollisions] leaves behind. *)
Definition collided (host : Host) (g g' : Game.t) : Prop :=
  let n := overlapCount host (Game.player g) (Game.items g) in
  Game.state g' = Game.state g
  /\ Game.difficultyIndex g' = Game.difficultyIndex g
  /\ Game.timeLeft g' = Game.timeLeft g
  /\ Game.highScore g' = Game.highScore g
  /\ Game.newHighScore g' = Game.newHighScore g
  /\ Game.assets g' = Game.assets g
  /\ (n = 0%Z -> tally g' = tally g)
  /\ ((0 < n)%Z -> Game.combo g' = (comboBase g + n)%Z
                   /\ Game.comboTimer g' = COMBO_WINDOW)
  /\ Forall2 sameBody (Game.hazards g) (Game.hazards g')
  /\ ((Game.lives g' = Game.lives g /\ Game.player g' = Game.player g)
      \/ (Game.lives g' = (Game.lives g - 1)%Z
          /\ Player.canTakeHit (Game.player g) = true
          /\ Game.player g' = Player.markHit (Game.player g)))
  /\ (Player.canTakeHit (Game.player g) = false ->
      Game.lives g' = Game.lives g
      /\ Game.player g' = Game.player g
      /\ Game.hazards g' = Game.hazards g).

(** The game that [update] hands to [handleCollisions]: effects and combo
    timer ticked, player and hazards moved. *)
Definition prelude (host : Host) (dt : Q) (keys : list string) (g : Game.t)
    : Game.t :=
  let g := Game.set_timeAcc (Game.timeAcc g + dt) g in
  let g := if Qlt_bool 0 (Game.shakeTimer g)
           then Game.set_shakeTimer (Qmax 0 (Game.shakeTimer g - dt)) g
           else g in
  let g := Game.updateEffects dt g in
  let g :=
    if Qlt_bool 0 (Game.comboTimer g) then
      let g := Game.set_comboTimer (Qmax 0 (Game.comboTimer g - dt)) g in
      if Qeq_bool (Game.comboTimer g) 0 then Game.set_combo 0 g else g
    else g in
  let g := Game.set_player (Player.update host keys dt (Game.player g)) g in
  Game.set_hazards (map (Hazard.update host dt) (Game.hazards g)) g.

(** What [update] does after [handleCollisions]. *)
Definition epilogue (dt : Q) (g : Game.t) : M Game.t :=
  let g := Game.set_timeLeft (Qmax 0 (Game.timeLeft g - dt)) g in
  if Qle_bool (Game.timeLeft g) 0 || (Game.lives g <=? 0)%Z
  then Game.enterGameOver g
  else ret g.

(** One frame, from [g] in world [w] to [g'] in world [w']. *)
Definition stepped (host : Host) (dt : Q) (keys : list string)
    (g : Game.t) (w : World) (g' : Game.t) (w' : World) : Prop :=
  Game.difficultyIndex g' = Game.difficultyIndex g
  /\ Game.assets g' = Game.assets g
  /\ storage_throws w' = storage_throws w
  /\ match Game.state g with
     | Playing =>
         exists g1,
           collided host (prelude host dt keys g) g1
           /\ Game.timeLeft g' = Qmax 0 (Game.timeLeft g - dt)
           /\ tally g' = tally g1
           /\ Game.lives g' = Game.lives g1
           /\ Game.player g' = Game.player g1
           /\ Game.hazards g' = Game.hazards g1
           /\ Game.items g' = Game.items g1
           /\ if Qle_bool (Game.timeLeft g') 0 || (Game.lives g' <=? 0)%Z
              then Game.state g' = GameOver
                   /\ if (Game.highScore g <? Game.score g')%Z
                      then Game.highScore g' = Game.score g'
                           /\ Game.newHighScore g' = true
                           /\ slot w' = (if storage_throws w then slot w
                                         else Numeric (Game.score g'))
                      else Game.highScore g' = Game.highScore g
                           /\ Game.newHighScore g' = false
                           /\ slot w' = slot w
              else Game.state g' = Playing
                   /\ Game.highScore g' = Game.highScore g
                   /\ Game.newHighScore g' = Game.newHighScore g
                   /\ slot w' = slot w
     | Menu | Paused | GameOver =>
         board g' = board g /\ tally g' = tally g /\ w' = w
     end.

(** What the two spawners make of an empty board, from world [w] to world
    [w']: the hazards first, then the items around them. *)
Definition populated (host : Host) (fuel : nat) (diff : Difficulty.t)
    (sprite : option Q) (player : Player.t) (w : World)
    (hazards : list Hazard.t) (items : list Item.t) (w' : World) : Prop :=
  let wanted := Difficulty.hazards diff in
  let wantedItems := Difficulty.items diff in
  exists attempts attemptsItems w1,
    Game.spawnHazardsLoop host fuel (wanted * 25) wanted 0
                          (Difficulty.hazardSpeed diff) player [] w
      = Done ((hazards, attempts), w1)
    /\ Game.spawnItemsLoop host (wantedItems * 20) wantedItems 0 sprite
                           player hazards [] w1
      = Done ((items, attemptsItems), w')
    /\ (List.length hazards <= wanted)%nat
    /\ ((attempts < 25 * wanted)%nat -> List.length hazards = wanted)
    /\ (List.length items <= wantedItems)%nat
    /\ ((attemptsItems < 20 * wantedItems)%nat ->
        List.length items = wantedItems)
    /\ storage_throws w' = storage_throws w
    /\ slot w' = slot w.

(** The game that [startGame] builds before it spawns anything. *)
Definition cleared (host : Host) (diff : Difficulty.t) (g : Game.t) : Game.t :=
  let g := Game.set_state Playing g in
  let g := Game.set_timeLeft (Difficulty.time diff) g in
  let g := Game.set_score 0 g in
  let g := Game.set_lives (Difficulty.lives diff) g in
  let g := Game.set_combo 0 g in
  let g := Game.set_comboTimer 0 g in
  let g := Game.set_player (Player.recenter (Game.centre host) (Game.player g)) g in
  let g := Game.set_items [] g in
  let g := Game.set_hazards [] g in
  let g := Game.set_particles [] g in
  let g := Game.set_floaters [] g in
  let g := Game.set_shakeTimer 0 g in
  Game.set_newHighScore false g.

(** What a key press keeps: the high score as it is, the preset defined
    and the cooldown of the player non-negative. *)
Definition keepsHighScore (g g' : Game.t) : Prop :=
  Game.highScore g' = Game.highScore g
  /\ (exists diff, preset (Game.difficultyIndex g') = Some diff)
  /\ (0 <= Player.hitCooldown (Game.player g) ->
      0 <= Player.hitCooldown (Game.player g')).

(** The games that the page can reach: the one its constructor builds,
    then one frame or one key press at a time. *)
Inductive reachable (host : Host) (fuel : nat) : Game.t -> World -> Prop :=
| reach_new (assets : Assets) (w : World) (g : Game.t) (w' : World) :
    Game.new host fuel assets w = Done (g, w') ->
    reachable host fuel g w'
| reach_update (dt : Q) (keys : list string) (g : Game.t) (w : World)
    (g' : Game.t) (w' : World) :
    reachable host fuel g w ->
    Game.update host dt keys g w = Done (g', w') ->
    reachable host fuel g' w'
| reach_key (key : string) (g : Game.t) (w : World)
    (g' : Game.t) (w' : World) :
    reachable host fuel g w ->
    Game.onKeyDown host fuel key g w = Done (g', w') ->
    reachable host fuel g' w'.

(** ** More of the script *)

(** The time step of [tick(now)]: [Math.min(0.05, (now - last) / 1000)]. *)
Definition frameStep (now last : Q) : Q := Qmin 0.05 ((now - last) / 1000).

(** The part of [tick] that changes the game: one [update] with the
    clamped time step. *)
Definition tick (host : Host) (now last : Q) (keys : list string)
    (g : Game.t) : M Game.t :=
  Game.update host (frameStep now last) keys g.

(** The points of [n] collections in a row that start from a combo of
    [base]. *)
Fixpoint comboSum (base : Z) (n : nat) : Z :=
  match n with
  | O => 0%Z
  | S n' => (comboPoints (base + 1) + comboSum (base + 1) n')%Z
  end.

(** The game that [resetRun] builds before it spawns anything. *)
Definition wiped (host : Host) (diff : Difficulty.t) (index : Z)
    (g : Game.t) : Game.t :=
  let g := Game.set_difficultyIndex index g in
  let g := Game.set_score 0 g in
  let g := Game.set_lives (Difficulty.lives diff) g in
  let g := Game.set_timeLeft (Difficulty.time diff) g in
  let g := Game.set_combo 0 g in
  let g := Game.set_comboTimer 0 g in
  let g := Game.set_player
             (Player.new (Game.centre host) (mouseFrames (Game.assets g))) g in
  let g := Game.set_items [] g in
  let g := Game.set_hazards [] g in
  let g := Game.set_particles [] g in
  let g := Game.set_floaters [] g in
  let g := Game.set_shakeTimer 0 g in
  Game.set_newHighScore false g.

(** What one key press can make of a game [g]: nothing, a pause or a
    resume, another difficulty in the menu, a started run or a reset run,
    one after the other as [onKeyDown] chains them. *)
Inductive keyed (host : Host) (g : Game.t) : Game.t -> Prop :=
| keyed_same : keyed host g g
| keyed_pause :
    Game.state g = Playing -> keyed host g (Game.set_state Paused g)
| keyed_resume :
    Game.state g = Paused -> keyed host g (Game.set_state Playing g)
| keyed_index (g0 : Game.t) (index : Z) :
    keyed host g g0 -> Game.state g = Menu -> Game.state g0 = Menu ->
    (0 <= index < 3)%Z ->
    keyed host g (Game.set_difficultyIndex index g0)
| keyed_start (g0 : Game.t) (diff : Difficulty.t)
    (hs : list Hazard.t) (its : list Item.t) :
    keyed host g g0 ->
    preset (Game.difficultyIndex g0) = Some diff ->
    (List.length hs <= Difficulty.hazards diff)%nat ->
    (List.length its <= Difficulty.items diff)%nat ->
    keyed host g (Game.set_items its (Game.set_hazards hs (cleared host diff g0)))
| keyed_reset (g0 : Game.t) (diff : Difficulty.t)
    (hs : list Hazard.t) (its : list Item.t) :
    keyed host g g0 ->
    preset (Game.difficultyIndex g0) = Some diff ->
    (List.length hs <= Difficulty.hazards diff)%nat ->
    (List.length its <= Difficulty.items diff)%nat ->
    keyed host g
      (Game.set_state Menu
         (Game.set_items its
            (Game.set_hazards hs
               (wiped host diff (Game.difficultyIndex g0) g0)))).

(** What every reachable game satisfies. *)
Definition healthy (g : Game.t) : Prop :=
  (exists diff,
      preset (Game.difficultyIndex g) = Some diff
      /\ (Game.state g <> Menu ->
          (List.length (Game.hazards g) <= Difficulty.hazards diff)%nat
          /\ (List.length (Game.items g) <= Difficulty.items diff)%nat))
  /\ (0 <= Game.lives g)%Z
  /\ 0 <= Game.timeLeft g
  /\ (0 <= Game.score g)%Z
  /\ (0 <= Game.combo g)%Z
  /\ 0 <= Game.comboTimer g
  /\ 0 <= Player.hitCooldown (Game.player g)
  /\ (Game.state g = Playing \/ Game.state g = Paused ->
      (1 <= Game.lives g)%Z /\ 0 < Game.timeLeft g).

(** The rectangles from which [spawnItems] and [spawnHazards] draw their
    candidate positions. *)
Definition itemField (host : Host) (pos : Vec2.t) : Prop :=
  40 <= Vec2.x pos <= canvas_width host - 40
  /\ 80 <= Vec2.y pos <= canvas_height host - 40.

Definition hazardField (host : Host) (pos : Vec2.t) : Prop :=
  60 <= Vec2.x pos <= canvas_width host - 60
  /\ 100 <= Vec2.y pos <= canvas_height host - 60.

(** [Math.random()] keeps its contract: every value is in [0, 1). *)
Definition fairDice (host : Host) : Prop :=
  forall n, 0 <= dice host n < 1.




(** The world after one call of [Math.random()]. *)
Definition drawOne (w : World) : World :=
  {| drawn := S (drawn w);
     storage_throws := storage_throws w; slot := slot w |}.

(** A random sequence 0.8, 0.9, 0.8, ...: the directions drawn from it are
    (0.6, 0.8) and (0.8, 0.6), of length 1. *)
Definition alternating : nat -> Q :=
  fun n => if Nat.even n then 0.8 else 0.9.

(** The cooldown that [handleCollisions] finds in a frame: [update] has
    called [player.update(keys, dt)] by then. *)
Definition cooldownAtCheck (host : Host) (dt : Q) (keys : list string)
    (g : Game.t) : Q :=
  Player.hitCooldown (Player.update host keys dt (Game.player g)).

(** Along a run of frames, no frame that found the player invulnerable at
    its overlap check took a life. *)
Fixpoint spared (host : Host) (steps : list (Q * list string)) (g : Game.t)
    (run : list Game.t) : Prop :=
  match steps, run with
  | (dt, keys) :: rest, g' :: later =>
      (0 < cooldownAtCheck host dt keys g -> Game.lives g' = Game.lives g)
      /\ spared host rest g' later
  | _, _ => True
  end.

(** Every frame of the run found the player invulnerable at its overlap
    check. *)
Fixpoint shielded (host : Host) (steps : list (Q * list string)) (g : Game.t)
    (run : list Game.t) : Prop :=
  match steps, run with
  | (dt, keys) :: rest, g' :: later =>
      0 < cooldownAtCheck host dt keys g /\ shielded host rest g' later
  | _, _ => True
  end.

(** * Properties *)

(** ** Arithmetic on [Q] *)

Lemma Qlt_bool_iff (a b : Q) : Qlt_bool a b = true <-> a < b.
Proof.
  unfold Qlt_bool. rewrite negb_true_iff.
  split; intro H.
  - apply Qnot_le_lt. intro L. apply Qle_bool_iff in L. congruence.
  - destruct (Qle_bool b a) eqn:E; [|reflexivity].
    apply Qle_bool_iff in E. exfalso. apply (Qlt_not_le _ _ H E).
Qed.

Lemma Qlt_bool_false (a b : Q) : Qlt_bool a b = false <-> b <= a.
Proof.
  unfold Qlt_bool. rewrite negb_false_iff. apply Qle_bool_iff.
Qed.

Lemma Qle_bool_false (a b : Q) : Qle_bool a b = false <-> b < a.
Proof.
  rewrite <- Qlt_bool_iff. unfold Qlt_bool. now rewrite negb_true_iff.
Qed.

Lemma clamp_between (value min max : Q) :
  min <= max -> min <= clamp value min max <= max.
Proof.
  intro H. unfold clamp. split.
  - apply Q.le_max_l.
  - apply Q.max_lub; [exact H | apply Q.le_min_l].
Qed.

Lemma Qabs_flip (a : Q) : Qabs (a * -1) == Qabs a.
Proof.
  assert (E : a * -1 == - a) by ring.
  rewrite E. apply Qabs_opp.
Qed.

(** ** The player stays on the board *)

Lemma Player_update_pos (host : Host) (keys : list string) (dt : Q) (p : Player.t) :
  exists px py,
    Player.pos (Player.update host keys dt p) =
      Vec2.new (clamp px (Player.radius p)
                      (canvas_width host - Player.radius p))
               (clamp py (Player.radius p + 40)
                      (canvas_height host - Player.radius p))
    /\ Player.radius (Player.update host keys dt p) = Player.radius p.
Proof.
  unfold Player.update.
  match goal with
  | |- context [let '(_, _) := ?e in _] => destruct e
  end.
  cbn. eauto.
Qed.

Lemma Player_update_cooldown (host : Host) (keys : list string) (dt : Q) (p : Player.t) :
  Player.hitCooldown (Player.update host keys dt p) =
    if Qlt_bool 0 (Player.hitCooldown p)
    then Qmax 0 (Player.hitCooldown p - dt)
    else Player.hitCooldown p.
Proof.
  unfold Player.update.
  match goal with
  | |- context [let '(_, _) := ?e in _] => destruct e
  end.
  reflexivity.
Qed.

(** C5.  On a canvas that leaves room for the player, the position after
    [Player.update] lies in [radius, WIDTH - radius] on the x axis and in
    [radius + 40, HEIGHT - radius] on the y axis, whatever the previous
    position, the keys held and the time step; 40 is the height of the
    band kept for the HUD. *)
Theorem player_update_within_bounds
    (host : Host) (keys : list string) (dt : Q) (p : Player.t) :
  Player.radius p <= canvas_width host - Player.radius p ->
  Player.radius p + 40 <= canvas_height host - Player.radius p ->
  let p' := Player.update host keys dt p in
  let hudBand := 40 in
  Player.radius p' = Player.radius p
  /\ Player.radius p' <= Vec2.x (Player.pos p')
       <= canvas_width host - Player.radius p'
  /\ Player.radius p' + hudBand <= Vec2.y (Player.pos p')
       <= canvas_height host - Player.radius p'.
Proof.
  intros Hx Hy p' hudBand. subst p' hudBand.
  destruct (Player_update_pos host keys dt p) as (px & py & Hpos & Hrad).
  rewrite Hpos, Hrad. cbn [Vec2.x Vec2.y].
  split; [reflexivity|].
  split; apply clamp_between; assumption.
Qed.

Lemma player_update_within_bounds_witness :
  let p := Game.player (midRun 0 0 0 [] []) in
  let p' := Player.update (pageWith stuckZero) ["ArrowLeft"; "w"]%string 0.05 p in
  Player.radius p' = Player.radius p
  /\ Player.radius p' <= Vec2.x (Player.pos p') <= 960 - Player.radius p'
  /\ Player.radius p' + 40 <= Vec2.y (Player.pos p') <= 540 - Player.radius p'.
Proof.
  apply (player_update_within_bounds (pageWith stuckZero)
           ["ArrowLeft"; "w"]%string 0.05 (Game.player (midRun 0 0 0 [] [])));
    vm_compute; discriminate.
Defined.

(** ** Hazards bounce off the walls *)

Lemma Hazard_update_vel (host : Host) (dt : Q) (h : Hazard.t) :
  Qabs (Vec2.x (Hazard.vel (Hazard.update host dt h)))
    == Qabs (Vec2.x (Hazard.vel h))
  /\ Qabs (Vec2.y (Hazard.vel (Hazard.update host dt h)))
    == Qabs (Vec2.y (Hazard.vel h)).
Proof.
  unfold Hazard.update. cbn.
  split.
  - destruct (_ || _); [apply Qabs_flip | reflexivity].
  - match goal with
    | |- Qabs (if ?b then _ else _) == _ => destruct b
    end; [apply Qabs_flip | reflexivity].
Qed.

Lemma len2_of_abs (u v : Vec2.t) :
  Qabs (Vec2.x u) == Qabs (Vec2.x v) ->
  Qabs (Vec2.y u) == Qabs (Vec2.y v) ->
  Vec2.len2 u == Vec2.len2 v.
Proof.
  intros Hx Hy. unfold Vec2.len2.
  assert (S : forall a, a * a == Qabs a * Qabs a).
  { intro a. rewrite <- Qabs_Qmult. symmetry. apply Qabs_pos.
    nra. }
  rewrite (S (Vec2.x u)), (S (Vec2.y u)), (S (Vec2.x v)), (S (Vec2.y v)).
  rewrite Hx, Hy. reflexivity.
Qed.

(** C6.  Whatever the number of update steps and of wall bounces among
    them, the velocity of a hazard keeps its length: each component keeps
    its absolute value, a bounce only changes its sign, and so the squared
    length [len2] of the velocity is the one the hazard started with. *)
Theorem hazard_speed_invariant (host : Host) (dts : list Q) (h : Hazard.t) :
  let h' := hazardSteps host dts h in
  Qabs (Vec2.x (Hazard.vel h')) == Qabs (Vec2.x (Hazard.vel h))
  /\ Qabs (Vec2.y (Hazard.vel h')) == Qabs (Vec2.y (Hazard.vel h))
  /\ Vec2.len2 (Hazard.vel h') == Vec2.len2 (Hazard.vel h).
Proof.
  cbv zeta.
  assert (A : Qabs (Vec2.x (Hazard.vel (hazardSteps host dts h)))
                == Qabs (Vec2.x (Hazard.vel h))
              /\ Qabs (Vec2.y (Hazard.vel (hazardSteps host dts h)))
                == Qabs (Vec2.y (Hazard.vel h))).
  { revert h. unfold hazardSteps.
    induction dts as [|dt dts IH]; intro h; cbn [fold_left].
    - split; reflexivity.
    - destruct (IH (Hazard.update host dt h)) as [Ix Iy].
      destruct (Hazard_update_vel host dt h) as [Ux Uy].
      split.
      + rewrite Ix. exact Ux.
      + rewrite Iy. exact Uy. }
  destruct A as [Ax Ay].
  repeat split; try assumption.
  apply len2_of_abs; assumption.
Qed.

(** C7, as the code has it.  The wall test of [Hazard.update] uses the
    whole [size] of the hazard as its margin, and [size + 40] at the top:
    a velocity component is reflected exactly when the integrated position
    leaves [size, WIDTH - size] (for x) or [size + 40, HEIGHT - size] (for
    y); the position is clamped into these intervals exactly when one of
    the two components was reflected, and is the integrated position
    otherwise. *)
Theorem hazard_bounce_margin (host : Host) (dt : Q) (h : Hazard.t) :
  let px := Vec2.x (Hazard.pos h) + Vec2.x (Hazard.vel h) * dt in
  let py := Vec2.y (Hazard.pos h) + Vec2.y (Hazard.vel h) * dt in
  let margin := Hazard.size h in
  let right := canvas_width host - margin in
  let bottom := canvas_height host - margin in
  let outX := px < margin \/ right < px in
  let outY := py < margin + 40 \/ bottom < py in
  let h' := Hazard.update host dt h in
  Hazard.size h' = Hazard.size h
  /\ (outX -> Vec2.x (Hazard.vel h') = Vec2.x (Hazard.vel h) * -1)
  /\ (~ outX -> Vec2.x (Hazard.vel h') = Vec2.x (Hazard.vel h))
  /\ (outY -> Vec2.y (Hazard.vel h') = Vec2.y (Hazard.vel h) * -1)
  /\ (~ outY -> Vec2.y (Hazard.vel h') = Vec2.y (Hazard.vel h))
  /\ (outX \/ outY ->
      Hazard.pos h' = Vec2.new (clamp px margin right)
                               (clamp py (margin + 40) bottom))
  /\ (~ (outX \/ outY) -> Hazard.pos h' = Vec2.new px py).
Proof.
  cbv zeta. unfold Hazard.update. cbn [Hazard.size Hazard.vel Hazard.pos Vec2.x Vec2.y].
  set (px := Vec2.x (Hazard.pos h) + Vec2.x (Hazard.vel h) * dt).
  set (py := Vec2.y (Hazard.pos h) + Vec2.y (Hazard.vel h) * dt).
  assert (BX : Qlt_bool px (Hazard.size h)
               || Qlt_bool (canvas_width host - Hazard.size h) px = true
               <-> (px < Hazard.size h \/ canvas_width host - Hazard.size h < px)).
  { rewrite orb_true_iff, !Qlt_bool_iff. reflexivity. }
  assert (BY : Qlt_bool py (Hazard.size h + 40)
               || Qlt_bool (canvas_height host - Hazard.size h) py = true
               <-> (py < Hazard.size h + 40 \/ canvas_height host - Hazard.size h < py)).
  { rewrite orb_true_iff, !Qlt_bool_iff. reflexivity. }
  destruct (Qlt_bool px (Hazard.size h)
            || Qlt_bool (canvas_width host - Hazard.size h) px) eqn:EX;
  destruct (Qlt_bool py (Hazard.size h + 40)
            || Qlt_bool (canvas_height host - Hazard.size h) py) eqn:EY;
  cbn [orb];
  repeat split; intros; try reflexivity;
  repeat match goal with
         | H : ~ _ |- _ => exfalso; apply H; clear H
         | H : _ \/ _ |- _ => destruct H
         end;
  try (apply BX; reflexivity); try (apply BY; reflexivity);
  try (left; apply BX; reflexivity); try (right; apply BY; reflexivity);
  try (apply BX in H; discriminate H); try (apply BY in H; discriminate H);
  try (assert (F : false = true) by (apply BX; auto); discriminate F);
  try (assert (F : false = true) by (apply BY; auto); discriminate F).
Qed.

(** C7, as the specification words it, fails: a hazard whose integrated
    position is 20 units from the left wall, more than its half-size 12,
    is reflected all the same and moved to 24 units from the wall. *)
Lemma hazard_bounce_not_at_half_size :
  ~ (forall (host : Host) (dt : Q) (h : Hazard.t),
       let px := Vec2.x (Hazard.pos h) + Vec2.x (Hazard.vel h) * dt in
       let half := Hazard.size h * 0.5 in
       let h' := Hazard.update host dt h in
       (Vec2.x (Hazard.vel h') == - Vec2.x (Hazard.vel h)
        /\ Vec2.x (Hazard.pos h')
           == clamp px (Hazard.size h) (canvas_width host - Hazard.size h))
       -> 0 < Qabs (Vec2.x (Hazard.vel h))
       -> px < half \/ canvas_width host - half < px).
Proof.
  intro claim.
  specialize (claim (pageWith stuckZero) 0.1 (catAt 21 300 (-10) 0)).
  cbv zeta in claim.
  assert (P : 21 + -10 * 0.1 < 24 * 0.5 \/ 960 - 24 * 0.5 < 21 + -10 * 0.1).
  { apply claim.
    - split; vm_compute; reflexivity.
    - vm_compute. reflexivity. }
  destruct P as [P | P]; vm_compute in P; discriminate P.
Qed.

(** ** Reasoning about [M] *)

Lemma triple_ret {A} (S : Prop) (a : A) (P : A -> Prop) :
  P a -> triple S (ret a) P.
Proof. intros H w. cbn. auto. Qed.

Lemma triple_bind {A B} (S : Prop) (c : M A) (k : A -> M B)
    (P : A -> Prop) (Q : B -> Prop) :
  triple S c P ->
  (forall a, P a -> triple S (k a) Q) ->
  triple S (bind c k) Q.
Proof.
  intros Hc Hk w. unfold bind. specialize (Hc w).
  destruct (c w) as [[a w1]| |]; try assumption.
  destruct Hc as (T1 & S1 & Pa).
  specialize (Hk a Pa w1).
  destruct (k a w1) as [[b w2]| |]; try assumption.
  destruct Hk as (T2 & S2 & Qb).
  split; [congruence|]. split; [congruence|]. exact Qb.
Qed.

Lemma triple_weaken {A} (S S' : Prop) (c : M A) (P P' : A -> Prop) :
  triple S c P -> (S -> S') -> (forall a, P a -> P' a) -> triple S' c P'.
Proof.
  intros H HS HP w. specialize (H w).
  destruct (c w) as [[a w1]| |]; auto.
  destruct H as (T & L & Pa). auto.
Qed.

Lemma triple_rand (S : Prop) (host : Host) (min max : Q) :
  triple S (rand host min max) (fun _ => True).
Proof. intro w. cbn. auto. Qed.

(** A total triple gives its result. *)
Lemma triple_done {A} (c : M A) (P : A -> Prop) (w : World) :
  triple False c P ->
  exists a w', c w = Done (a, w')
               /\ storage_throws w' = storage_throws w
               /\ slot w' = slot w /\ P a.
Proof.
  intro H. specialize (H w).
  destruct (c w) as [[a w1]| |]; try contradiction.
  exists a, w1. tauto.
Qed.

Lemma rand_at (host : Host) (min max : Q) (w : World) :
  rand host min max w = Done (min + dice host (drawn w) * (max - min), drawOne w).
Proof. reflexivity. Qed.


Lemma bind_done {A B : Type} (c : M A) (k : A -> M B) (w : World)
    (r : B * World) :
  bind c k w = Done r ->
  exists a w1, c w = Done (a, w1) /\ k a w1 = Done r.
Proof.
  unfold bind. destruct (c w) as [[a w1] | |]; try discriminate.
  intros E. exists a, w1. split; [reflexivity | exact E].
Qed.


Ltac triple_step :=
  lazymatch goal with
  | |- triple _ (ret _) _ => apply triple_ret
  | |- triple _ (bind (rand _ _ _) _) _ =>
      eapply triple_bind; [ apply triple_rand | intros ? _ ]
  | |- triple _ (bind _ _) _ => eapply triple_bind
  end.

(** ** Effects are cosmetic *)

Lemma burst_total (host : Host) (n : nat) (pos : Vec2.t)
    (lo hi lifetime size : Q) (ps : list Particle.t) :
  triple False (Game.burst host n pos lo hi lifetime size ps) (fun _ => True).
Proof.
  revert ps. induction n as [|n IH]; intro ps; cbn [Game.burst].
  - apply triple_ret. exact I.
  - do 2 triple_step. apply IH.
Qed.

Lemma spawnCollectEffect_total (host : Host) (pos : Vec2.t) (points combo : Z)
    (g : Game.t) :
  triple False (Game.spawnCollectEffect host pos points combo g)
         (fun g' => board g' = board g /\ tally g' = tally g).
Proof.
  unfold Game.spawnCollectEffect.
  eapply triple_bind; [apply burst_total|]. intros ps _.
  apply triple_ret. split; reflexivity.
Qed.

Lemma spawnHitEffect_total (host : Host) (pos : Vec2.t) (g : Game.t) :
  triple False (Game.spawnHitEffect host pos g)
         (fun g' => board g' = board g /\ tally g' = tally g).
Proof.
  unfold Game.spawnHitEffect.
  eapply triple_bind; [apply burst_total|]. intros ps _.
  apply triple_ret. split; reflexivity.
Qed.

Lemma updateEffects_board (dt : Q) (g : Game.t) :
  board (Game.updateEffects dt g) = board g
  /\ tally (Game.updateEffects dt g) = tally g.
Proof. split; reflexivity. Qed.

Ltac splits := repeat match goal with |- _ /\ _ => split end.

(** ** The spawner *)

Lemma Item_new_total (host : Host) (pos : Vec2.t) (sprite : option Q) :
  triple False (Item.new host pos sprite)
    (fun it => Item.pos it = pos
               /\ Item.radius it =
                    match sprite with Some width => width / 2 | None => 10 end).
Proof.
  unfold Item.new. triple_step. triple_step. split; reflexivity.
Qed.

Lemma existsb_false_Forall {A} (f : A -> bool) (P : A -> Prop) (l : list A) :
  (forall a, f a = false -> P a) ->
  existsb f l = false -> Forall P l.
Proof.
  intros H. induction l as [|a l IH]; cbn; intro E.
  - constructor.
  - apply orb_false_iff in E. destruct E as [Ea El].
    constructor; auto.
Qed.

Lemma itemTooClose_clear (host : Host) (r : Q) (player : Player.t)
    (hazards : list Hazard.t) (items : list Item.t) (pos : Vec2.t) :
  Game.itemTooClose host r player hazards items pos = false ->
  itemClear host r player hazards items pos.
Proof.
  unfold Game.itemTooClose, itemClear. intro E.
  apply orb_false_iff in E. destruct E as [E Eh].
  apply orb_false_iff in E. destruct E as [Ep Eo].
  split; [apply Qlt_bool_false; exact Ep|].
  split.
  - eapply existsb_false_Forall; [|exact Eo].
    intros it Hit. apply Qlt_bool_false. exact Hit.
  - eapply existsb_false_Forall; [|exact Eh].
    intros hz Hhz. apply Qlt_bool_false. exact Hhz.
Qed.

Lemma itemsClear_snoc (host : Host) (r : Q) (player : Player.t)
    (hazards : list Hazard.t) (before placed : list Item.t) (it : Item.t) :
  itemsClear host r player hazards before placed ->
  itemClear host r player hazards (before ++ placed) (Item.pos it) ->
  Item.radius it == r ->
  itemsClear host r player hazards before (placed ++ [it]).
Proof.
  revert before. induction placed as [|p placed IH]; intros before Hc Hi Hr; cbn.
  - rewrite app_nil_r in Hi. auto.
  - destruct Hc as (C1 & C2 & C3).
    split; [exact C1|]. split; [exact C2|].
    apply IH; try assumption.
    rewrite <- app_assoc. exact Hi.
Qed.

(** What the loop of [spawnItems] returns, started with [attempts] turns
    behind it and [budget] turns to the cap. *)
Lemma spawnItemsLoop_total (host : Host) (count : nat) (sprite : option Q)
    (player : Player.t) (hazards : list Hazard.t) :
  let r := match sprite with Some width => width / 2 | None => 10 end in
  forall (budget attempts : nat) (items placed0 : list Item.t),
    (attempts + budget = count * 20)%nat ->
    itemsClear host r player hazards items placed0 ->
    (List.length placed0 <= count)%nat ->
    triple False
      (Game.spawnItemsLoop host budget count attempts sprite player hazards
                           (items ++ placed0))
      (fun result =>
         exists placed,
           fst result = items ++ placed
           /\ itemsClear host r player hazards items placed
           /\ (attempts <= snd result <= count * 20)%nat
           /\ (List.length placed <= count)%nat
           /\ ((snd result < count * 20)%nat ->
               (count <= List.length (fst result))%nat)).
Proof.
  intro r.
  induction budget as [|budget IH]; intros attempts items placed0 Hb Hc Hl;
    cbn [Game.spawnItemsLoop].
  - apply triple_ret. exists placed0. cbn [fst snd].
    splits; try reflexivity; try assumption; try lia.
  - destruct ((List.length (items ++ placed0) <? count)%nat
              && (attempts <? count * 20)%nat) eqn:Cond.
    + apply andb_true_iff in Cond. destruct Cond as [Cl Ca].
      apply Nat.ltb_lt in Cl. apply Nat.ltb_lt in Ca.
      do 2 triple_step.
      destruct (Game.itemTooClose host _ player hazards (items ++ placed0) _)
        eqn:Close.
      * eapply triple_weaken;
          [apply (IH (S attempts) items placed0); try assumption; lia
          | tauto |].
        intros [its att] (placed & E1 & E2 & E3 & E4 & E5).
        exists placed. cbn [fst snd] in *.
        splits; try reflexivity; try assumption; try lia.
      * eapply triple_bind; [apply Item_new_total|].
        intros it [Hpos Hrad].
        rewrite <- app_assoc.
        eapply triple_weaken;
          [apply (IH (S attempts) items (placed0 ++ [it])); try lia
          | tauto |].
        -- apply itemsClear_snoc; try assumption.
           ++ rewrite Hpos. apply itemTooClose_clear. exact Close.
           ++ rewrite Hrad. reflexivity.
        -- rewrite length_app in *. cbn [List.length] in *. lia.
        -- intros [its att] (placed & E1 & E2 & E3 & E4 & E5).
           exists placed. cbn [fst snd] in *.
           splits; try reflexivity; try assumption; try lia.
    + apply triple_ret. exists placed0. cbn [fst snd].
      apply andb_false_iff in Cond.
      splits; try reflexivity; try assumption; try lia.
      intro Hlt. destruct Cond as [Cl | Ca].
      * apply Nat.ltb_ge in Cl. exact Cl.
      * apply Nat.ltb_ge in Ca. lia.
Qed.

Lemma randomVelocity_outcome (host : Host) (speedRange : Q * Q) (n : nat) :
  triple True (Hazard.randomVelocity host n speedRange) (fun _ => True).
Proof.
  induction n as [|n IH]; cbn [Hazard.randomVelocity].
  - intro w. exact I.
  - do 2 triple_step.
    destruct (Qle_bool _ _); [exact IH|].
    triple_step. triple_step. exact I.
Qed.

Lemma Hazard_new_outcome (host : Host) (fuel : nat) (pos : Vec2.t)
    (speedRange : Q * Q) :
  triple (~ velocityReturns host fuel) (Hazard.new host fuel pos speedRange)
         (fun h => Hazard.pos h = pos /\ Hazard.size h = 24).
Proof.
  unfold Hazard.new.
  eapply triple_bind with (P := fun _ => True).
  - intro w.
    pose proof (randomVelocity_outcome host speedRange fuel w) as H.
    destruct (Hazard.randomVelocity host fuel speedRange w) as [[v w']| |] eqn:E;
      try assumption.
    intro V. exact (V speedRange w E).
  - intros vel _. apply triple_ret. split; reflexivity.
Qed.

Lemma hazardTooClose_clear (host : Host) (player : Player.t)
    (hazards : list Hazard.t) (pos : Vec2.t) :
  Game.hazardTooClose host player hazards pos = false ->
  hazardClear host player hazards pos.
Proof.
  unfold Game.hazardTooClose, hazardClear. intro E.
  apply orb_false_iff in E. destruct E as [Ep Eo].
  split; [apply Qlt_bool_false; exact Ep|].
  eapply existsb_false_Forall; [|exact Eo].
  intros h Hh. apply Qlt_bool_false. exact Hh.
Qed.

Lemma hazardsClear_snoc (host : Host) (player : Player.t)
    (before placed : list Hazard.t) (h : Hazard.t) :
  hazardsClear host player before placed ->
  hazardClear host player (before ++ placed) (Hazard.pos h) ->
  hazardsClear host player before (placed ++ [h]).
Proof.
  revert before. induction placed as [|p placed IH]; intros before Hc Hi; cbn.
  - rewrite app_nil_r in Hi. auto.
  - destruct Hc as (C1 & C2).
    split; [exact C1|].
    apply IH; try assumption.
    rewrite <- app_assoc. exact Hi.
Qed.

Lemma spawnHazardsLoop_outcome (host : Host) (fuel count : nat)
    (speedRange : Q * Q) (player : Player.t) :
  forall (budget attempts : nat) (hazards placed0 : list Hazard.t),
    (attempts + budget = count * 25)%nat ->
    hazardsClear host player hazards placed0 ->
    (List.length placed0 <= count)%nat ->
    triple (~ velocityReturns host fuel)
      (Game.spawnHazardsLoop host fuel budget count attempts speedRange player
                             (hazards ++ placed0))
      (fun result =>
         exists placed,
           fst result = hazards ++ placed
           /\ hazardsClear host player hazards placed
           /\ (attempts <= snd result <= count * 25)%nat
           /\ (List.length placed <= count)%nat
           /\ ((snd result < count * 25)%nat ->
               (count <= List.length (fst result))%nat)).
Proof.
  induction budget as [|budget IH]; intros attempts hazards placed0 Hb Hc Hl;
    cbn [Game.spawnHazardsLoop].
  - apply triple_ret. exists placed0. cbn [fst snd].
    splits; try reflexivity; try assumption; try lia.
  - destruct ((List.length (hazards ++ placed0) <? count)%nat
              && (attempts <? count * 25)%nat) eqn:Cond.
    + apply andb_true_iff in Cond. destruct Cond as [Cl Ca].
      apply Nat.ltb_lt in Cl. apply Nat.ltb_lt in Ca.
      do 2 triple_step.
      destruct (Game.hazardTooClose host player (hazards ++ placed0) _)
        eqn:Close.
      * eapply triple_weaken;
          [apply (IH (S attempts) hazards placed0); try assumption; lia
          | tauto |].
        intros [hs att] (placed & E1 & E2 & E3 & E4 & E5).
        exists placed. cbn [fst snd] in *.
        splits; try reflexivity; try assumption; try lia.
      * eapply triple_bind; [apply Hazard_new_outcome|].
        intros h [Hpos Hsize].
        rewrite <- app_assoc.
        eapply triple_weaken;
          [apply (IH (S attempts) hazards (placed0 ++ [h])); try lia
          | tauto |].
        -- apply hazardsClear_snoc; try assumption.
           rewrite Hpos. apply hazardTooClose_clear. exact Close.
        -- rewrite length_app in *. cbn [List.length] in *. lia.
        -- intros [hs att] (placed & E1 & E2 & E3 & E4 & E5).
           exists placed. cbn [fst snd] in *.
           splits; try reflexivity; try assumption; try lia.
    + apply triple_ret. exists placed0. cbn [fst snd].
      apply andb_false_iff in Cond.
      splits; try reflexivity; try assumption; try lia.
      intro Hlt. destruct Cond as [Cl | Ca].
      * apply Nat.ltb_ge in Cl. exact Cl.
      * apply Nat.ltb_ge in Ca. lia.
Qed.

(** With [Math.random] stuck at 0 the first direction drawn is (-1, -1),
    which is long enough: one draw of a velocity is enough. *)
Lemma velocityReturns_stuckZero : velocityReturns (pageWith stuckZero) 1.
Proof.
  intros speedRange w. cbn. discriminate.
Qed.









(** ** Collisions and combo scoring *)

Lemma board_fields (g g' : Game.t) :
  board g' = board g ->
  Game.state g' = Game.state g
  /\ Game.difficultyIndex g' = Game.difficultyIndex g
  /\ Game.lives g' = Game.lives g
  /\ Game.timeLeft g' = Game.timeLeft g
  /\ Game.player g' = Game.player g
  /\ Game.items g' = Game.items g
  /\ Game.hazards g' = Game.hazards g
  /\ Game.highScore g' = Game.highScore g
  /\ Game.newHighScore g' = Game.newHighScore g
  /\ Game.assets g' = Game.assets g.
Proof.
  unfold board. intro H. injection H. intros. splits; assumption.
Qed.

Lemma tally_fields (g g' : Game.t) :
  tally g' = tally g ->
  Game.score g' = Game.score g
  /\ Game.combo g' = Game.combo g
  /\ Game.comboTimer g' = Game.comboTimer g.
Proof.
  unfold tally. intro H. injection H. intros. splits; assumption.
Qed.

Lemma collectItem_total (host : Host) (it : Item.t) (g : Game.t) :
  triple False (Game.collectItem host it g)
    (fun g' => board g' = board g
               /\ Game.combo g' = nextCombo g
               /\ Game.comboTimer g' = COMBO_WINDOW
               /\ Game.score g' = (Game.score g + comboPoints (nextCombo g))%Z).
Proof.
  unfold Game.collectItem, nextCombo, comboPoints.
  destruct (Qlt_bool 0 (Game.comboTimer g));
    (eapply triple_weaken; [apply spawnCollectEffect_total | tauto |]);
    intros g' [Hb Ht]; cbv beta;
    apply tally_fields in Ht; destruct Ht as (Hs & Hc & Ht);
    (split; [rewrite Hb; reflexivity|]);
    rewrite Hs, Hc, Ht; splits; reflexivity.
Qed.


Lemma collectLoop_total (host : Host) (its : list Item.t) :
  forall (collected : list Item.t) (g : Game.t),
    triple False (Game.collectLoop host its collected g)
      (fun r =>
         let n := overlapCount host (Game.player g) its in
         board (snd r) = board g
         /\ fst r = collected ++ filter (Game.overlapsItem host (Game.player g)) its
         /\ (n = 0%Z -> tally (snd r) = tally g)
         /\ ((0 < n)%Z ->
             Game.combo (snd r) = (comboBase g + n)%Z
             /\ Game.comboTimer (snd r) = COMBO_WINDOW)).
Proof.
  unfold overlapCount.
  induction its as [|it rest IH]; intros collected g; cbn [Game.collectLoop].
  - apply triple_ret. cbn. rewrite app_nil_r.
    splits; try reflexivity; lia.
  - cbn [filter].
    destruct (Game.overlapsItem host (Game.player g) it) eqn:Hit.
    + eapply triple_bind; [apply collectItem_total|].
      intros g1 (Hb & Hc & Ht & Hs).
      eapply triple_weaken; [apply IH | tauto |].
      intros [col g2]. cbn [fst snd]. cbv zeta.
      destruct (board_fields _ _ Hb) as (_ & _ & _ & _ & Hp & _).
      rewrite Hp. intros (B & C & Z0 & Zp).
      split; [congruence|].
      split; [rewrite C, <- app_assoc; reflexivity|].
      cbn [List.length].
      split; [lia|]. intros _.
      assert (N : nextCombo g = (comboBase g + 1)%Z).
      { unfold nextCombo, comboBase. destruct (Qlt_bool _ _); lia. }
      destruct (List.length (filter (Game.overlapsItem host (Game.player g)) rest))
        as [|k] eqn:Ek.
      * destruct (tally_fields _ _ (Z0 eq_refl)) as (_ & T2 & T3).
        split; [rewrite T2, Hc, N; reflexivity | congruence].
      * destruct Zp as [Zc Zt]; [lia|].
        split; [|exact Zt].
        rewrite Zc. unfold comboBase at 1. rewrite Ht, Hc, N.
        change (Qlt_bool 0 COMBO_WINDOW) with true. cbv iota. lia.
    + eapply triple_weaken; [apply IH | tauto |].
      intros [col g2]. cbn [fst snd]. cbv zeta. tauto.
Qed.

Lemma sameBody_refl (hs : list Hazard.t) : Forall2 sameBody hs hs.
Proof. induction hs; constructor; auto. split; reflexivity. Qed.

Lemma nudgeAwayFrom_total (host : Host) (point : Vec2.t) (h : Hazard.t) :
  triple False (Hazard.nudgeAwayFrom host point h) (fun h' => sameBody h h').
Proof.
  unfold Hazard.nudgeAwayFrom.
  destruct (Qeq_bool _ 0 && Qeq_bool _ 0).
  - eapply triple_bind with (P := fun _ => True).
    + do 3 triple_step. exact I.
    + intros [dx dy] _. apply triple_ret. split; reflexivity.
  - eapply triple_bind with (P := fun _ => True).
    + apply triple_ret. exact I.
    + intros [dx dy] _. apply triple_ret. split; reflexivity.
Qed.

Lemma firstHit_total (host : Host) (p : Player.t) (hs : list Hazard.t) :
  triple False (Game.firstHit host p hs)
    (fun r => Forall2 sameBody hs (snd r)
              /\ (fst r = false -> snd r = hs)
              /\ fst r = existsb (Game.overlapsHazard host p) hs).
Proof.
  induction hs as [|h rest IH]; cbn [Game.firstHit existsb].
  - apply triple_ret. cbn. splits; auto.
  - destruct (Game.overlapsHazard host p h).
    + eapply triple_bind; [apply nudgeAwayFrom_total|].
      intros h' Hb. apply triple_ret. cbn [fst snd orb].
      splits; try reflexivity; try discriminate.
      constructor; [exact Hb | apply sameBody_refl].
    + eapply triple_bind; [apply IH|].
      intros [hit rest'] (F & E & X). cbn [fst snd] in *.
      apply triple_ret. cbn [fst snd orb].
      splits; try assumption.
      * constructor; [split; reflexivity | exact F].
      * intro Hf. rewrite (E Hf). reflexivity.
Qed.

Lemma spawnItems_total (host : Host) (count : nat) (g : Game.t) :
  triple False (Game.spawnItems host count g)
         (fun g' => exists its, g' = Game.set_items its g).
Proof.
  unfold Game.spawnItems.
  pose proof (spawnItemsLoop_total host count (cheese (Game.assets g))
                (Game.player g) (Game.hazards g) (count * 20) 0
                (Game.items g) [] eq_refl I (Nat.le_0_l _)) as H.
  rewrite app_nil_r in H.
  eapply triple_bind; [exact H|].
  intros [its att] _. apply triple_ret. eauto.
Qed.

Ltac game_fields :=
  cbn [Game.state Game.difficultyIndex Game.timeAcc Game.score Game.lives
       Game.timeLeft Game.combo Game.comboTimer Game.player Game.items
       Game.hazards Game.particles Game.floaters Game.shakeTimer
       Game.shakeStrength Game.highScore Game.newHighScore Game.assets
       Game.set_state Game.set_difficultyIndex Game.set_timeAcc
       Game.set_score Game.set_lives Game.set_timeLeft Game.set_combo
       Game.set_comboTimer Game.set_player Game.set_items Game.set_hazards
       Game.set_particles Game.set_floaters Game.set_shakeTimer
       Game.set_highScore Game.set_newHighScore] in *.

Lemma handleCollisions_total (host : Host) (g : Game.t) (diff : Difficulty.t) :
  preset (Game.difficultyIndex g) = Some diff ->
  triple False (Game.handleCollisions host g) (collided host g).
Proof.
  intro Hd. unfold Game.handleCollisions.
  eapply triple_bind; [apply collectLoop_total|].
  intros [col g1]. cbn [fst snd]. cbv zeta. intros (B & C & Z0 & Zp).
  destruct (board_fields _ _ B)
    as (B1 & B2 & B3 & B4 & B5 & B6 & B7 & B8 & B9 & B10).
  set (g2 := match col with
             | [] => g1
             | _ :: _ =>
                 Game.set_items
                   (filter (fun it => negb (Game.overlapsItem host (Game.player g1) it))
                           (Game.items g1)) g1
             end).
  assert (K2 : exists its, g2 = Game.set_items its g1).
  { subst g2. destruct col; eexists; [|reflexivity].
    instantiate (1 := Game.items g1). destruct g1; reflexivity. }
  destruct K2 as [its2 K2]. clearbody g2. subst g2.
  eapply triple_bind with
    (P := fun g3 => exists its, g3 = Game.set_items its g1).
  { game_fields. destruct its2.
    - rewrite B2, Hd.
      eapply triple_weaken; [apply spawnItems_total | tauto |].
      intros g3 [its E]. exists its. rewrite E. reflexivity.
    - apply triple_ret. eexists; reflexivity. }
  intros g3 [its3 E3]. subst g3. game_fields.
  assert (Base : collided host g (Game.set_items its3 g1)).
  { unfold collided. cbv zeta. game_fields.
    splits; try assumption.
    - rewrite B7. apply sameBody_refl.
    - left. split; assumption.
    - intros _. splits; assumption. }
  rewrite B5.
  destruct (Player.canTakeHit (Game.player g)) eqn:Can; cbn [negb].
  - eapply triple_bind; [apply firstHit_total|].
    intros [hit hs] (F & Same & X). cbn [fst snd] in *.
    destruct hit.
    + eapply triple_weaken; [apply spawnHitEffect_total | tauto |].
      intros g4 [Hb Ht]. cbv beta.
      destruct (board_fields _ _ Hb)
        as (A1 & A2 & A3 & A4 & A5 & A6 & A7 & A8 & A9 & A10).
      game_fields.
      unfold collided. cbv zeta.
      rewrite A1, A2, A3, A4, A5, A7, A8, A9, A10.
      splits; try assumption; try congruence.
      * intro N. rewrite Ht. exact (Z0 N).
      * intro N. apply tally_fields in Ht. destruct Ht as (_ & T2 & T3).
        rewrite T2, T3. exact (Zp N).
      * right. splits; congruence.
    + apply triple_ret. exact Base.
  - apply triple_ret. exact Base.
Qed.

(** ** One frame *)

Lemma update_playing (host : Host) (dt : Q) (keys : list string) (g : Game.t) :
  Game.state g = Playing ->
  Game.update host dt keys g =
    bind (Game.handleCollisions host (prelude host dt keys g)) (epilogue dt).
Proof.
  intro Hs. unfold Game.update, prelude. cbv zeta.
  replace (Game.state
             (Game.updateEffects dt
                (if Qlt_bool 0 (Game.shakeTimer (Game.set_timeAcc (Game.timeAcc g + dt) g))
                 then Game.set_shakeTimer
                        (Qmax 0 (Game.shakeTimer (Game.set_timeAcc (Game.timeAcc g + dt) g) - dt))
                        (Game.set_timeAcc (Game.timeAcc g + dt) g)
                 else Game.set_timeAcc (Game.timeAcc g + dt) g)))
    with (Game.state g)
    by (destruct (Qlt_bool 0 _); reflexivity).
  rewrite Hs. reflexivity.
Qed.

Lemma update_idle (host : Host) (dt : Q) (keys : list string) (g : Game.t)
    (w : World) :
  Game.state g <> Playing ->
  exists g', Game.update host dt keys g w = Done (g', w)
             /\ board g' = board g /\ tally g' = tally g.
Proof.
  intro Hs. unfold Game.update. cbv zeta.
  match goal with
  | |- context [Game.updateEffects dt ?x] => set (g0 := Game.updateEffects dt x)
  end.
  assert (E : board g0 = board g /\ tally g0 = tally g).
  { subst g0. game_fields. destruct (Qlt_bool 0 (Game.shakeTimer g)); split; reflexivity. }
  destruct E as [Eb Et].
  assert (Es : Game.state g0 = Game.state g).
  { apply board_fields in Eb. tauto. }
  clearbody g0. rewrite Es.
  destruct (Game.state g); try congruence; exists g0; auto.
Qed.

Lemma prelude_fields (host : Host) (dt : Q) (keys : list string) (g : Game.t) :
  let g0 := prelude host dt keys g in
  Game.state g0 = Game.state g
  /\ Game.difficultyIndex g0 = Game.difficultyIndex g
  /\ Game.lives g0 = Game.lives g
  /\ Game.timeLeft g0 = Game.timeLeft g
  /\ Game.score g0 = Game.score g
  /\ Game.items g0 = Game.items g
  /\ Game.highScore g0 = Game.highScore g
  /\ Game.newHighScore g0 = Game.newHighScore g
  /\ Game.assets g0 = Game.assets g
  /\ Game.player g0 = Player.update host keys dt (Game.player g)
  /\ Game.hazards g0 = map (Hazard.update host dt) (Game.hazards g)
  /\ Game.comboTimer g0 =
       (if Qlt_bool 0 (Game.comboTimer g)
        then Qmax 0 (Game.comboTimer g - dt) else Game.comboTimer g)
  /\ Game.combo g0 =
       (if Qlt_bool 0 (Game.comboTimer g)
           && Qeq_bool (Qmax 0 (Game.comboTimer g - dt)) 0
        then 0%Z else Game.combo g).
Proof.
  unfold prelude, Game.updateEffects. cbv zeta. game_fields.
  destruct (Qlt_bool 0 (Game.shakeTimer g)); game_fields;
    destruct (Qlt_bool 0 (Game.comboTimer g)); game_fields; cbn [andb];
    try destruct (Qeq_bool (Qmax 0 (Game.comboTimer g - dt)) 0);
    splits; reflexivity.
Qed.

(** [enterGameOver], field by field. *)
Lemma enterGameOver_spec (g : Game.t) (w : World) :
  exists g' w',
    Game.enterGameOver g w = Done (g', w')
    /\ Game.state g' = GameOver
    /\ Game.difficultyIndex g' = Game.difficultyIndex g
    /\ Game.assets g' = Game.assets g
    /\ tally g' = tally g
    /\ Game.lives g' = Game.lives g
    /\ Game.timeLeft g' = Game.timeLeft g
    /\ Game.player g' = Game.player g
    /\ Game.hazards g' = Game.hazards g
    /\ Game.items g' = Game.items g
    /\ storage_throws w' = storage_throws w
    /\ drawn w' = drawn w
    /\ if (Game.highScore g <? Game.score g)%Z
       then Game.highScore g' = Game.score g
            /\ Game.newHighScore g' = true
            /\ slot w' = (if storage_throws w then slot w
                          else Numeric (Game.score g))
       else Game.highScore g' = Game.highScore g
            /\ Game.newHighScore g' = false
            /\ w' = w.
Proof.
  unfold Game.enterGameOver. cbv zeta. game_fields.
  destruct (Game.highScore g <? Game.score g)%Z.
  - unfold bind, Game.saveHighScore. game_fields.
    destruct (storage_throws w) eqn:T; eexists; eexists;
      (split; [reflexivity|]); cbn; rewrite ?T; splits; reflexivity.
  - eexists; eexists. split; [reflexivity|]. splits; reflexivity.
Qed.

Lemma update_spec (host : Host) (dt : Q) (keys : list string) (g : Game.t)
    (diff : Difficulty.t) (w : World) :
  preset (Game.difficultyIndex g) = Some diff ->
  exists g' w',
    Game.update host dt keys g w = Done (g', w')
    /\ stepped host dt keys g w g' w'.
Proof.
  intro Hd. unfold stepped.
  destruct (Game.state g) eqn:Hs;
    try (destruct (update_idle host dt keys g w) as (g' & E & Eb & Et);
         [congruence|];
         exists g', w; split; [exact E|];
         destruct (board_fields _ _ Eb) as (_ & B2 & _ & _ & _ & _ & _ & _ & _ & B10);
         splits; auto; fail).
  rewrite (update_playing host dt keys g Hs).
  pose proof (prelude_fields host dt keys g) as PF. cbv zeta in PF.
  destruct PF as (P1 & P2 & P3 & P4 & P5 & P6 & P7 & P8 & P9 & P10 & P11 & P12 & P13).
  assert (Hd0 : preset (Game.difficultyIndex (prelude host dt keys g)) = Some diff)
    by (rewrite P2; exact Hd).
  destruct (triple_done _ _ w (handleCollisions_total host _ diff Hd0))
    as (g1 & w1 & E & T1 & S1 & Hc).
  unfold bind at 1. rewrite E.
  pose proof Hc as Hc'. unfold collided in Hc'. cbv zeta in Hc'.
  destruct Hc' as (C1 & C2 & C3 & C4 & C5 & C6 & _).
  unfold epilogue. cbv zeta. game_fields.
  destruct (Qle_bool (Qmax 0 (Game.timeLeft g1 - dt)) 0
            || (Game.lives g1 <=? 0)%Z) eqn:Over.
  - destruct (enterGameOver_spec
                (Game.set_timeLeft (Qmax 0 (Game.timeLeft g1 - dt)) g1) w1)
      as (g' & w' & E' & G1 & G2 & G3 & G4 & G5 & G6 & G7 & G8 & G9 & G10 & G11 & G12).
    game_fields.
    exists g', w'. split; [exact E'|].
    assert (Tl : Game.timeLeft g' = Qmax 0 (Game.timeLeft g - dt))
      by (rewrite G6; congruence).
    assert (Sc : Game.score g' = Game.score g1)
      by (apply tally_fields in G4; tauto).
    split; [congruence|]. split; [congruence|]. split; [congruence|].
    exists g1.
    split; [exact Hc|]. split; [exact Tl|].
    split; [exact G4|]. split; [exact G5|]. split; [exact G7|].
    split; [exact G8|]. split; [exact G9|].
    rewrite Tl, G5. rewrite <- P4, <- C3, Over.
    split; [exact G1|].
    rewrite Sc. rewrite <- P7, <- C4.
    destruct (Game.highScore g1 <? Game.score g1)%Z.
    + destruct G12 as (H1 & H2 & H3). rewrite T1, S1 in H3.
      splits; assumption.
    + destruct G12 as (H1 & H2 & H3). subst w'. splits; assumption.
  - exists (Game.set_timeLeft (Qmax 0 (Game.timeLeft g1 - dt)) g1), w1.
    split; [reflexivity|].
    game_fields.
    split; [congruence|]. split; [congruence|]. split; [congruence|].
    exists g1.
    split; [exact Hc|].
    split; [congruence|].
    splits; try reflexivity.
    rewrite Over.
    splits; congruence.
Qed.

(** ** Runs of frames *)

Lemma stepped_state (host : Host) (dt : Q) (keys : list string)
    (g : Game.t) (w : World) (g' : Game.t) (w' : World) :
  stepped host dt keys g w g' w' ->
  match Game.state g with
  | Playing => Game.state g' = Playing \/ Game.state g' = GameOver
  | s => Game.state g' = s
  end.
Proof.
  unfold stepped. intros (_ & _ & _ & H).
  destruct (Game.state g) eqn:Hs.
  - destruct H as (B & _). apply board_fields in B. destruct B as (B & _). congruence.
  - destruct H as (g1 & _ & _ & _ & _ & _ & _ & _ & H).
    destruct (_ || _); [right | left]; tauto.
  - destruct H as (B & _). apply board_fields in B. destruct B as (B & _). congruence.
  - destruct H as (B & _). apply board_fields in B. destruct B as (B & _). congruence.
Qed.

Lemma frames_entries (host : Host) (steps : list (Q * list string)) :
  forall (g : Game.t) (diff : Difficulty.t) (w : World),
    preset (Game.difficultyIndex g) = Some diff ->
    exists run w',
      frames host steps g w = Done (run, w')
      /\ (Game.state g <> Playing -> gameOverEntries (Game.state g) run = 0%nat)
      /\ (Game.state g = Playing ->
          gameOverEntries (Game.state g) run =
            if existsb (fun g' => isGameOver (Game.state g')) run
            then 1%nat else 0%nat).
Proof.
  induction steps as [|[dt keys] rest IH]; intros g diff w Hd; cbn [frames].
  - exists [], w. cbn. auto.
  - destruct (update_spec host dt keys g diff w Hd) as (g1 & w1 & E & St).
    assert (Hd1 : preset (Game.difficultyIndex g1) = Some diff).
    { destruct St as (D & _). rewrite D. exact Hd. }
    destruct (IH g1 diff w1 Hd1) as (run & w' & Er & Idle & Play).
    pose proof (stepped_state _ _ _ _ _ _ _ St) as Tr.
    exists (g1 :: run), w'.
    unfold bind. rewrite E, Er.
    split; [reflexivity|].
    cbn [gameOverEntries existsb].
    destruct (Game.state g) eqn:Hs.
    + rewrite Tr in *. cbn. split; [intros _; apply Idle; discriminate | discriminate].
    + split; [congruence|]. intros _.
      destruct Tr as [Tr | Tr]; rewrite Tr in *; cbn.
      * apply Play. reflexivity.
      * rewrite Idle by discriminate. reflexivity.
    + rewrite Tr in *. cbn. split; [intros _; apply Idle; discriminate | discriminate].
    + rewrite Tr in *. cbn. split; [intros _; apply Idle; discriminate | discriminate].
Qed.

Lemma Qmax0_le0 (a : Q) : Qle_bool (Qmax 0 a) 0 = true <-> Qmax 0 a == 0.
Proof.
  rewrite Qle_bool_iff. split; intro H.
  - apply Qle_antisym; [exact H | apply Q.le_max_l].
  - rewrite H. apply Qle_refl.
Qed.

(** C3.  A frame that begins in ["playing"] ends in ["game_over"] exactly
    when it leaves no time or no life, and in ["playing"] otherwise.  On
    entering ["game_over"], a score above the high score becomes the high
    score and is written to [localStorage] (when that does not throw); any
    other score leaves both alone.  A frame that begins in ["game_over"]
    stays there and touches neither.  So over any sequence of frames the
    game enters ["game_over"] at most once, and exactly once if a game
    that was playing is ever seen in ["game_over"]. *)
Theorem game_over_once (host : Host) (steps : list (Q * list string))
    (dt : Q) (keys : list string) (g : Game.t) (diff : Difficulty.t)
    (w : World) :
  preset (Game.difficultyIndex g) = Some diff ->
  (exists g' w',
      Game.update host dt keys g w = Done (g', w')
      /\ (Game.state g = Playing ->
          (Game.state g' = GameOver <->
             (Game.timeLeft g' == 0 \/ (Game.lives g' <= 0)%Z))
          /\ (Game.state g' = GameOver \/ Game.state g' = Playing)
          /\ (Game.state g' = GameOver ->
              (Game.highScore g < Game.score g')%Z ->
              Game.highScore g' = Game.score g'
              /\ Game.newHighScore g' = true
              /\ (storage_throws w = false ->
                  slot w' = Numeric (Game.score g')))
          /\ (Game.state g' = GameOver ->
              (Game.score g' <= Game.highScore g)%Z ->
              Game.highScore g' = Game.highScore g /\ slot w' = slot w)
          /\ (Game.state g' = Playing ->
              Game.highScore g' = Game.highScore g /\ slot w' = slot w))
      /\ (Game.state g = GameOver ->
          Game.state g' = GameOver
          /\ Game.highScore g' = Game.highScore g
          /\ Game.newHighScore g' = Game.newHighScore g
          /\ Game.score g' = Game.score g
          /\ w' = w))
  /\ (exists run w',
        frames host steps g w = Done (run, w')
        /\ (gameOverEntries (Game.state g) run <= 1)%nat
        /\ (Game.state g = Playing ->
            existsb (fun g' => isGameOver (Game.state g')) run = true ->
            gameOverEntries (Game.state g) run = 1%nat)).
Proof.
  intro Hd. split.
  - destruct (update_spec host dt keys g diff w Hd) as (g' & w' & E & St).
    exists g', w'. split; [exact E|].
    destruct St as (_ & _ & T & St).
    split.
    + intro Hs. rewrite Hs in St.
      destruct St as (g1 & _ & Tl & _ & _ & _ & _ & _ & Fin).
      rewrite Tl in *.
      destruct (Qle_bool (Qmax 0 (Game.timeLeft g - dt)) 0
                || (Game.lives g' <=? 0)%Z) eqn:Over.
      * destruct Fin as (S' & Hi).
        split.
        { split; [intros _ | intros _; exact S'].
          apply orb_true_iff in Over. destruct Over as [O | O].
          - left. apply Qmax0_le0. exact O.
          - right. apply Z.leb_le. exact O. }
        split; [left; exact S'|].
        split; [|split].
        { intros _ Lt. apply Z.ltb_lt in Lt. rewrite Lt in Hi.
          destruct Hi as (H1 & H2 & H3). rewrite H3.
          splits; try assumption.
          intro Ok. rewrite Ok. reflexivity. }
        { intros _ Le. apply Z.ltb_ge in Le. rewrite Le in Hi. tauto. }
        { intro Bad. congruence. }
      * destruct Fin as (S' & H1 & H2 & H3).
        apply orb_false_iff in Over. destruct Over as [O1 O2].
        split.
        { split; [congruence|].
          intros [O | O].
          - apply Qmax0_le0 in O. congruence.
          - apply Z.leb_le in O. congruence. }
        split; [right; exact S'|].
        split; [congruence|]. split; [congruence|]. auto.
    + intro Hs. rewrite Hs in St. destruct St as (B & Tt & W).
      apply board_fields in B. apply tally_fields in Tt.
      destruct B as (B1 & _ & _ & _ & _ & _ & _ & B8 & B9 & _).
      destruct Tt as (T1 & _).
      splits; try assumption. congruence.
  - destruct (frames_entries host steps g diff w Hd)
      as (run & w' & E & Idle & Play).
    exists run, w'. split; [exact E|].
    split.
    + destruct (Game.state g) eqn:Hs;
        try (rewrite Idle by discriminate; lia).
      rewrite Play by reflexivity. destruct (existsb _ run); lia.
    + intros Hs Seen. rewrite (Play Hs), Seen. reflexivity.
Qed.

Lemma game_over_once_witness :
  let host := pageWith stuckZero in
  let g := lateRun 110 50 0.04 [cheeseAt 480 300] [] in
  (exists g' w',
      Game.update host 0.05 [] g freshWorld = Done (g', w')
      /\ Game.state g' = GameOver
      /\ Game.score g' = 120%Z
      /\ Game.highScore g' = 120%Z
      /\ Game.newHighScore g' = true
      /\ slot w' = Numeric 120)
  /\ (exists run w',
        frames host [(0.02, []); (0.05, ["d"%string]); (0.05, [])] g freshWorld
          = Done (run, w')
        /\ map Game.state run = [Playing; GameOver; GameOver]
        /\ map Game.highScore run = [50; 120; 120]%Z
        /\ gameOverEntries (Game.state g) run = 1%nat
        /\ slot w' = Numeric 120).
Proof.
  cbv zeta.
  pose (seen := fun o : Outcome (Game.t * World) =>
                  match o with
                  | Done (x, _) => Some (Game.state x, Game.score x)
                  | _ => None
                  end).
  pose (seenRun := fun o : Outcome (list Game.t * World) =>
                     match o with
                     | Done (xs, v) =>
                         Some (map Game.state xs, map Game.highScore xs,
                               existsb (fun x => isGameOver (Game.state x)) xs,
                               slot v)
                     | _ => None
                     end).
  destruct (game_over_once (pageWith stuckZero)
              [(0.02, []); (0.05, ["d"%string]); (0.05, [])] 0.05 []
              (lateRun 110 50 0.04 [cheeseAt 480 300] [])
              {| Difficulty.name := "Easy"; Difficulty.lives := 5;
                 Difficulty.time := 60; Difficulty.hazards := 3;
                 Difficulty.items := 8; Difficulty.hazardSpeed := (120, 170) |}
              freshWorld eq_refl)
    as ((g' & w' & E & Play & _) & run & w2 & Er & _ & Once).
  split.
  - exists g', w'. split; [exact E|].
    pose proof (f_equal seen E) as F. vm_compute in F.
    injection F as F1 F2.
    change (GameOver = Game.state g') in F1.
    change (120%Z = Game.score g') in F2.
    destruct (Play eq_refl) as (_ & _ & Raised & _).
    destruct (Raised (eq_sym F1)) as (Hi & New & Stored);
      [rewrite <- F2; reflexivity|].
    specialize (Stored eq_refl). rewrite <- F2 in Hi, Stored.
    split; [symmetry; exact F1|]. split; [symmetry; exact F2|].
    split; [exact Hi|]. split; [exact New | exact Stored].
  - exists run, w2. split; [exact Er|].
    pose proof (f_equal seenRun Er) as F. vm_compute in F.
    injection F as F1 F2 F3 F4.
    change ([Playing; GameOver; GameOver] = map Game.state run) in F1.
    change ([50; 120; 120]%Z = map Game.highScore run) in F2.
    change (true = existsb (fun x => isGameOver (Game.state x)) run) in F3.
    change (Numeric 120 = slot w2) in F4.
    split; [symmetry; exact F1|]. split; [symmetry; exact F2|].
    split; [exact (Once eq_refl (eq_sym F3)) | symmetry; exact F4].
Defined.

(** ** The combo timer within a frame *)

Lemma Qmax0_positive (a : Q) : 0 < a -> 0 < Qmax 0 a.
Proof.
  intro H. eapply Qlt_le_trans; [exact H | apply Q.le_max_r].
Qed.

Lemma Qmax0_zero (a : Q) : a <= 0 -> Qmax 0 a == 0.
Proof. intro H. apply Q.max_l. exact H. Qed.

Lemma comboBase_prelude (host : Host) (dt : Q) (keys : list string) (g : Game.t) :
  comboBase (prelude host dt keys g) =
    if Qlt_bool 0 (Game.comboTimer g) && Qlt_bool dt (Game.comboTimer g)
    then Game.combo g else 0%Z.
Proof.
  pose proof (prelude_fields host dt keys g) as PF. cbv zeta in PF.
  destruct PF as (_ & _ & _ & _ & _ & _ & _ & _ & _ & _ & _ & P12 & P13).
  unfold comboBase. rewrite P12, P13.
  destruct (Qlt_bool 0 (Game.comboTimer g)) eqn:Active; cbn [andb].
  - destruct (Qlt_bool dt (Game.comboTimer g)) eqn:Left.
    + apply Qlt_bool_iff in Left.
      assert (Pos : 0 < Qmax 0 (Game.comboTimer g - dt))
        by (apply Qmax0_positive; lra).
      assert (B : Qlt_bool 0 (Qmax 0 (Game.comboTimer g - dt)) = true)
        by (apply Qlt_bool_iff; exact Pos).
      rewrite B.
      destruct (Qeq_bool (Qmax 0 (Game.comboTimer g - dt)) 0) eqn:Z;
        [|reflexivity].
      apply Qeq_bool_iff in Z. rewrite Z in Pos.
      exfalso. apply (Qlt_irrefl 0). exact Pos.
    + apply Qlt_bool_false in Left.
      assert (Z : Qmax 0 (Game.comboTimer g - dt) == 0)
        by (apply Qmax0_zero; lra).
      assert (B : Qlt_bool 0 (Qmax 0 (Game.comboTimer g - dt)) = false).
      { apply Qlt_bool_false. rewrite Z. apply Qle_refl. }
      rewrite B. reflexivity.
  - rewrite Active. reflexivity.
Qed.

(** C8, as the code has it.  In a frame played in ["playing"] the combo
    timer is decremented, and the combo reset when the timer runs out,
    before the player moves and before any item is collected.  So [n >= 1]
    items collected in the frame bring the combo to [combo + n] only when
    the timer at the start of the frame exceeds the time step; when it is
    not active, or is active but does not outlast the step, they start a
    new combo and bring it to [n]. *)
Theorem combo_timer_ticks_first (host : Host) (dt : Q) (keys : list string)
    (g : Game.t) (diff : Difficulty.t) (w : World) :
  Game.state g = Playing ->
  preset (Game.difficultyIndex g) = Some diff ->
  exists g' w',
    Game.update host dt keys g w = Done (g', w')
    /\ let n := overlapCount host (Player.update host keys dt (Game.player g))
                             (Game.items g) in
       ((0 < n)%Z -> 0 < Game.comboTimer g -> dt < Game.comboTimer g ->
        Game.combo g' = (Game.combo g + n)%Z)
       /\ ((0 < n)%Z -> Game.comboTimer g <= dt -> Game.combo g' = n)
       /\ ((0 < n)%Z -> Game.comboTimer g <= 0 -> Game.combo g' = n)
       /\ ((0 < n)%Z -> Game.comboTimer g' = COMBO_WINDOW)
       /\ (n = 0%Z -> 0 < Game.comboTimer g -> Game.comboTimer g <= dt ->
           Game.combo g' = 0%Z /\ Game.comboTimer g' == 0).
Proof.
  intros Hs Hd.
  destruct (update_spec host dt keys g diff w Hd) as (g' & w' & E & St).
  exists g', w'. split; [exact E|]. cbv zeta.
  destruct St as (_ & _ & _ & St). rewrite Hs in St.
  destruct St as (g1 & Hc & _ & Tt & _).
  apply tally_fields in Tt. destruct Tt as (_ & T2 & T3).
  unfold collided in Hc. cbv zeta in Hc.
  destruct Hc as (_ & _ & _ & _ & _ & _ & Z0 & Zp & _).
  pose proof (prelude_fields host dt keys g) as PF. cbv zeta in PF.
  destruct PF as (_ & _ & _ & _ & _ & P6 & _ & _ & _ & P10 & _ & P12 & P13).
  rewrite P6, P10, comboBase_prelude in *.
  rewrite T2, T3.
  set (n := overlapCount host (Player.update host keys dt (Game.player g))
                         (Game.items g)) in *.
  splits.
  - intros N A L. destruct (Zp N) as [C _]. rewrite C.
    apply Qlt_bool_iff in A. apply Qlt_bool_iff in L. rewrite A, L.
    reflexivity.
  - intros N L. destruct (Zp N) as [C _]. rewrite C.
    apply Qlt_bool_false in L. rewrite L, andb_false_r. reflexivity.
  - intros N L. destruct (Zp N) as [C _]. rewrite C.
    apply Qlt_bool_false in L. rewrite L. reflexivity.
  - intros N. destruct (Zp N) as [_ C]. exact C.
  - intros N A L. apply tally_fields in Z0; [|exact N].
    destruct Z0 as (_ & Z2 & Z3). rewrite Z2, Z3, P12, P13.
    assert (Z : Qmax 0 (Game.comboTimer g - dt) == 0)
      by (apply Qmax0_zero; lra).
    apply Qlt_bool_iff in A. rewrite A. cbn [andb].
    apply Qeq_bool_iff in Z. rewrite Z.
    split; [reflexivity | apply Qeq_bool_iff; exact Z].
Qed.

Lemma combo_timer_ticks_first_witness :
  exists g' w',
    Game.update (pageWith stuckZero) 0.02 []
                (midRun 3 0.01 0 [cheeseAt 480 300; cheeseAt 100 100] [])
                freshWorld = Done (g', w')
    /\ Game.combo g' = 1%Z.
Proof.
  destruct (combo_timer_ticks_first (pageWith stuckZero) 0.02 []
              (midRun 3 0.01 0 [cheeseAt 480 300; cheeseAt 100 100] [])
              {| Difficulty.name := "Easy"; Difficulty.lives := 5;
                 Difficulty.time := 60; Difficulty.hazards := 3;
                 Difficulty.items := 8; Difficulty.hazardSpeed := (120, 170) |}
              freshWorld eq_refl eq_refl)
    as (g' & w' & E & _ & Late & _).
  exists g', w'. split; [exact E|].
  apply Late; vm_compute; [reflexivity | discriminate].
Defined.

(** C8, as the specification words it, fails: with a combo of 3 and 0.01 s
    left on the timer, an item collected in a frame of 0.02 s starts a new
    combo at 1 and scores 10, where the specification announces a combo
    of 4. *)
Lemma combo_timer_not_last :
  ~ (forall (host : Host) (dt : Q) (keys : list string) (g g' : Game.t)
            (w w' : World),
       Game.state g = Playing ->
       0 < Game.comboTimer g ->
       Game.update host dt keys g w = Done (g', w') ->
       let n := overlapCount host (Player.update host keys dt (Game.player g))
                             (Game.items g) in
       (0 < n)%Z -> Game.combo g' = (Game.combo g + n)%Z).
Proof.
  intro claim.
  destruct (Game.update (pageWith stuckZero) 0.02 []
              (midRun 3 0.01 0 [cheeseAt 480 300; cheeseAt 100 100] [])
              freshWorld) as [[g' w']| |] eqn:E;
    try (vm_compute in E; discriminate E).
  assert (C : Game.combo g' = 1%Z).
  { vm_compute in E. injection E as Eg Ew. rewrite <- Eg. reflexivity. }
  specialize (claim (pageWith stuckZero) 0.02 []
                (midRun 3 0.01 0 [cheeseAt 480 300; cheeseAt 100 100] [])
                g' freshWorld w' eq_refl eq_refl E).
  cbv zeta in claim.
  rewrite C in claim.
  assert (N : overlapCount (pageWith stuckZero)
                (Player.update (pageWith stuckZero) [] 0.02
                   (Game.player (midRun 3 0.01 0 [cheeseAt 480 300; cheeseAt 100 100] [])))
                (Game.items (midRun 3 0.01 0 [cheeseAt 480 300; cheeseAt 100 100] []))
              = 1%Z) by (vm_compute; reflexivity).
  rewrite N in claim.
  specialize (claim eq_refl). cbn in claim. discriminate claim.
Qed.

(** ** Invulnerability *)

Lemma canTakeHit_false (p : Player.t) :
  Player.canTakeHit p = false <-> 0 < Player.hitCooldown p.
Proof. unfold Player.canTakeHit. apply Qle_bool_false. Qed.

Lemma update_spared (host : Host) (dt : Q) (keys : list string)
    (g : Game.t) (diff : Difficulty.t) (w : World) :
  preset (Game.difficultyIndex g) = Some diff ->
  exists g' w',
    Game.update host dt keys g w = Done (g', w')
    /\ Game.difficultyIndex g' = Game.difficultyIndex g
    /\ (0 < cooldownAtCheck host dt keys g -> Game.lives g' = Game.lives g).
Proof.
  intro Hd.
  destruct (update_spec host dt keys g diff w Hd) as (g' & w' & E & St).
  exists g', w'. split; [exact E|].
  destruct St as (D & _ & _ & St). split; [exact D|].
  intro Cool.
  destruct (Game.state g) eqn:Hs;
    try (destruct St as (B & _); apply board_fields in B;
         destruct B as (_ & _ & B3 & _); exact B3).
  destruct St as (g1 & Col & _ & _ & L & _).
  unfold collided in Col. cbv zeta in Col.
  destruct Col as (_ & _ & _ & _ & _ & _ & _ & _ & _ & _ & Safe).
  pose proof (prelude_fields host dt keys g) as PF. cbv zeta in PF.
  destruct PF as (_ & _ & P3 & _ & _ & _ & _ & _ & _ & P10 & _).
  destruct Safe as (S1 & _).
  { apply canTakeHit_false. rewrite P10. exact Cool. }
  rewrite L, S1, P3. reflexivity.
Qed.

Lemma frames_spared (host : Host) (steps : list (Q * list string)) :
  forall (g : Game.t) (diff : Difficulty.t) (w : World),
    preset (Game.difficultyIndex g) = Some diff ->
    exists run w',
      frames host steps g w = Done (run, w')
      /\ List.length run = List.length steps
      /\ spared host steps g run
      /\ (shielded host steps g run ->
          Forall (fun g' => Game.lives g' = Game.lives g) run).
Proof.
  induction steps as [|[dt keys] rest IH]; intros g diff w Hd; cbn [frames].
  - exists [], w. cbn. splits; auto.
  - destruct (update_spared host dt keys g diff w Hd)
      as (g1 & w1 & E & D & L).
    destruct (IH g1 diff w1) as (run & w' & Er & Len & Sp & Sh);
      [congruence|].
    exists (g1 :: run), w'. unfold bind. rewrite E, Er.
    split; [reflexivity|].
    split; [cbn [List.length]; congruence|].
    split; [cbn [spared]; split; assumption|].
    cbn [shielded]. intros [Cool Later].
    constructor; [exact (L Cool)|].
    eapply Forall_impl; [|exact (Sh Later)]. cbv beta.
    intros g2 H2. rewrite H2. exact (L Cool).
Qed.

(** C2.  [canTakeHit] is true exactly when [hitCooldown] is 0, the
    cooldown never being negative: it starts at 0, a hit sets it to
    [INVULN_TIME] = 1 and [Player.update] stops it at 0.  While it is
    positive [handleCollisions] skips the hazards: lives, player and
    hazards are untouched.  So over any sequence of frames, whatever their
    time steps and the keys held, no frame that finds the cooldown positive
    at its overlap check takes a life, and a run of frames that all find it
    positive ends with the lives it began with, whatever overlaps the
    player. *)
Theorem no_damage_while_invulnerable (host : Host)
    (steps : list (Q * list string)) (dt : Q) (keys : list string)
    (g : Game.t) (diff : Difficulty.t) (w : World) :
  preset (Game.difficultyIndex g) = Some diff ->
  0 <= Player.hitCooldown (Game.player g) ->
  let p := Game.player g in
  (Player.canTakeHit p = true <-> Player.hitCooldown p == 0)
  /\ 0 <= Player.hitCooldown (Player.update host keys dt p)
  /\ Player.hitCooldown (Player.markHit p) = INVULN_TIME
  /\ INVULN_TIME == 1
  /\ (0 < Player.hitCooldown p ->
      exists g' w',
        Game.handleCollisions host g w = Done (g', w')
        /\ Game.lives g' = Game.lives g
        /\ Game.player g' = Game.player g
        /\ Game.hazards g' = Game.hazards g)
  /\ (exists run w',
        frames host steps g w = Done (run, w')
        /\ List.length run = List.length steps
        /\ spared host steps g run
        /\ (shielded host steps g run ->
            Forall (fun g' => Game.lives g' = Game.lives g) run)).
Proof.
  intros Hd Hnn p. subst p.
  split; [|split; [|split; [|split; [|split]]]].
  - unfold Player.canTakeHit. rewrite Qle_bool_iff. split; intro H.
    + apply Qle_antisym; assumption.
    + rewrite H. apply Qle_refl.
  - rewrite Player_update_cooldown.
    destruct (Qlt_bool 0 _); [apply Q.le_max_l | exact Hnn].
  - reflexivity.
  - reflexivity.
  - intro Pos.
    destruct (triple_done _ _ w (handleCollisions_total host g diff Hd))
      as (g' & w' & E & _ & _ & Col).
    exists g', w'. split; [exact E|].
    unfold collided in Col. cbv zeta in Col.
    destruct Col as (_ & _ & _ & _ & _ & _ & _ & _ & _ & _ & Safe).
    destruct Safe as (S1 & S2 & S3); [apply canTakeHit_false; exact Pos|].
    splits; assumption.
  - exact (frames_spared host steps g diff w Hd).
Qed.

Lemma no_damage_while_invulnerable_witness :
  let host := pageWith stuckZero in
  let steps := [(0.4, []); (0.4, []); (0.4, [])] in
  let g := midRun 0 0 1 [] [catAt 480 300 10 10] in
  exists g1 g2 g3 w',
    frames host steps g freshWorld = Done ([g1; g2; g3], w')
    /\ map Game.lives [g; g1; g2; g3] = [5; 5; 5; 4]%Z
    /\ 0 < cooldownAtCheck host 0.4 [] g
    /\ 0 < cooldownAtCheck host 0.4 [] g1
    /\ Game.lives g1 = Game.lives g
    /\ Game.lives g2 = Game.lives g1.
Proof.
  cbv zeta.
  destruct (no_damage_while_invulnerable (pageWith stuckZero)
              [(0.4, []); (0.4, []); (0.4, [])] 0.4 []
              (midRun 0 0 1 [] [catAt 480 300 10 10])
              {| Difficulty.name := "Easy"; Difficulty.lives := 5;
                 Difficulty.time := 60; Difficulty.hazards := 3;
                 Difficulty.items := 8; Difficulty.hazardSpeed := (120, 170) |}
              freshWorld eq_refl)
    as (_ & _ & _ & _ & _ & run & w' & E & Len & Sp & _).
  - vm_compute. discriminate.
  - destruct run as [|g1 [|g2 [|g3 [|g4 run]]]]; try discriminate Len.
    exists g1, g2, g3, w'. split; [exact E|].
    cbn [spared] in Sp. destruct Sp as (S1 & S2 & _).
    vm_compute in E. injection E as <- <- <- <-.
    split; [reflexivity|].
    split; [reflexivity|]. split; [reflexivity|].
    split; [apply S1 | apply S2]; reflexivity.
Defined.

(** ** Starting a run *)

Lemma populate_outcome (host : Host) (fuel : nat) (diff : Difficulty.t)
    (g : Game.t) (w : World) :
  Game.hazards g = [] ->
  Game.items g = [] ->
  match bind (Game.spawnHazards host fuel (Difficulty.hazards diff)
                                (Difficulty.hazardSpeed diff) g)
             (Game.spawnItems host (Difficulty.items diff)) w with
  | Done (g', w') =>
      g' = Game.set_items (Game.items g') (Game.set_hazards (Game.hazards g') g)
      /\ populated host fuel diff (cheese (Game.assets g)) (Game.player g) w
                   (Game.hazards g') (Game.items g') w'
  | Throws => False
  | Spins => ~ velocityReturns host fuel
  end.
Proof.
  intros Hh Hi.
  unfold Game.spawnHazards, Game.spawnItems. unfold bind. rewrite Hh.
  pose proof (spawnHazardsLoop_outcome host fuel (Difficulty.hazards diff)
                (Difficulty.hazardSpeed diff) (Game.player g)
                (Difficulty.hazards diff * 25) 0 [] []
                eq_refl I (Nat.le_0_l _) w) as H.
  cbn [app] in H.
  destruct (Game.spawnHazardsLoop host fuel (Difficulty.hazards diff * 25)
              (Difficulty.hazards diff) 0 (Difficulty.hazardSpeed diff)
              (Game.player g) [] w)
    as [[[hs attempts] w1]| |] eqn:Eh; try assumption.
  destruct H as (T1 & S1 & placed & E1 & _ & E3 & E4 & E5).
  cbn [fst snd app] in *. subst placed.
  cbn [ret]. game_fields. rewrite Hi.
  pose proof (spawnItemsLoop_total host (Difficulty.items diff)
                (cheese (Game.assets g)) (Game.player g) hs
                (Difficulty.items diff * 20) 0 [] []
                eq_refl I (Nat.le_0_l _)) as H.
  cbn [app] in H.
  destruct (triple_done _ _ w1 H)
    as ([its attemptsItems] & w' & Ei & T2 & S2 & placed & F1 & _ & F3 & F4 & F5).
  cbn [fst snd app] in *. subst placed.
  rewrite Ei. cbn [ret]. game_fields.
  split.
  - reflexivity.
  - unfold populated. cbv zeta.
    exists attempts, attemptsItems, w1.
    splits; try assumption; try lia; congruence.
Qed.

Lemma startGame_outcome (host : Host) (fuel : nat) (g : Game.t)
    (diff : Difficulty.t) (w : World) :
  preset (Game.difficultyIndex g) = Some diff ->
  match Game.startGame host fuel g w with
  | Done (g', w') =>
      g' = Game.set_items (Game.items g')
             (Game.set_hazards (Game.hazards g') (cleared host diff g))
      /\ populated host fuel diff (cheese (Game.assets g))
                   (Player.recenter (Game.centre host) (Game.player g)) w
                   (Game.hazards g') (Game.items g') w'
  | Throws => False
  | Spins => ~ velocityReturns host fuel
  end.
Proof.
  intro Hd. unfold Game.startGame. rewrite Hd. cbv zeta.
  exact (populate_outcome host fuel diff (cleared host diff g) w
           eq_refl eq_refl).
Qed.

(** C4, as the code has it.  For every preset, [startGame] (which returns
    as long as the draws of hazard velocities do) puts the game in
    ["playing"] with the lives and the time of the preset, a score of 0, no
    combo and no combo timer, the player at the centre of the canvas with
    no cooldown, no particle, no floating text and no shake.  The hazards
    and the items of the new run are those the two spawners place on an
    empty board: at most the numbers the preset declares, and exactly
    these numbers when the spawner stopped before its cap on attempts. *)
Theorem start_game_presets (host : Host) (fuel : nat) (g : Game.t)
    (diff : Difficulty.t) (w : World) :
  preset (Game.difficultyIndex g) = Some diff ->
  match Game.startGame host fuel g w with
  | Done (g', w') =>
      Game.state g' = Playing
      /\ Game.lives g' = Difficulty.lives diff
      /\ Game.timeLeft g' = Difficulty.time diff
      /\ Game.score g' = 0%Z
      /\ Game.combo g' = 0%Z
      /\ Game.comboTimer g' = 0
      /\ Player.pos (Game.player g') =
           Vec2.new (canvas_width host / 2) (canvas_height host / 2)
      /\ Player.hitCooldown (Game.player g') = 0
      /\ Game.particles g' = []
      /\ Game.floaters g' = []
      /\ Game.shakeTimer g' = 0
      /\ Game.newHighScore g' = false
      /\ Game.difficultyIndex g' = Game.difficultyIndex g
      /\ (List.length (Game.hazards g') <= Difficulty.hazards diff)%nat
      /\ (List.length (Game.items g') <= Difficulty.items diff)%nat
      /\ populated host fuel diff (cheese (Game.assets g)) (Game.player g') w
                   (Game.hazards g') (Game.items g') w'
  | Throws => False
  | Spins => ~ velocityReturns host fuel
  end.
Proof.
  intro Hd.
  pose proof (startGame_outcome host fuel g diff w Hd) as H.
  destruct (Game.startGame host fuel g w) as [[g' w']| |]; try assumption.
  destruct H as [Eg Pop].
  assert (L : (List.length (Game.hazards g') <= Difficulty.hazards diff)%nat
              /\ (List.length (Game.items g') <= Difficulty.items diff)%nat).
  { unfold populated in Pop. cbv zeta in Pop.
    destruct Pop as (a & b & w1 & _ & _ & L1 & _ & L2 & _). split; assumption. }
  destruct L as [L1 L2].
  rewrite Eg. unfold cleared. cbv zeta. game_fields.
  splits; try reflexivity; try assumption.
Qed.

Lemma start_game_presets_witness :
  exists g' w',
    Game.startGame (pageWith stuckZero) 1
                   (midRun 3 0.5 0.5 [cheeseAt 480 300] []) freshWorld
      = Done (g', w')
    /\ Game.lives g' = 5%Z /\ Game.timeLeft g' = 60
    /\ (List.length (Game.hazards g') <= 3)%nat
    /\ (List.length (Game.items g') <= 8)%nat.
Proof.
  pose proof (start_game_presets (pageWith stuckZero) 1
                (midRun 3 0.5 0.5 [cheeseAt 480 300] [])
                {| Difficulty.name := "Easy"; Difficulty.lives := 5;
                   Difficulty.time := 60; Difficulty.hazards := 3;
                   Difficulty.items := 8; Difficulty.hazardSpeed := (120, 170) |}
                freshWorld eq_refl) as H.
  destruct (Game.startGame (pageWith stuckZero) 1
              (midRun 3 0.5 0.5 [cheeseAt 480 300] []) freshWorld)
    as [[g' w']| |].
  - exists g', w'. split; [reflexivity|].
    destruct H as (_ & H2 & H3 & _ & _ & _ & _ & _ & _ & _ & _ & _ & _ & H14 & H15 & _).
    splits; assumption.
  - contradiction.
  - exfalso. apply H. exact velocityReturns_stuckZero.
Defined.

(** C4, as the specification words it, fails: with [Math.random] stuck at
    one half every position drawn is too close to the player, and a run
    on [Easy] starts with no hazard and no item instead of 3 and 8. *)
Lemma start_game_may_place_fewer :
  ~ (forall (host : Host) (fuel : nat) (g g' : Game.t) (diff : Difficulty.t)
            (w w' : World),
       preset (Game.difficultyIndex g) = Some diff ->
       Game.startGame host fuel g w = Done (g', w') ->
       List.length (Game.hazards g') = Difficulty.hazards diff
       /\ List.length (Game.items g') = Difficulty.items diff).
Proof.
  intro claim.
  destruct (Game.startGame (pageWith stuckHalf) 0 (midRun 0 0 0 [] []) freshWorld)
    as [[g' w']| |] eqn:E; try (vm_compute in E; discriminate E).
  assert (N : List.length (Game.hazards g') = 0%nat).
  { vm_compute in E. injection E as Eg Ew. rewrite <- Eg. reflexivity. }
  destruct (claim (pageWith stuckHalf) 0%nat (midRun 0 0 0 [] []) g'
              {| Difficulty.name := "Easy"; Difficulty.lives := 5;
                 Difficulty.time := 60; Difficulty.hazards := 3;
                 Difficulty.items := 8; Difficulty.hazardSpeed := (120, 170) |}
              freshWorld w' eq_refl E) as [Bad _].
  rewrite N in Bad. discriminate Bad.
Qed.

(** ** Key presses and the high score *)

Lemma preset_valid (index : Z) :
  (exists diff, preset index = Some diff) <-> (0 <= index < 3)%Z.
Proof.
  unfold preset. split.
  - intros [diff H].
    destruct (index <? 0)%Z eqn:Neg; [discriminate|].
    apply Z.ltb_ge in Neg. split; [exact Neg|].
    assert (L : (Z.to_nat index < List.length DIFFICULTIES)%nat).
    { apply nth_error_Some. congruence. }
    cbn in L. lia.
  - intros [Lo Hi].
    destruct (index <? 0)%Z eqn:Neg; [apply Z.ltb_lt in Neg; lia|].
    destruct (nth_error DIFFICULTIES (Z.to_nat index)) as [d|] eqn:E;
      [eauto|].
    apply nth_error_None in E. cbn in E. lia.
Qed.

Lemma spawnHazards_outcome (host : Host) (fuel count : nat)
    (speedRange : Q * Q) (g : Game.t) :
  triple (~ velocityReturns host fuel)
         (Game.spawnHazards host fuel count speedRange g)
         (fun g' => exists hs, g' = Game.set_hazards hs g).
Proof.
  unfold Game.spawnHazards.
  pose proof (spawnHazardsLoop_outcome host fuel count speedRange
                (Game.player g) (count * 25) 0 (Game.hazards g) []
                eq_refl I (Nat.le_0_l _)) as H.
  rewrite app_nil_r in H.
  eapply triple_bind; [exact H|].
  intros [hs att] _. apply triple_ret. eauto.
Qed.

Lemma startGame_keeps (host : Host) (fuel : nat) (g : Game.t) :
  (exists diff, preset (Game.difficultyIndex g) = Some diff) ->
  triple (~ velocityReturns host fuel) (Game.startGame host fuel g)
         (keepsHighScore g).
Proof.
  intros [diff Hd]. unfold Game.startGame. rewrite Hd. cbv zeta.
  eapply triple_bind; [apply spawnHazards_outcome|].
  intros g1 [hs E1].
  eapply triple_weaken; [apply spawnItems_total | tauto |].
  intros g2 [its E2]. subst g2 g1. unfold keepsHighScore. game_fields.
  split; [reflexivity|]. split; [eauto|].
  intros _. cbn. discriminate.
Qed.

Lemma resetRun_keeps (host : Host) (fuel : nat) (g : Game.t) :
  (exists diff, preset (Game.difficultyIndex g) = Some diff) ->
  triple (~ velocityReturns host fuel)
         (Game.resetRun host fuel (Some (Game.difficultyIndex g)) g)
         (fun g' => keepsHighScore g g' /\ Game.state g' = Menu).
Proof.
  intros [diff Hd]. unfold Game.resetRun. cbv zeta. game_fields.
  rewrite Hd.
  eapply triple_bind; [apply spawnHazards_outcome|].
  intros g1 [hs E1].
  eapply triple_bind;
    [eapply triple_weaken; [apply spawnItems_total | tauto | intros ? H; exact H]|].
  intros g2 [its E2]. subst g2 g1. apply triple_ret.
  unfold keepsHighScore. game_fields.
  split; [|reflexivity].
  split; [reflexivity|]. split; [eauto|].
  intros _. cbn. discriminate.
Qed.

Lemma keepsHighScore_refl (g : Game.t) :
  (exists diff, preset (Game.difficultyIndex g) = Some diff) ->
  keepsHighScore g g.
Proof. intro H. split; [reflexivity|]. split; [exact H | auto]. Qed.

Lemma keepsHighScore_trans (g g1 g2 : Game.t) :
  keepsHighScore g g1 -> keepsHighScore g1 g2 -> keepsHighScore g g2.
Proof.
  intros (H1 & _ & C1) (H2 & V & C2).
  split; [congruence|]. split; [exact V | auto].
Qed.

Lemma onKeyDown_keeps (host : Host) (fuel : nat) (key : string) (g : Game.t) :
  (exists diff, preset (Game.difficultyIndex g) = Some diff) ->
  triple (~ velocityReturns host fuel) (Game.onKeyDown host fuel key g)
         (keepsHighScore g).
Proof.
  intro V. pose proof V as V0. apply preset_valid in V0.
  assert (Reset : forall g0, keepsHighScore g g0 ->
            triple (~ velocityReturns host fuel)
                   (Game.resetRun host fuel (Some (Game.difficultyIndex g0)) g0)
                   (keepsHighScore g)).
  { intros g0 K.
    eapply triple_weaken;
      [apply resetRun_keeps; destruct K as (_ & K2 & _); exact K2 | tauto |].
    intros g1 [K' _]. exact (keepsHighScore_trans _ _ _ K K'). }
  assert (Start : forall g0, keepsHighScore g g0 ->
            triple (~ velocityReturns host fuel)
                   (Game.startGame host fuel g0) (keepsHighScore g)).
  { intros g0 K.
    eapply triple_weaken;
      [apply startGame_keeps; destruct K as (_ & K2 & _); exact K2 | tauto |].
    intros g1 K'. exact (keepsHighScore_trans _ _ _ K K'). }
  assert (Index : forall i g0, keepsHighScore g g0 -> (0 <= i < 3)%Z ->
            keepsHighScore g (Game.set_difficultyIndex i g0)).
  { intros i g0 (K1 & _ & K3) Hi. split; [exact K1|].
    game_fields. split; [apply preset_valid; exact Hi | exact K3]. }
  pose proof (keepsHighScore_refl g V) as Refl.
  unfold Game.onKeyDown.
  destruct (key =? "q")%string; [apply Reset; exact Refl|].
  destruct ((Game.isPlaying (Game.state g) || Game.isPaused (Game.state g))
            && ((key =? "p")%string || (key =? "Escape")%string)).
  { apply triple_ret. split; [reflexivity|]. split; [exact V | auto]. }
  destruct (Game.isPlaying (Game.state g) && (key =? "r")%string);
    [apply Start; exact Refl|].
  destruct (Game.isPaused (Game.state g)).
  { eapply triple_bind with (P := keepsHighScore g).
    - destruct (key =? "r")%string; [apply Start; exact Refl|].
      apply triple_ret. exact Refl.
    - intros g1 K1.
      destruct (key =? "m")%string; [apply Reset; exact K1|].
      apply triple_ret. exact K1. }
  destruct (Game.state g).
  - cbv zeta.
    set (g1 := if (key =? "ArrowUp")%string then _ else g).
    assert (K1 : keepsHighScore g g1 /\ (0 <= Game.difficultyIndex g1 < 3)%Z).
    { subst g1. destruct (key =? "ArrowUp")%string; [|auto].
      assert (R : (0 <= Z.rem (Game.difficultyIndex g - 1 + Game.DIFFICULTIES_length)
                              Game.DIFFICULTIES_length < 3)%Z).
      { unfold Game.DIFFICULTIES_length. cbn [List.length DIFFICULTIES Z.of_nat].
        change (Z.pos (Pos.of_succ_nat 2)) with 3%Z.
        rewrite Z.rem_mod_nonneg by lia.
        apply Z.mod_pos_bound. lia. }
      split; [apply Index; assumption | game_fields; exact R]. }
    clearbody g1. destruct K1 as [K1 V1].
    set (g2 := if (key =? "ArrowDown")%string then _ else g1).
    assert (K2 : keepsHighScore g g2).
    { subst g2. destruct (key =? "ArrowDown")%string; [|exact K1].
      apply Index; [exact K1|].
      unfold Game.DIFFICULTIES_length. cbn [List.length DIFFICULTIES Z.of_nat].
      change (Z.pos (Pos.of_succ_nat 2)) with 3%Z.
      rewrite Z.rem_mod_nonneg by lia.
      apply Z.mod_pos_bound. lia. }
    clearbody g2.
    destruct ((key =? "1")%string || (key =? "2")%string || (key =? "3")%string).
    + apply Start. apply Index; [exact K2|].
      unfold clampZ, Game.DIFFICULTIES_length.
      cbn [List.length DIFFICULTIES Z.of_nat].
      change (Z.pos (Pos.of_succ_nat 2)) with 3%Z.
      destruct (key =? "1")%string; [lia|].
      destruct (key =? "2")%string; lia.
    + destruct ((key =? "Enter")%string || (key =? " ")%string);
        [apply Start; exact K2 | apply triple_ret; exact K2].
  - apply triple_ret. exact Refl.
  - apply triple_ret. exact Refl.
  - eapply triple_bind with (P := keepsHighScore g).
    + destruct ((key =? "Enter")%string || (key =? " ")%string);
        [apply Start; exact Refl | apply triple_ret; exact Refl].
    + intros g1 K1.
      destruct ((key =? "r")%string || (key =? "m")%string);
        [apply Reset; exact K1 | apply triple_ret; exact K1].
Qed.

Lemma resetRun_highScore (host : Host) (fuel : nat) (index : option Z)
    (g : Game.t) :
  (exists diff,
      preset (match index with
              | Some i => i
              | None => Game.difficultyIndex g
              end) = Some diff) ->
  triple (~ velocityReturns host fuel) (Game.resetRun host fuel index g)
         (fun g' => Game.highScore g' = Game.highScore g).
Proof.
  intros [diff Hd]. unfold Game.resetRun. cbv zeta.
  destruct index as [i|]; game_fields; rewrite Hd;
    (eapply triple_bind; [apply spawnHazards_outcome|]);
    intros g1 [hs E1];
    (eapply triple_bind;
      [eapply triple_weaken;
        [apply spawnItems_total | tauto | intros ? H; exact H]|]);
    intros g2 [its E2]; subst g2 g1; apply triple_ret; reflexivity.
Qed.

(** C10.  The high score in memory never decreases.  A frame changes it
    only by entering ["game_over"] with a score above it, and then to that
    score; a key press, the start of a run and the reset of a run leave it
    as it is; [enterGameOver] raises it to the score when the score is
    above it and leaves it alone otherwise. *)
Theorem high_score_never_decreases (host : Host) (fuel : nat) (dt : Q)
    (keys : list string) (key : string) (index : option Z) (g : Game.t)
    (diff : Difficulty.t) (w : World) :
  preset (Game.difficultyIndex g) = Some diff ->
  (exists g' w',
      Game.update host dt keys g w = Done (g', w')
      /\ (Game.highScore g <= Game.highScore g')%Z
      /\ (Game.highScore g' <> Game.highScore g ->
          Game.state g = Playing /\ Game.state g' = GameOver
          /\ (Game.highScore g < Game.score g')%Z
          /\ Game.highScore g' = Game.score g'))
  /\ match Game.onKeyDown host fuel key g w with
     | Done (g', _) => Game.highScore g' = Game.highScore g
     | Throws => False
     | Spins => ~ velocityReturns host fuel
     end
  /\ match Game.startGame host fuel g w with
     | Done (g', _) => Game.highScore g' = Game.highScore g
     | Throws => False
     | Spins => ~ velocityReturns host fuel
     end
  /\ ((exists diff',
          preset (match index with
                  | Some i => i
                  | None => Game.difficultyIndex g
                  end) = Some diff') ->
      match Game.resetRun host fuel index g w with
      | Done (g', _) => Game.highScore g' = Game.highScore g
      | Throws => False
      | Spins => ~ velocityReturns host fuel
      end)
  /\ (exists g' w',
        Game.enterGameOver g w = Done (g', w')
        /\ (Game.highScore g <= Game.highScore g')%Z
        /\ ((Game.highScore g < Game.score g)%Z ->
            Game.highScore g' = Game.score g)
        /\ ((Game.score g <= Game.highScore g)%Z ->
            Game.highScore g' = Game.highScore g)).
Proof.
  intro Hd.
  assert (V : exists d, preset (Game.difficultyIndex g) = Some d) by eauto.
  split; [|split; [|split; [|split]]].
  - destruct (update_spec host dt keys g diff w Hd) as (g' & w' & E & St).
    exists g', w'. split; [exact E|].
    destruct St as (_ & _ & _ & St).
    destruct (Game.state g) eqn:Hs;
      try (destruct St as (B & _); apply board_fields in B;
           destruct B as (_ & _ & _ & _ & _ & _ & _ & B8 & _);
           split; [lia | congruence]).
    destruct St as (g1 & _ & _ & _ & _ & _ & _ & _ & Fin).
    destruct (_ || _).
    + destruct Fin as (S' & Hi).
      destruct (Game.highScore g <? Game.score g')%Z eqn:Lt.
      * apply Z.ltb_lt in Lt. destruct Hi as (H1 & _).
        split; [lia|]. intros _. splits; auto.
      * destruct Hi as (H1 & _). split; [lia | congruence].
    + destruct Fin as (_ & H1 & _). split; [lia | congruence].
  - pose proof (onKeyDown_keeps host fuel key g V w) as H.
    destruct (Game.onKeyDown host fuel key g w) as [[g' w']| |]; try assumption.
    destruct H as (_ & _ & K & _). exact K.
  - pose proof (startGame_keeps host fuel g V w) as H.
    destruct (Game.startGame host fuel g w) as [[g' w']| |]; try assumption.
    destruct H as (_ & _ & K & _). exact K.
  - intro Vi.
    pose proof (resetRun_highScore host fuel index g Vi w) as H.
    destruct (Game.resetRun host fuel index g w) as [[g' w']| |];
      try assumption.
    destruct H as (_ & _ & K). exact K.
  - destruct (enterGameOver_spec g w)
      as (g' & w' & E & _ & _ & _ & _ & _ & _ & _ & _ & _ & _ & _ & Hi).
    exists g', w'. split; [exact E|].
    destruct (Game.highScore g <? Game.score g)%Z eqn:Lt.
    + apply Z.ltb_lt in Lt. destruct Hi as (H1 & _).
      splits; [lia | auto | lia].
    + apply Z.ltb_ge in Lt. destruct Hi as (H1 & _).
      splits; [lia | lia | auto].
Qed.

Lemma high_score_never_decreases_witness :
  let host := pageWith stuckZero in
  let above := lateRun 110 50 0.04 [cheeseAt 480 300] [] in
  let below := lateRun 110 200 0.04 [cheeseAt 480 300] [] in
  (exists g' w',
      Game.update host 0.05 [] above freshWorld = Done (g', w')
      /\ Game.state g' = GameOver
      /\ Game.score g' = 120%Z
      /\ Game.highScore above = 50%Z
      /\ Game.highScore g' = 120%Z)
  /\ (exists g' w',
        Game.update host 0.05 [] below freshWorld = Done (g', w')
        /\ Game.state g' = GameOver
        /\ Game.score g' = 120%Z
        /\ Game.highScore below = 200%Z
        /\ (200 <= Game.highScore g')%Z
        /\ Game.highScore g' = 200%Z)
  /\ (exists g' w',
        Game.enterGameOver above freshWorld = Done (g', w')
        /\ Game.highScore g' = 110%Z).
Proof.
  cbv zeta.
  pose (easy := {| Difficulty.name := "Easy"; Difficulty.lives := 5;
                   Difficulty.time := 60; Difficulty.hazards := 3;
                   Difficulty.items := 8;
                   Difficulty.hazardSpeed := (120, 170) |}).
  pose (seen := fun o : Outcome (Game.t * World) =>
                  match o with
                  | Done (x, _) =>
                      Some (Game.state x, Game.score x, Game.highScore x)
                  | _ => None
                  end).
  destruct (high_score_never_decreases (pageWith stuckZero) 1 0.05 []
              "r" None (lateRun 110 50 0.04 [cheeseAt 480 300] [])
              easy freshWorld eq_refl)
    as ((g' & w' & E & Le & Changed) & _ & _ & _ & (g2 & w2 & E2 & _ & Up & _)).
  destruct (high_score_never_decreases (pageWith stuckZero) 1 0.05 []
              "r" None (lateRun 110 200 0.04 [cheeseAt 480 300] [])
              easy freshWorld eq_refl)
    as ((g3 & w3 & E3 & Le3 & Changed3) & _).
  split; [|split].
  - exists g', w'. split; [exact E|].
    pose proof (f_equal seen E) as F. vm_compute in F.
    injection F as F1 F2 F3.
    change (GameOver = Game.state g') in F1.
    change (120%Z = Game.score g') in F2.
    change (120%Z = Game.highScore g') in F3.
    destruct Changed as (_ & Over & _ & Eq);
      [rewrite <- F3; discriminate|].
    split; [exact Over|]. split; [symmetry; exact F2|].
    split; [reflexivity|]. symmetry. exact F3.
  - exists g3, w3. split; [exact E3|].
    pose proof (f_equal seen E3) as F. vm_compute in F.
    injection F as F1 F2 F3.
    change (GameOver = Game.state g3) in F1.
    change (120%Z = Game.score g3) in F2.
    change (200%Z = Game.highScore g3) in F3.
    split; [symmetry; exact F1|]. split; [symmetry; exact F2|].
    split; [reflexivity|].
    split; [exact Le3 | symmetry; exact F3].
  - exists g2, w2. split; [exact E2|]. apply Up. reflexivity.
Defined.

(** ** What holds of every reachable game *)

Lemma loadHighScore_total (S : Prop) :
  triple S Game.loadHighScore (fun _ => True).
Proof.
  intro w. unfold Game.loadHighScore.
  destruct (storage_throws w) eqn:T; [rewrite T; splits; auto|].
  destruct (slot w) eqn:L; rewrite T, L; splits; auto.
Qed.

Lemma new_outcome (host : Host) (fuel : nat) (assets : Assets) :
  triple (~ velocityReturns host fuel) (Game.new host fuel assets)
         (fun g => Game.difficultyIndex g = 0%Z
                   /\ Player.hitCooldown (Game.player g) = 0
                   /\ Game.state g = Menu).
Proof.
  unfold Game.new.
  eapply triple_bind; [apply loadHighScore_total|].
  intros loaded _.
  change (preset 0) with (nth_error DIFFICULTIES 0).
  cbn [nth_error DIFFICULTIES].
  unfold Game.resetRun. cbv zeta. game_fields.
  change (preset 0) with (nth_error DIFFICULTIES 0).
  cbn [nth_error DIFFICULTIES].
  eapply triple_bind; [apply spawnHazards_outcome|].
  intros g1 [hs E1].
  eapply triple_bind;
    [eapply triple_weaken;
      [apply spawnItems_total | tauto | intros ? H; exact H]|].
  intros g2 [its E2]. subst g2 g1. apply triple_ret.
  game_fields. splits; reflexivity.
Qed.

(** In every game the page can reach, the difficulty index selects a
    preset and the cooldown of the player is not negative. *)
Lemma reachable_sound (host : Host) (fuel : nat) (g : Game.t) (w : World) :
  reachable host fuel g w ->
  (exists diff, preset (Game.difficultyIndex g) = Some diff)
  /\ 0 <= Player.hitCooldown (Game.player g).
Proof.
  induction 1 as [assets w g w' E
                 | dt keys g w g' w' R [[diff Hd] Hc] E
                 | key g w g' w' R [V Hc] E].
  - pose proof (new_outcome host fuel assets w) as H. rewrite E in H.
    destruct H as (_ & _ & D & C & _).
    rewrite D, C. split; [apply preset_valid; lia | apply Qle_refl].
  - destruct (update_spec host dt keys g diff w Hd) as (g2 & w2 & E2 & St).
    rewrite E in E2. injection E2 as <- <-.
    destruct St as (D & _ & _ & St).
    split; [rewrite D; eauto|].
    destruct (Game.state g) eqn:Hs;
      try (destruct St as (B & _); apply board_fields in B;
           destruct B as (_ & _ & _ & _ & B5 & _); rewrite B5; exact Hc).
    destruct St as (g1 & Col & _ & _ & _ & P & _).
    unfold collided in Col. cbv zeta in Col.
    destruct Col as (_ & _ & _ & _ & _ & _ & _ & _ & _ & Hit & _).
    pose proof (prelude_fields host dt keys g) as PF. cbv zeta in PF.
    destruct PF as (_ & _ & _ & _ & _ & _ & _ & _ & _ & P10 & _).
    rewrite P.
    destruct Hit as [[_ Same] | (_ & _ & Marked)].
    + rewrite Same, P10, Player_update_cooldown.
      destruct (Qlt_bool 0 _); [apply Q.le_max_l | exact Hc].
    + rewrite Marked. cbn. discriminate.
  - pose proof (onKeyDown_keeps host fuel key g V w) as H. rewrite E in H.
    destruct H as (_ & _ & _ & V' & C'). split; [exact V' | auto].
Qed.

(** X21.  A frame of the game changes the velocity of a hazard through
    [Hazard.update] only: the nudge that follows a hit moves the hazard
    and leaves its velocity alone. *)
Lemma update_keeps_hazard_speeds (host : Host) (dt : Q) (keys : list string)
    (g : Game.t) (diff : Difficulty.t) (w : World) :
  preset (Game.difficultyIndex g) = Some diff ->
  exists g' w',
    Game.update host dt keys g w = Done (g', w')
    /\ Forall2 (fun h h' =>
                  Vec2.len2 (Hazard.vel h') == Vec2.len2 (Hazard.vel h)
                  /\ Hazard.size h' = Hazard.size h)
               (Game.hazards g) (Game.hazards g').
Proof.
  intro Hd.
  destruct (update_spec host dt keys g diff w Hd) as (g' & w' & E & St).
  exists g', w'. split; [exact E|].
  destruct St as (_ & _ & _ & St).
  assert (Refl : forall hs : list Hazard.t,
            Forall2 (fun h h' =>
                       Vec2.len2 (Hazard.vel h') == Vec2.len2 (Hazard.vel h)
                       /\ Hazard.size h' = Hazard.size h) hs hs).
  { induction hs; constructor; auto. split; reflexivity. }
  destruct (Game.state g) eqn:Hs;
    try (destruct St as (B & _); apply board_fields in B;
         destruct B as (_ & _ & _ & _ & _ & _ & B7 & _);
         rewrite B7; apply Refl).
  destruct St as (g1 & Col & _ & _ & _ & _ & Hz & _).
  unfold collided in Col. cbv zeta in Col.
  destruct Col as (_ & _ & _ & _ & _ & _ & _ & _ & Bodies & _).
  pose proof (prelude_fields host dt keys g) as PF. cbv zeta in PF.
  destruct PF as (_ & _ & _ & _ & _ & _ & _ & _ & _ & _ & P11 & _).
  rewrite Hz. rewrite P11 in Bodies. clear - Bodies.
  remember (Game.hazards g) as hs eqn:Ehs. clear Ehs.
  revert Bodies. generalize (Game.hazards g1). 
  induction hs as [|h hs IH]; intros hs1 Bodies; cbn [map] in Bodies;
    inversion Bodies as [|? h1 ? hs1' [V S] Rest]; subst; constructor.
  - rewrite V, S.
    destruct (Hazard_update_vel host dt h) as [Ux Uy].
    split; [apply len2_of_abs; assumption | reflexivity].
  - apply IH. exact Rest.
Qed.

(** * More properties of the script *)

(** ** [clamp] and [rand] *)

(** X1.  [clamp] returns [value] itself when it lies between the bounds, a
    value between the bounds whenever [min <= max], and [min] when the
    bounds are crossed. *)
Theorem clamp_cases (value min max : Q) :
  (min <= value <= max -> clamp value min max == value)
  /\ (min <= max -> min <= clamp value min max <= max)
  /\ (max < min -> clamp value min max == min)
  /\ (min <= max -> clamp (clamp value min max) min max == clamp value min max).
Proof.
  assert (Inside : forall v, min <= v <= max -> clamp v min max == v).
  { intros v [Lo Hi]. unfold clamp.
    rewrite (Q.min_r max v Hi). apply Q.max_r. exact Lo. }
  split; [apply Inside|].
  split; [apply clamp_between|].
  split.
  - intro Crossed. unfold clamp. apply Q.max_l.
    eapply Qle_trans; [apply Q.le_min_l | apply Qlt_le_weak; exact Crossed].
  - intro Ordered. apply Inside. apply clamp_between. exact Ordered.
Qed.

Lemma clamp_cases_witness :
  clamp 700 18 942 == 700 /\ clamp 5 18 10 == 18.
Proof.
  destruct (clamp_cases 700 18 942) as (Inside & _).
  destruct (clamp_cases 5 18 10) as (_ & _ & Crossed & _).
  split.
  - apply Inside. split; vm_compute; discriminate.
  - apply Crossed. vm_compute. reflexivity.
Defined.



(** ** Entities *)

(** X3.  On a canvas that leaves room for it, a hazard is inside
    [size, WIDTH - size] x [size + 40, HEIGHT - size] after every update,
    wherever it was before and however far the step carried it. *)
Theorem hazard_stays_in_bounds (host : Host) (dt : Q) (h : Hazard.t) :
  Hazard.size h <= canvas_width host - Hazard.size h ->
  Hazard.size h + 40 <= canvas_height host - Hazard.size h ->
  let h' := Hazard.update host dt h in
  Hazard.size h <= Vec2.x (Hazard.pos h') <= canvas_width host - Hazard.size h
  /\ Hazard.size h + 40 <= Vec2.y (Hazard.pos h')
       <= canvas_height host - Hazard.size h.
Proof.
  intros Hx Hy. cbv zeta. unfold Hazard.update.
  cbn [Hazard.pos Vec2.x Vec2.y].
  set (px := Vec2.x (Hazard.pos h) + Vec2.x (Hazard.vel h) * dt).
  set (py := Vec2.y (Hazard.pos h) + Vec2.y (Hazard.vel h) * dt).
  destruct (Qlt_bool px (Hazard.size h)) eqn:X1;
  destruct (Qlt_bool (canvas_width host - Hazard.size h) px) eqn:X2;
  destruct (Qlt_bool py (Hazard.size h + 40)) eqn:Y1;
  destruct (Qlt_bool (canvas_height host - Hazard.size h) py) eqn:Y2;
  cbn [orb];
  try (split; apply clamp_between; assumption).
  apply Qlt_bool_false in X1, X2, Y1, Y2.
  split; split; assumption.
Qed.

Lemma hazard_stays_in_bounds_witness :
  let h' := Hazard.update (pageWith stuckZero) 0.05 (catAt 30 500 (-200) 150) in
  24 <= Vec2.x (Hazard.pos h') <= 960 - 24
  /\ 24 + 40 <= Vec2.y (Hazard.pos h') <= 540 - 24.
Proof.
  apply (hazard_stays_in_bounds (pageWith stuckZero) 0.05
           (catAt 30 500 (-200) 150)); vm_compute; discriminate.
Defined.

Lemma Player_update_trail (host : Host) (keys : list string) (dt : Q)
    (p : Player.t) :
  Player.trail (Player.update host keys dt p) =
    let pushed := Player.trail p ++ [Player.pos (Player.update host keys dt p)] in
    if (TRAIL_LENGTH <? List.length pushed)%nat then tl pushed else pushed.
Proof.
  unfold Player.update.
  match goal with
  | |- context [let '(_, _) := ?e in _] => destruct e
  end.
  reflexivity.
Qed.

(** X4.  The trail of the player ends with the position the update just
    computed and never holds more than [TRAIL_LENGTH] = 12 positions, once
    it holds no more than that: the oldest position is dropped. *)
Theorem player_trail_bounded (host : Host) (keys : list string) (dt : Q)
    (p : Player.t) :
  (List.length (Player.trail p) <= TRAIL_LENGTH)%nat ->
  let p' := Player.update host keys dt p in
  (List.length (Player.trail p') <= TRAIL_LENGTH)%nat
  /\ last (Player.trail p') (Player.pos p') = Player.pos p'
  /\ ((List.length (Player.trail p) < TRAIL_LENGTH)%nat ->
      Player.trail p' = Player.trail p ++ [Player.pos p'])
  /\ (List.length (Player.trail p) = TRAIL_LENGTH ->
      Player.trail p' = tl (Player.trail p) ++ [Player.pos p']).
Proof.
  intro Len. cbv zeta. rewrite Player_update_trail. cbv zeta.
  set (q := Player.pos (Player.update host keys dt p)).
  rewrite length_app. cbn [List.length].
  destruct (TRAIL_LENGTH <? List.length (Player.trail p) + 1)%nat eqn:Full.
  - apply Nat.ltb_lt in Full.
    destruct (Player.trail p) as [|t0 rest] eqn:Et; cbn [List.length] in *.
    + unfold TRAIL_LENGTH in Full. lia.
    + cbn [app tl]. rewrite length_app. cbn [List.length].
      splits; try lia.
      * apply last_last.
      * intro Eq. reflexivity.
  - apply Nat.ltb_ge in Full.
    splits; try lia.
    + rewrite length_app. cbn [List.length]. lia.
    + apply last_last.
    + intros _. reflexivity.
Qed.

Lemma player_trail_bounded_witness :
  let host := pageWith stuckZero in
  let p := runner host 12 in
  let p' := Player.update host ["d"%string] 0.05 p in
  List.length (Player.trail p) = 12%nat
  /\ List.length (Player.trail p') = 12%nat
  /\ Vec2.x (hd (Player.pos p) (Player.trail p)) == 494
  /\ Vec2.x (hd (Player.pos p) (Player.trail p')) == 508
  /\ Player.trail p' = tl (Player.trail p) ++ [Player.pos p']
  /\ last (Player.trail p') (Player.pos p) = Player.pos p'.
Proof.
  cbv zeta.
  destruct (player_trail_bounded (pageWith stuckZero) ["d"%string] 0.05
              (runner (pageWith stuckZero) 12))
    as (Len & Last & _ & Full).
  - vm_compute. repeat constructor.
  - specialize (Full eq_refl).
    split; [reflexivity|].
    split; [rewrite Full; reflexivity|].
    split; [vm_compute; reflexivity|].
    split; [rewrite Full; vm_compute; reflexivity|].
    split; [exact Full|].
    rewrite Full. apply last_last.
Defined.

(** X5.  A player that holds no direction, or opposite directions on both
    axes, does not move: a position inside the bounds is kept, and so is
    the facing [lastMove]. *)
Theorem player_rests_without_direction (host : Host) (keys : list string)
    (dt : Q) (p : Player.t) :
  (has "ArrowLeft" keys || has "a" keys)
    = (has "ArrowRight" keys || has "d" keys) ->
  (has "ArrowUp" keys || has "w" keys)
    = (has "ArrowDown" keys || has "s" keys) ->
  Player.radius p <= Vec2.x (Player.pos p)
    <= canvas_width host - Player.radius p ->
  Player.radius p + 40 <= Vec2.y (Player.pos p)
    <= canvas_height host - Player.radius p ->
  let p' := Player.update host keys dt p in
  Vec2.x (Player.pos p') == Vec2.x (Player.pos p)
  /\ Vec2.y (Player.pos p') == Vec2.y (Player.pos p)
  /\ Player.lastMove p' = Player.lastMove p.
Proof.
  intros Hx Hy Bx By. cbv zeta. unfold Player.update.
  rewrite Hx, Hy.
  match goal with
  | |- context [let '(_, _) := ?e in _] => destruct e
  end.
  cbn [Player.pos Player.lastMove Vec2.x Vec2.y].
  assert (In : forall v lo hi k, lo <= v <= hi -> k == 0 ->
                 clamp (v + k * PLAYER_SPEED * dt) lo hi == v).
  { intros v lo hi k B K.
    assert (E : v + k * PLAYER_SPEED * dt == v) by (rewrite K; ring).
    unfold clamp. rewrite E.
    destruct (clamp_cases v lo hi) as (Inside & _). apply Inside. exact B. }
  destruct (has "ArrowRight" keys || has "d" keys);
    destruct (has "ArrowDown" keys || has "s" keys);
    cbn [Vec2.len2 Vec2.x Vec2.y];
    match goal with
    | |- context [Qlt_bool 0 ?e] =>
        change (Qlt_bool 0 e) with false
    end;
    cbv iota; cbn [Vec2.x Vec2.y];
    (split; [apply In; [assumption | reflexivity]|]);
    (split; [apply In; [assumption | reflexivity] | reflexivity]).
Qed.

Lemma player_rests_without_direction_witness :
  let p := Game.player (midRun 0 0 0 [] []) in
  let p' := Player.update (pageWith stuckZero)
                          ["a"; "ArrowRight"]%string 0.05 p in
  Vec2.x (Player.pos p') == Vec2.x (Player.pos p)
  /\ Vec2.y (Player.pos p') == Vec2.y (Player.pos p)
  /\ Player.lastMove p' = Player.lastMove p.
Proof.
  apply (player_rests_without_direction (pageWith stuckZero)
           ["a"; "ArrowRight"]%string 0.05 (Game.player (midRun 0 0 0 [] [])));
    try reflexivity; split; vm_compute; discriminate.
Defined.

(** X6.  With a time step that is not negative, [Player.update] never
    raises the cooldown; it leaves [hitCooldown - dt] of a cooldown longer
    than the step, and the player can take a hit again after any step at
    least as long as the cooldown that was left. *)
Theorem player_cooldown_runs_out (host : Host) (keys : list string) (dt : Q)
    (p : Player.t) :
  0 <= dt ->
  0 <= Player.hitCooldown p ->
  let p' := Player.update host keys dt p in
  Player.hitCooldown p' <= Player.hitCooldown p
  /\ (dt < Player.hitCooldown p ->
      Player.hitCooldown p' == Player.hitCooldown p - dt
      /\ Player.canTakeHit p' = false)
  /\ (Player.hitCooldown p <= dt -> Player.canTakeHit p' = true).
Proof.
  intros Hdt Hc. cbv zeta. unfold Player.canTakeHit.
  rewrite Player_update_cooldown.
  destruct (Qlt_bool 0 (Player.hitCooldown p)) eqn:Active.
  - apply Qlt_bool_iff in Active.
    split; [apply Q.max_lub; lra|].
    split.
    + intro Long.
      assert (E : Qmax 0 (Player.hitCooldown p - dt) == Player.hitCooldown p - dt)
        by (apply Q.max_r; lra).
      split; [exact E|]. apply Qle_bool_false. rewrite E. lra.
    + intro Short. apply Qle_bool_iff.
      rewrite Qmax0_zero by lra. apply Qle_refl.
  - apply Qlt_bool_false in Active.
    split; [apply Qle_refl|].
    split; [intro; lra|].
    intro. apply Qle_bool_iff. exact Active.
Qed.

Lemma player_cooldown_runs_out_witness :
  Player.canTakeHit
    (Player.update (pageWith stuckZero) [] 0.05
       (Game.player (midRun 0 0 0.03 [] []))) = true.
Proof.
  destruct (player_cooldown_runs_out (pageWith stuckZero) [] 0.05
              (Game.player (midRun 0 0 0.03 [] []))) as (_ & _ & Out).
  - vm_compute. discriminate.
  - vm_compute. discriminate.
  - apply Out. vm_compute. discriminate.
Defined.

(** ** Effects *)

Lemma Qlt_bool_shift (a b : Q) : Qlt_bool 0 (a - b) = Qlt_bool b a.
Proof.
  destruct (Qlt_bool b a) eqn:E.
  - apply Qlt_bool_iff. apply Qlt_bool_iff in E. lra.
  - apply Qlt_bool_false. apply Qlt_bool_false in E. lra.
Qed.

Lemma filter_after_map {A : Type} (f : A -> A) (alive outlives : A -> bool)
    (l : list A) :
  (forall a, alive (f a) = outlives a) ->
  filter alive (map f l) = map f (filter outlives l).
Proof.
  intro H. induction l as [|a l IH]; [reflexivity|].
  cbn [map filter]. rewrite H, IH. destruct (outlives a); reflexivity.
Qed.

(** X7.  [updateEffects] keeps exactly the particles and the floating
    texts whose life is longer than the step, in their order, each moved
    and aged by the step; so what is left has life left, their numbers
    never grow, and none is left when no effect outlives the step.  The
    two lists are all that [updateEffects] changes of the game. *)
Theorem effects_expire (dt : Q) (g : Game.t) :
  let g' := Game.updateEffects dt g in
  Game.particles g' =
    map (Particle.update dt)
        (filter (fun p => Qlt_bool dt (Particle.life p)) (Game.particles g))
  /\ Game.floaters g' =
       map (FloatingText.update dt)
           (filter (fun ft => Qlt_bool dt (FloatingText.life ft))
                   (Game.floaters g))
  /\ Forall (fun p => 0 < Particle.life p) (Game.particles g')
  /\ Forall (fun ft => 0 < FloatingText.life ft) (Game.floaters g')
  /\ (List.length (Game.particles g') <= List.length (Game.particles g))%nat
  /\ (List.length (Game.floaters g') <= List.length (Game.floaters g))%nat
  /\ (Forall (fun p => Particle.life p <= dt) (Game.particles g) ->
      Game.particles g' = [])
  /\ (Forall (fun ft => FloatingText.life ft <= dt) (Game.floaters g) ->
      Game.floaters g' = [])
  /\ g' = Game.set_floaters (Game.floaters g')
            (Game.set_particles (Game.particles g') g)
  /\ board g' = board g /\ tally g' = tally g.
Proof.
  cbv zeta. unfold Game.updateEffects. cbv zeta. game_fields.
  splits; try reflexivity.
  - apply filter_after_map. intro p. cbn [Particle.update Particle.life].
    apply Qlt_bool_shift.
  - apply filter_after_map. intro ft.
    cbn [FloatingText.update FloatingText.life]. apply Qlt_bool_shift.
  - apply Forall_forall. intros p In. apply filter_In in In.
    destruct In as [_ Alive]. apply Qlt_bool_iff. exact Alive.
  - apply Forall_forall. intros ft In. apply filter_In in In.
    destruct In as [_ Alive]. apply Qlt_bool_iff. exact Alive.
  - eapply Nat.le_trans; [apply filter_length_le | rewrite length_map; lia].
  - eapply Nat.le_trans; [apply filter_length_le | rewrite length_map; lia].
  - intro Old. induction Old as [|p ps Hp _ IH]; [reflexivity|].
    cbn [map filter Particle.update Particle.life].
    assert (Dead : Qlt_bool 0 (Particle.life p - dt) = false)
      by (apply Qlt_bool_false; lra).
    rewrite Dead. exact IH.
  - intro Old. induction Old as [|ft fs Hf _ IH]; [reflexivity|].
    cbn [map filter FloatingText.update FloatingText.life].
    assert (Dead : Qlt_bool 0 (FloatingText.life ft - dt) = false)
      by (apply Qlt_bool_false; lra).
    rewrite Dead. exact IH.
Qed.

(** X8.  [cameraOffset] is (0, 0), and draws no random value, when the
    shake timer has run out.  While it runs, for at most the 0.25 s a hit
    sets, the offset stays within [shakeStrength] on both axes for random
    values in [0, 1). *)
Theorem camera_offset_bounded (host : Host) (g : Game.t) (w : World) :
  0 <= Game.shakeStrength g ->
  Game.shakeTimer g <= 0.25 ->
  0 <= dice host (drawn w) < 1 ->
  0 <= dice host (S (drawn w)) < 1 ->
  exists offset w',
    Game.cameraOffset host g w = Done (offset, w')
    /\ Qabs (Vec2.x offset) <= Game.shakeStrength g
    /\ Qabs (Vec2.y offset) <= Game.shakeStrength g
    /\ (Game.shakeTimer g <= 0 ->
        offset = Vec2.new 0 0 /\ w' = w).
Proof.
  intros Hs Ht [D1 D1'] [D2 D2']. unfold Game.cameraOffset.
  destruct (Qle_bool (Game.shakeTimer g) 0) eqn:Still.
  - exists (Vec2.new 0 0), w. split; [reflexivity|].
    cbn [Vec2.x Vec2.y].
    splits; try exact Hs; auto.
  - apply Qle_bool_false in Still.
    eexists; eexists. split; [reflexivity|].
    cbn [Vec2.x Vec2.y drawn].
    set (d1 := dice host (drawn w)) in *.
    set (d2 := dice host (S (drawn w))) in *.
    set (s := Game.shakeStrength g) in *.
    set (t := Game.shakeTimer g) in *.
    assert (P : t / 0.25 == t * 4) by (field).
    assert (A : 0 <= s * (t * 4) <= s).
    { split; [apply Qmult_le_0_compat; lra|].
      assert (0 <= s * (1 - t * 4)) by (apply Qmult_le_0_compat; lra).
      lra. }
    assert (Bound : forall d, 0 <= d < 1 ->
              Qabs ((-1 + d * (1 - -1)) * s * (t / 0.25)) <= s).
    { intros d [Lo Hi]. rewrite P. apply Qabs_Qle_condition.
      assert (E : (-1 + d * (1 - -1)) * s * (t * 4)
                  == (2 * d - 1) * (s * (t * 4))) by ring.
      rewrite E.
      assert (0 <= d * (s * (t * 4))) by (apply Qmult_le_0_compat; lra).
      assert (0 <= (1 - d) * (s * (t * 4))) by (apply Qmult_le_0_compat; lra).
      split; lra. }
    splits.
    + apply Bound. split; assumption.
    + apply Bound. split; assumption.
    + intro. lra.
Qed.

Lemma camera_offset_bounded_witness :
  exists offset w',
    Game.cameraOffset (pageWith stuckHalf)
      (Game.set_shakeTimer 0.25 (midRun 0 0 0 [] [])) freshWorld
      = Done (offset, w')
    /\ Qabs (Vec2.x offset) <= 10.
Proof.
  destruct (camera_offset_bounded (pageWith stuckHalf)
              (Game.set_shakeTimer 0.25 (midRun 0 0 0 [] [])) freshWorld)
    as (offset & w' & E & Bx & _);
    try (vm_compute; discriminate);
    try (split; vm_compute; [discriminate | reflexivity]).
  exists offset, w'. split; [exact E | exact Bx].
Defined.

(** ** Collisions in detail *)

Lemma triple_both {A} (S : Prop) (c : M A) (P Q : A -> Prop) :
  triple S c P -> triple S c Q -> triple S c (fun a => P a /\ Q a).
Proof.
  intros HP HQ w. specialize (HP w). specialize (HQ w).
  destruct (c w) as [[a w']| |]; try assumption.
  tauto.
Qed.

Lemma comboBase_after_collect (g1 : Game.t) :
  Game.comboTimer g1 = COMBO_WINDOW -> comboBase g1 = Game.combo g1.
Proof. intro E. unfold comboBase. rewrite E. reflexivity. Qed.

Lemma collectLoop_score (host : Host) (its : list Item.t) :
  forall (collected : list Item.t) (g : Game.t),
    triple False (Game.collectLoop host its collected g)
      (fun r =>
         Game.score (snd r) =
           (Game.score g
            + comboSum (comboBase g)
                (List.length (filter (Game.overlapsItem host (Game.player g)) its)))%Z).
Proof.
  induction its as [|it rest IH]; intros collected g; cbn [Game.collectLoop].
  - apply triple_ret. cbn. lia.
  - cbn [filter].
    destruct (Game.overlapsItem host (Game.player g) it) eqn:Hit.
    + eapply triple_bind; [apply collectItem_total|].
      intros g1 (Hb & Hc & Ht & Hs).
      eapply triple_weaken; [apply IH | tauto |].
      intros [col g2]. cbn [fst snd].
      destruct (board_fields _ _ Hb) as (_ & _ & _ & _ & Hp & _).
      rewrite Hp, Hs. intro E. rewrite E.
      cbn [List.length comboSum].
      rewrite (comboBase_after_collect g1 Ht), Hc.
      assert (N : nextCombo g = (comboBase g + 1)%Z).
      { unfold nextCombo, comboBase. destruct (Qlt_bool _ _); lia. }
      rewrite N. lia.
    + apply IH.
Qed.

Lemma filter_none_keeps_all {A} (f : A -> bool) (l : list A) :
  filter f l = [] -> filter (fun a => negb (f a)) l = l.
Proof.
  induction l as [|a l IH]; cbn; [reflexivity|].
  destruct (f a); cbn; [discriminate|].
  intro E. rewrite (IH E). reflexivity.
Qed.

Lemma spawnItems_detail (host : Host) (count : nat) (g : Game.t) :
  Game.items g = [] ->
  triple False (Game.spawnItems host count g)
    (fun g' =>
       exists its,
         g' = Game.set_items its g
         /\ (List.length its <= count)%nat
         /\ itemsClear host
              (match cheese (Game.assets g) with
               | Some width => width / 2
               | None => 10
               end)
              (Game.player g) (Game.hazards g) [] its).
Proof.
  intro Empty. unfold Game.spawnItems. rewrite Empty.
  pose proof (spawnItemsLoop_total host count (cheese (Game.assets g))
                (Game.player g) (Game.hazards g) (count * 20) 0
                [] [] eq_refl I (Nat.le_0_l _)) as H.
  cbn [app] in H.
  eapply triple_bind; [exact H|].
  intros [its att] (placed & E1 & E2 & _ & E4 & _).
  cbn [fst snd app] in *. subst placed.
  apply triple_ret. exists its. splits; auto.
Qed.

Lemma spawnHitEffect_shape (host : Host) (pos : Vec2.t) (g : Game.t) :
  triple False (Game.spawnHitEffect host pos g)
         (fun g' => exists ps,
                      g' = Game.set_shakeTimer 0.25 (Game.set_particles ps g)).
Proof.
  unfold Game.spawnHitEffect.
  eapply triple_bind; [apply burst_total|]. intros ps _.
  apply triple_ret. eauto.
Qed.

(** What [handleCollisions] does to the score, the items and the lives. *)
Lemma handleCollisions_detail (host : Host) (g : Game.t) (diff : Difficulty.t) :
  preset (Game.difficultyIndex g) = Some diff ->
  triple False (Game.handleCollisions host g)
    (fun g' =>
       let p := Game.player g in
       let taken := filter (Game.overlapsItem host p) (Game.items g) in
       let kept := filter (fun it => negb (Game.overlapsItem host p it))
                          (Game.items g) in
       let hit := Player.canTakeHit p
                  && existsb (Game.overlapsHazard host p) (Game.hazards g) in
       Game.score g' =
         (Game.score g + comboSum (comboBase g) (List.length taken))%Z
       /\ (kept <> [] -> Game.items g' = kept)
       /\ (kept = [] ->
           (List.length (Game.items g') <= Difficulty.items diff)%nat
           /\ itemsClear host
                (match cheese (Game.assets g) with
                 | Some width => width / 2
                 | None => 10
                 end)
                p (Game.hazards g) [] (Game.items g'))
       /\ Game.lives g' = (if hit then Game.lives g - 1 else Game.lives g)%Z
       /\ Game.player g' = (if hit then Player.markHit p else p)
       /\ (hit = false -> Game.hazards g' = Game.hazards g)
       /\ (hit = true -> Game.shakeTimer g' = 0.25)).
Proof.
  intro Hd. unfold Game.handleCollisions.
  eapply triple_bind;
    [apply triple_both; [apply collectLoop_total | apply collectLoop_score]|].
  intros [col g1]. cbn [fst snd]. cbv zeta.
  intros ((B & C & _) & Sc).
  destruct (board_fields _ _ B)
    as (B1 & B2 & B3 & B4 & B5 & B6 & B7 & B8 & B9 & B10).
  cbn [app] in C.
  set (p := Game.player g) in *.
  set (kept := filter (fun it => negb (Game.overlapsItem host p it))
                      (Game.items g)).
  set (g2 := match col with
             | [] => g1
             | _ :: _ =>
                 Game.set_items
                   (filter (fun it => negb (Game.overlapsItem host (Game.player g1) it))
                           (Game.items g1)) g1
             end).
  assert (K2 : g2 = Game.set_items kept g1).
  { subst g2 kept. rewrite B5, B6. destruct col as [|c col'].
    - symmetry in C. rewrite (filter_none_keeps_all _ _ C).
      rewrite <- B6. destruct g1; reflexivity.
    - reflexivity. }
  clearbody g2. subst g2.
  eapply triple_bind with
    (P := fun g3 =>
            exists its,
              g3 = Game.set_items its g1
              /\ (kept <> [] -> its = kept)
              /\ (kept = [] ->
                  (List.length its <= Difficulty.items diff)%nat
                  /\ itemsClear host
                       (match cheese (Game.assets g) with
                        | Some width => width / 2
                        | None => 10
                        end)
                       p (Game.hazards g) [] its)).
  { game_fields. destruct kept as [|k kept'] eqn:Ek.
    - rewrite B2, Hd.
      eapply triple_weaken;
        [apply spawnItems_detail; reflexivity | tauto |].
      intros g3 (its & E & L & Cl). game_fields.
      rewrite B10, B5, B7 in Cl. fold p in Cl.
      exists its. split; [rewrite E; reflexivity|].
      split; [congruence | auto].
    - apply triple_ret. exists (k :: kept').
      split; [reflexivity|]. split; [auto | discriminate]. }
  intros g3 (its3 & E3 & Keep & Fresh). subst g3. game_fields.
  rewrite B5. fold p. rewrite B7.
  destruct (Player.canTakeHit p) eqn:Can; cbn [negb andb].
  - eapply triple_bind; [apply firstHit_total|].
    intros [hit hs] (_ & Same & X). cbn [fst snd] in *.
    rewrite <- X.
    destruct hit.
    + eapply triple_weaken; [apply spawnHitEffect_shape | tauto |].
      intros g4 [ps E4]. subst g4. game_fields.
      splits; try assumption; try congruence; try reflexivity.
    + apply triple_ret. game_fields.
      splits; try assumption; try congruence; try discriminate;
        try (intros _; rewrite Same by reflexivity; reflexivity).
  - apply triple_ret. game_fields.
    splits; try assumption; try congruence; try discriminate.
Qed.

Lemma comboPoints_bounds (combo : Z) :
  (1 <= combo)%Z -> (10 <= comboPoints combo <= 24)%Z.
Proof.
  intro H. unfold comboPoints, COMBO_BONUS_CAP, COMBO_BONUS_STEP. lia.
Qed.

Lemma comboSum_bounds (n : nat) :
  forall base : Z,
    (0 <= base)%Z ->
    (10 * Z.of_nat n <= comboSum base n <= 24 * Z.of_nat n)%Z.
Proof.
  induction n as [|n IH]; intros base Hb; cbn [comboSum].
  - cbn. lia.
  - pose proof (comboPoints_bounds (base + 1) ltac:(lia)) as P.
    specialize (IH (base + 1)%Z ltac:(lia)). lia.
Qed.

Lemma comboBase_nonneg (g : Game.t) :
  (0 <= Game.combo g)%Z -> (0 <= comboBase g)%Z.
Proof. intro H. unfold comboBase. destruct (Qlt_bool _ _); lia. Qed.



(** X10.  [handleCollisions] takes a life exactly when the player can take
    a hit and some hazard overlaps it, and then exactly one, however many
    hazards overlap: the player is marked hit for [INVULN_TIME] and the
    camera shakes for 0.25 s.  Otherwise lives, player and hazards are as
    they were.  In both cases every hazard keeps its velocity and its
    size, and none is added or removed. *)
Theorem one_hit_per_frame (host : Host) (g : Game.t) (diff : Difficulty.t)
    (w : World) :
  preset (Game.difficultyIndex g) = Some diff ->
  exists g' w',
    Game.handleCollisions host g w = Done (g', w')
    /\ let p := Game.player g in
       let hit := Player.canTakeHit p
                  && existsb (Game.overlapsHazard host p) (Game.hazards g) in
       (hit = true ->
        Game.lives g' = (Game.lives g - 1)%Z
        /\ Player.hitCooldown (Game.player g') = INVULN_TIME
        /\ Player.pos (Game.player g') = Player.pos p
        /\ Game.shakeTimer g' = 0.25)
       /\ (hit = false ->
           Game.lives g' = Game.lives g
           /\ Game.player g' = p
           /\ Game.hazards g' = Game.hazards g)
       /\ Forall2 sameBody (Game.hazards g) (Game.hazards g')
       /\ List.length (Game.hazards g') = List.length (Game.hazards g).
Proof.
  intro Hd.
  destruct (triple_done _ _ w
              (triple_both _ _ _ _ (handleCollisions_detail host g diff Hd)
                           (handleCollisions_total host g diff Hd)))
    as (g' & w' & E & _ & _ & D & Col).
  exists g', w'. split; [exact E|]. cbv zeta in *.
  destruct D as (_ & _ & _ & L & P & Hz & Sh).
  unfold collided in Col. cbv zeta in Col.
  destruct Col as (_ & _ & _ & _ & _ & _ & _ & _ & Bodies & _).
  destruct (Player.canTakeHit (Game.player g)
            && existsb (Game.overlapsHazard host (Game.player g))
                       (Game.hazards g)).
  - split; [intros _; rewrite P, (Sh eq_refl); splits; auto|].
    split; [discriminate|].
    split; [exact Bodies|].
    symmetry. eapply Forall2_length. exact Bodies.
  - split; [discriminate|].
    split; [intros _; splits; auto|].
    split; [exact Bodies|].
    symmetry. eapply Forall2_length. exact Bodies.
Qed.

Lemma one_hit_per_frame_witness :
  exists g' w',
    Game.handleCollisions (pageWith stuckZero)
      (midRun 0 0 0 [cheeseAt 100 100]
              [catAt 480 310 10 10; catAt 485 300 (-10) 5])
      freshWorld = Done (g', w')
    /\ Game.lives g' = 4%Z.
Proof.
  destruct (one_hit_per_frame (pageWith stuckZero)
              (midRun 0 0 0 [cheeseAt 100 100]
                      [catAt 480 310 10 10; catAt 485 300 (-10) 5])
              {| Difficulty.name := "Easy"; Difficulty.lives := 5;
                 Difficulty.time := 60; Difficulty.hazards := 3;
                 Difficulty.items := 8; Difficulty.hazardSpeed := (120, 170) |}
              freshWorld eq_refl)
    as (g' & w' & E & Hit & _).
  exists g', w'. split; [exact E|].
  destruct Hit as (L & _); [vm_compute; reflexivity | exact L].
Defined.

(** ** Frames *)



Lemma update_time (host : Host) (dt : Q) (keys : list string) (g : Game.t)
    (diff : Difficulty.t) (w : World) :
  preset (Game.difficultyIndex g) = Some diff ->
  exists g' w',
    Game.update host dt keys g w = Done (g', w')
    /\ Game.difficultyIndex g' = Game.difficultyIndex g
    /\ (Game.state g = Playing ->
        Game.timeLeft g' = Qmax 0 (Game.timeLeft g - dt)
        /\ (Game.timeLeft g' == 0 -> Game.state g' = GameOver))
    /\ (Game.state g <> Playing ->
        Game.state g' = Game.state g /\ Game.timeLeft g' = Game.timeLeft g).
Proof.
  intro Hd.
  destruct (update_spec host dt keys g diff w Hd) as (g' & w' & E & St).
  exists g', w'. split; [exact E|].
  destruct St as (D & _ & _ & St). split; [exact D|].
  destruct (Game.state g) eqn:Hs;
    try (split; [discriminate|]; intros _;
         destruct St as (B & _); apply board_fields in B;
         destruct B as (B1 & _ & _ & B4 & _); split; congruence).
  split; [|intro Bad; exfalso; apply Bad; reflexivity]. intros _.
  destruct St as (g1 & _ & Tl & _ & _ & _ & _ & _ & Fin).
  split; [exact Tl|]. intro Zero.
  destruct (Qle_bool (Game.timeLeft g') 0 || (Game.lives g' <=? 0)%Z) eqn:Over;
    [tauto|].
  apply orb_false_iff in Over. destruct Over as [O _].
  apply Qle_bool_false in O. rewrite Zero in O.
  exfalso. exact (Qlt_irrefl 0 O).
Qed.

Lemma frames_over (host : Host) (steps : list (Q * list string)) :
  forall (g : Game.t) (diff : Difficulty.t) (w : World),
    preset (Game.difficultyIndex g) = Some diff ->
    Game.state g = GameOver ->
    exists run w',
      frames host steps g w = Done (run, w')
      /\ List.length run = List.length steps
      /\ Forall (fun g' => Game.state g' = GameOver
                           /\ Game.timeLeft g' = Game.timeLeft g) run.
Proof.
  induction steps as [|[dt keys] rest IH]; intros g diff w Hd Hs; cbn [frames].
  - exists [], w. splits; [reflexivity | reflexivity | constructor].
  - destruct (update_time host dt keys g diff w Hd)
      as (g1 & w1 & E & D & _ & Idle).
    destruct Idle as [S1 T1]; [congruence|].
    destruct (IH g1 diff w1) as (run & w' & Er & Len & F); [congruence.. |].
    exists (g1 :: run), w'. unfold bind. rewrite E, Er.
    split; [reflexivity|]. split; [cbn [List.length]; congruence|].
    constructor; [split; congruence|].
    eapply Forall_impl; [|exact F]. cbv beta. intros g2 [A B].
    split; congruence.
Qed.

Lemma frames_clock_down (host : Host) (steps : list (Q * list string)) :
  forall (g : Game.t) (diff : Difficulty.t) (w : World),
    preset (Game.difficultyIndex g) = Some diff ->
    0 <= Game.timeLeft g ->
    Forall (fun step => 0 <= fst step) steps ->
    exists run w',
      frames host steps g w = Done (run, w')
      /\ Forall (fun g' => 0 <= Game.timeLeft g' <= Game.timeLeft g) run
      /\ StronglySorted (fun a b => Game.timeLeft b <= Game.timeLeft a) run.
Proof.
  induction steps as [|[dt keys] rest IH]; intros g diff w Hd Ht Hpos;
    cbn [frames].
  - exists [], w. splits; [reflexivity | constructor | constructor].
  - inversion Hpos as [|? ? Hdt Hrest]; subst. cbn [fst] in Hdt.
    destruct (update_time host dt keys g diff w Hd)
      as (g1 & w1 & E & D & Play & Idle).
    assert (T1 : 0 <= Game.timeLeft g1 <= Game.timeLeft g).
    { destruct (Game.state g) eqn:Hs;
        try (destruct Idle as [_ T]; [discriminate|]; rewrite T;
             split; [exact Ht | apply Qle_refl]).
      destruct (Play eq_refl) as [T _]. rewrite T.
      split; [apply Q.le_max_l | apply Q.max_lub; lra]. }
    destruct (IH g1 diff w1) as (run & w' & Er & F & Sorted);
      [congruence | tauto | exact Hrest |].
    exists (g1 :: run), w'. unfold bind. rewrite E, Er.
    split; [reflexivity|].
    split.
    + constructor; [exact T1|].
      eapply Forall_impl; [|exact F]. cbv beta. intros g2 [A B].
      split; [exact A | lra].
    + constructor; [exact Sorted|].
      eapply Forall_impl; [|exact F]. cbv beta. tauto.
Qed.

(** X12.  The clock of a run only runs down, and the run ends with it.
    Over frames whose time steps are not negative the time left never
    grows and never falls below 0.  And a frame whose time step is at
    least the time that was left ends the run, whatever else happens in
    it: the game is in ["game_over"] with no time left after that frame
    and after every later one. *)
Theorem run_ends_with_the_clock (host : Host) (steps : list (Q * list string))
    (dt : Q) (keys : list string) (g : Game.t) (diff : Difficulty.t)
    (w : World) :
  preset (Game.difficultyIndex g) = Some diff ->
  (Game.state g = Playing ->
   Game.timeLeft g <= dt ->
   exists run w',
     frames host ((dt, keys) :: steps) g w = Done (run, w')
     /\ List.length run = S (List.length steps)
     /\ Forall (fun g' => Game.state g' = GameOver /\ Game.timeLeft g' == 0)
               run)
  /\ (0 <= Game.timeLeft g ->
      Forall (fun step => 0 <= fst step) steps ->
      exists run w',
        frames host steps g w = Done (run, w')
        /\ Forall (fun g' => 0 <= Game.timeLeft g') run
        /\ StronglySorted (fun a b => Game.timeLeft b <= Game.timeLeft a)
                          (g :: run)).
Proof.
  intro Hd. split.
  - intros Hs Short. cbn [frames].
    destruct (update_time host dt keys g diff w Hd)
      as (g1 & w1 & E & D & Play & _).
    destruct (Play Hs) as [T Over].
    assert (Z1 : Game.timeLeft g1 == 0).
    { rewrite T. apply Q.max_l. lra. }
    destruct (frames_over host steps g1 diff w1) as (run & w' & Er & Len & F);
      [congruence | exact (Over Z1) |].
    exists (g1 :: run), w'. unfold bind. rewrite E, Er.
    split; [reflexivity|]. split; [cbn [List.length]; congruence|].
    constructor; [split; [exact (Over Z1) | exact Z1]|].
    eapply Forall_impl; [|exact F]. cbv beta. intros g2 [A B].
    split; [exact A | rewrite B; exact Z1].
  - intros Ht Hpos.
    destruct (frames_clock_down host steps g diff w Hd Ht Hpos)
      as (run & w' & E & F & Sorted).
    exists run, w'. split; [exact E|].
    split.
    + eapply Forall_impl; [|exact F]. cbv beta. tauto.
    + constructor; [exact Sorted|].
      eapply Forall_impl; [|exact F]. cbv beta. tauto.
Qed.

Lemma run_ends_with_the_clock_witness :
  let host := pageWith stuckZero in
  let easy := {| Difficulty.name := "Easy"; Difficulty.lives := 5;
                 Difficulty.time := 60; Difficulty.hazards := 3;
                 Difficulty.items := 8; Difficulty.hazardSpeed := (120, 170) |} in
  (exists run w',
      frames host [(0.05, []); (0.05, ["d"%string]); (0.05, [])]
             (lateRun 0 0 0.04 [cheeseAt 100 100] []) freshWorld
        = Done (run, w')
      /\ List.length run = 3%nat
      /\ Forall (fun g' => Game.state g' = GameOver /\ Game.timeLeft g' == 0)
                run)
  /\ (exists run w',
        frames host [(0.05, []); (0.05, ["d"%string]); (0.05, [])]
               (lateRun 0 0 0.12 [cheeseAt 100 100] []) freshWorld
          = Done (run, w')
        /\ map Game.state run = [Playing; Playing; GameOver]
        /\ StronglySorted (fun a b => Game.timeLeft b <= Game.timeLeft a)
                          (lateRun 0 0 0.12 [cheeseAt 100 100] [] :: run)).
Proof.
  cbv zeta.
  pose (seenRun := fun o : Outcome (list Game.t * World) =>
                     match o with
                     | Done (xs, _) => Some (map Game.state xs)
                     | _ => None
                     end).
  split.
  - destruct (run_ends_with_the_clock (pageWith stuckZero)
                [(0.05, ["d"%string]); (0.05, [])] 0.05 []
                (lateRun 0 0 0.04 [cheeseAt 100 100] [])
                {| Difficulty.name := "Easy"; Difficulty.lives := 5;
                   Difficulty.time := 60; Difficulty.hazards := 3;
                   Difficulty.items := 8;
                   Difficulty.hazardSpeed := (120, 170) |}
                freshWorld eq_refl) as (Ends & _).
    apply Ends; [reflexivity | vm_compute; discriminate].
  - destruct (run_ends_with_the_clock (pageWith stuckZero)
                [(0.05, []); (0.05, ["d"%string]); (0.05, [])] 0.05 []
                (lateRun 0 0 0.12 [cheeseAt 100 100] [])
                {| Difficulty.name := "Easy"; Difficulty.lives := 5;
                   Difficulty.time := 60; Difficulty.hazards := 3;
                   Difficulty.items := 8;
                   Difficulty.hazardSpeed := (120, 170) |}
                freshWorld eq_refl) as (_ & Down).
    destruct Down as (run & w' & E & _ & Sorted).
    + vm_compute. discriminate.
    + repeat constructor; vm_compute; discriminate.
    + exists run, w'. split; [exact E|].
      pose proof (f_equal seenRun E) as F. vm_compute in F.
      injection F as F.
      change ([Playing; Playing; GameOver] = map Game.state run) in F.
      split; [symmetry; exact F | exact Sorted].
Defined.

(** ** The stored high score *)

Lemma new_loads_high_score (host : Host) (fuel : nat) (assets : Assets)
    (w : World) :
  match Game.new host fuel assets w with
  | Done (g, w') =>
      Game.loadHighScore w = Done (Game.highScore g, w)
      /\ slot w' = slot w /\ storage_throws w' = storage_throws w
  | Throws => False
  | Spins => ~ velocityReturns host fuel
  end.
Proof.
  unfold Game.new. unfold bind at 1.
  destruct (Game.loadHighScore w) as [[loaded w0]| |] eqn:L;
    try (unfold Game.loadHighScore in L;
         destruct (storage_throws w); [discriminate|];
         destruct (slot w); discriminate).
  assert (W : w0 = w).
  { unfold Game.loadHighScore in L.
    destruct (storage_throws w); [congruence|].
    destruct (slot w); congruence. }
  subst w0.
  change (preset 0) with (nth_error DIFFICULTIES 0).
  cbn [nth_error DIFFICULTIES].
  match goal with
  | |- match Game.resetRun host fuel None ?g0 w with _ => _ end =>
      pose proof (resetRun_highScore host fuel None g0
                    (ex_intro _ _ eq_refl) w) as H;
      destruct (Game.resetRun host fuel None g0 w) as [[g w']| |];
      try assumption
  end.
  destruct H as (T & S & Hs). game_fields.
  rewrite Hs. auto.
Qed.

(** X14.  A new high score survives a reload of the page: when a run ends
    with a score above the high score and [localStorage] works, the game
    that the constructor builds next, in the world the run left, starts
    with that score as its high score. *)
Theorem high_score_survives_reload (host : Host) (fuel : nat)
    (assets : Assets) (g : Game.t) (w : World) :
  storage_throws w = false ->
  (Game.highScore g < Game.score g)%Z ->
  exists g' w',
    Game.enterGameOver g w = Done (g', w')
    /\ Game.highScore g' = Game.score g
    /\ match Game.new host fuel assets w' with
       | Done (fresh, _) => Game.highScore fresh = Game.score g
       | Throws => False
       | Spins => ~ velocityReturns host fuel
       end.
Proof.
  intros T Lt.
  destruct (enterGameOver_spec g w)
    as (g' & w' & E & _ & _ & _ & _ & _ & _ & _ & _ & _ & T' & _ & Hi).
  apply Z.ltb_lt in Lt. rewrite Lt in Hi. destruct Hi as (H1 & _ & H3).
  rewrite T in H3.
  exists g', w'. split; [exact E|]. split; [exact H1|].
  pose proof (new_loads_high_score host fuel assets w') as N.
  destruct (Game.new host fuel assets w') as [[fresh w2]| |]; try assumption.
  destruct N as (L & _).
  unfold Game.loadHighScore in L. rewrite T', T, H3 in L.
  congruence.
Qed.

Lemma high_score_survives_reload_witness :
  exists g' w',
    Game.enterGameOver (Game.set_score 120 (midRun 0 0 0 [] [])) freshWorld
      = Done (g', w')
    /\ Game.highScore g' = 120%Z.
Proof.
  destruct (high_score_survives_reload (pageWith stuckZero) 1 noSprites
              (Game.set_score 120 (midRun 0 0 0 [] [])) freshWorld)
    as (g' & w' & E & H & _).
  - reflexivity.
  - reflexivity.
  - exists g', w'. split; assumption.
Defined.

(** ** The frame driver *)

Lemma frameStep_bounds (now last : Q) :
  frameStep now last <= 0.05 /\ (last <= now -> 0 <= frameStep now last).
Proof.
  unfold frameStep. split; [apply Q.le_min_l|].
  intro Mono. apply Q.min_glb; [discriminate|].
  assert (E : (now - last) / 1000 == (now - last) * (1 # 1000)) by field.
  rewrite E. apply Qmult_le_0_compat; [lra | discriminate].
Qed.

(** X15.  However long the page stalled, one [tick] advances the run by
    at most 50 ms: it takes no more than 0.05 s off the time left, and,
    with a clock that does not run backwards, it never adds time nor
    leaves less than nothing. *)
Theorem tick_step_is_capped (host : Host) (now last : Q)
    (keys : list string) (g : Game.t) (diff : Difficulty.t) (w : World) :
  preset (Game.difficultyIndex g) = Some diff ->
  Game.state g = Playing ->
  0 <= Game.timeLeft g ->
  exists g' w',
    tick host now last keys g w = Done (g', w')
    /\ Game.timeLeft g - 0.05 <= Game.timeLeft g'
    /\ 0 <= Game.timeLeft g'
    /\ (last <= now -> Game.timeLeft g' <= Game.timeLeft g).
Proof.
  intros Hd Hs Hn. unfold tick.
  destruct (frameStep_bounds now last) as [Cap Mono].
  destruct (update_spec host (frameStep now last) keys g diff w Hd)
    as (g' & w' & E & St).
  exists g', w'. split; [exact E|].
  destruct St as (_ & _ & _ & St). rewrite Hs in St.
  destruct St as (g1 & _ & Tl & _).
  rewrite Tl.
  split; [eapply Qle_trans; [|apply Q.le_max_r]; lra|].
  split; [apply Q.le_max_l|].
  intro M. specialize (Mono M). apply Q.max_lub; lra.
Qed.

Lemma tick_step_is_capped_witness :
  exists g' w',
    tick (pageWith stuckZero) 90000 1000 [] (midRun 0 0 0 [cheeseAt 100 100] [])
         freshWorld = Done (g', w')
    /\ 60 - 0.05 <= Game.timeLeft g'.
Proof.
  destruct (tick_step_is_capped (pageWith stuckZero) 90000 1000 []
              (midRun 0 0 0 [cheeseAt 100 100] [])
              {| Difficulty.name := "Easy"; Difficulty.lives := 5;
                 Difficulty.time := 60; Difficulty.hazards := 3;
                 Difficulty.items := 8; Difficulty.hazardSpeed := (120, 170) |}
              freshWorld eq_refl eq_refl)
    as (g' & w' & E & Cap & _).
  - vm_compute. discriminate.
  - exists g', w'. split; [exact E | exact Cap].
Defined.

Lemma update_keeps_hazard_speeds_witness :
  exists g' w',
    Game.update (pageWith stuckZero) 0.05 []
      (midRun 0 0 0 [cheeseAt 100 100]
              [catAt 480 310 10 10; catAt 30 100 (-200) 150])
      freshWorld = Done (g', w')
    /\ List.length (Game.hazards g') = 2%nat.
Proof.
  destruct (update_keeps_hazard_speeds (pageWith stuckZero) 0.05 []
              (midRun 0 0 0 [cheeseAt 100 100]
                      [catAt 480 310 10 10; catAt 30 100 (-200) 150])
              {| Difficulty.name := "Easy"; Difficulty.lives := 5;
                 Difficulty.time := 60; Difficulty.hazards := 3;
                 Difficulty.items := 8; Difficulty.hazardSpeed := (120, 170) |}
              freshWorld eq_refl)
    as (g' & w' & E & F).
  exists g', w'. split; [exact E|].
  symmetry. apply (Forall2_length F).
Defined.
(** ** Key presses as a state machine *)

Lemma spawnHazards_detail (host : Host) (fuel count : nat)
    (speedRange : Q * Q) (g : Game.t) :
  Game.hazards g = [] ->
  triple (~ velocityReturns host fuel)
         (Game.spawnHazards host fuel count speedRange g)
         (fun g' => exists hs,
                      g' = Game.set_hazards hs g
                      /\ (List.length hs <= count)%nat).
Proof.
  intro Empty. unfold Game.spawnHazards. rewrite Empty.
  pose proof (spawnHazardsLoop_outcome host fuel count speedRange
                (Game.player g) (count * 25) 0 [] []
                eq_refl I (Nat.le_0_l _)) as H.
  cbn [app] in H.
  eapply triple_bind; [exact H|].
  intros [hs att] (placed & E1 & _ & _ & E4 & _).
  cbn [fst snd app] in *. subst placed.
  apply triple_ret. eauto.
Qed.

Lemma spawnItems_counted (host : Host) (S : Prop) (count : nat) (g : Game.t) :
  Game.items g = [] ->
  triple S (Game.spawnItems host count g)
         (fun g' => exists its,
                      g' = Game.set_items its g
                      /\ (List.length its <= count)%nat).
Proof.
  intro Empty.
  eapply triple_weaken; [apply spawnItems_detail; exact Empty | tauto |].
  intros g' (its & E & L & _). eauto.
Qed.

Lemma startGame_keyed (host : Host) (fuel : nat) (g g0 : Game.t)
    (diff : Difficulty.t) :
  keyed host g g0 ->
  preset (Game.difficultyIndex g0) = Some diff ->
  triple (~ velocityReturns host fuel) (Game.startGame host fuel g0)
         (keyed host g).
Proof.
  intros K Hd. unfold Game.startGame. rewrite Hd. cbv zeta.
  eapply triple_bind; [apply spawnHazards_detail; reflexivity|].
  intros g1 (hs & E1 & L1).
  eapply triple_weaken;
    [apply (spawnItems_counted host (~ velocityReturns host fuel));
     subst g1; reflexivity
    | auto |].
  intros g2 (its & E2 & L2). subst g2 g1.
  exact (keyed_start host g g0 diff hs its K Hd L1 L2).
Qed.

Lemma resetRun_keyed (host : Host) (fuel : nat) (g g0 : Game.t)
    (diff : Difficulty.t) :
  keyed host g g0 ->
  preset (Game.difficultyIndex g0) = Some diff ->
  triple (~ velocityReturns host fuel)
         (Game.resetRun host fuel (Some (Game.difficultyIndex g0)) g0)
         (keyed host g).
Proof.
  intros K Hd. unfold Game.resetRun. cbv zeta.
  change (preset (Game.difficultyIndex
                    (Game.set_difficultyIndex (Game.difficultyIndex g0) g0)))
    with (preset (Game.difficultyIndex g0)).
  rewrite Hd.
  change (triple (~ velocityReturns host fuel)
            (bind (Game.spawnHazards host fuel (Difficulty.hazards diff)
                     (Difficulty.hazardSpeed diff)
                     (wiped host diff (Game.difficultyIndex g0) g0))
                  (fun g1 =>
                     bind (Game.spawnItems host (Difficulty.items diff) g1)
                          (fun g2 => ret (Game.set_state Menu g2))))
            (keyed host g)).
  eapply triple_bind; [apply spawnHazards_detail; reflexivity|].
  intros g1 (hs & E1 & L1).
  eapply triple_bind;
    [apply spawnItems_counted; subst g1; reflexivity|].
  intros g2 (its & E2 & L2). subst g2 g1. apply triple_ret.
  exact (keyed_reset host g g0 diff hs its K Hd L1 L2).
Qed.

Lemma started_fields (host : Host) (diff : Difficulty.t) (g : Game.t)
    (hs : list Hazard.t) (its : list Item.t) :
  let g' := Game.set_items its (Game.set_hazards hs (cleared host diff g)) in
  Game.state g' = Playing
  /\ Game.difficultyIndex g' = Game.difficultyIndex g
  /\ Game.lives g' = Difficulty.lives diff
  /\ Game.timeLeft g' = Difficulty.time diff
  /\ Game.score g' = 0%Z
  /\ Game.combo g' = 0%Z
  /\ Game.comboTimer g' = 0
  /\ Player.hitCooldown (Game.player g') = 0
  /\ Game.hazards g' = hs
  /\ Game.items g' = its
  /\ Game.highScore g' = Game.highScore g.
Proof. cbv zeta. splits; reflexivity. Qed.

Lemma reset_fields (host : Host) (diff : Difficulty.t) (index : Z)
    (g : Game.t) (hs : list Hazard.t) (its : list Item.t) :
  let g' := Game.set_state Menu
              (Game.set_items its
                 (Game.set_hazards hs (wiped host diff index g))) in
  Game.state g' = Menu
  /\ Game.difficultyIndex g' = index
  /\ Game.lives g' = Difficulty.lives diff
  /\ Game.timeLeft g' = Difficulty.time diff
  /\ Game.score g' = 0%Z
  /\ Game.combo g' = 0%Z
  /\ Game.comboTimer g' = 0
  /\ Player.hitCooldown (Game.player g') = 0
  /\ Game.hazards g' = hs
  /\ Game.items g' = its
  /\ Game.highScore g' = Game.highScore g.
Proof. cbv zeta. splits; reflexivity. Qed.

Lemma keyed_valid (host : Host) (g g' : Game.t) :
  keyed host g g' ->
  (exists diff, preset (Game.difficultyIndex g) = Some diff) ->
  exists diff, preset (Game.difficultyIndex g') = Some diff.
Proof.
  induction 1 as [| | |g0 index K IH Hm Hm0 Hi
                  |g0 diff hs its K IH Hd L1 L2
                  |g0 diff hs its K IH Hd L1 L2]; intro V.
  - exact V.
  - exact V.
  - exact V.
  - apply preset_valid. exact Hi.
  - destruct (started_fields host diff g0 hs its) as (_ & F2 & _).
    rewrite F2. eauto.
  - destruct (reset_fields host diff (Game.difficultyIndex g0) g0 hs its)
      as (_ & F2 & _).
    rewrite F2. eauto.
Qed.

Lemma rem3_valid (a : Z) : (0 <= a)%Z -> (0 <= Z.rem a 3 < 3)%Z.
Proof.
  intro H. rewrite Z.rem_mod_nonneg by lia. apply Z.mod_pos_bound. lia.
Qed.

(** Whatever [onKeyDown] returns is one of the outcomes listed by
    [keyed]. *)
Lemma onKeyDown_keyed (host : Host) (fuel : nat) (key : string) (g : Game.t) :
  (exists diff, preset (Game.difficultyIndex g) = Some diff) ->
  triple (~ velocityReturns host fuel) (Game.onKeyDown host fuel key g)
         (keyed host g).
Proof.
  intro V. pose proof V as V0. apply preset_valid in V0.
  assert (Start : forall g0, keyed host g g0 ->
            triple (~ velocityReturns host fuel)
                   (Game.startGame host fuel g0) (keyed host g)).
  { intros g0 K. destruct (keyed_valid host g g0 K V) as [d Hd].
    exact (startGame_keyed host fuel g g0 d K Hd). }
  assert (Reset : forall g0, keyed host g g0 ->
            triple (~ velocityReturns host fuel)
                   (Game.resetRun host fuel (Some (Game.difficultyIndex g0)) g0)
                   (keyed host g)).
  { intros g0 K. destruct (keyed_valid host g g0 K V) as [d Hd].
    exact (resetRun_keyed host fuel g g0 d K Hd). }
  pose proof (keyed_same host g) as Same.
  unfold Game.onKeyDown.
  destruct (key =? "q")%string; [apply Reset; exact Same|].
  destruct (Game.state g) eqn:Hs; cbn [Game.isPlaying Game.isPaused orb andb].
  - (* menu *)
    cbv zeta.
    set (g1 := if (key =? "ArrowUp")%string then _ else g).
    assert (K1 : keyed host g g1 /\ Game.state g1 = Menu
                 /\ (0 <= Game.difficultyIndex g1 < 3)%Z).
    { subst g1. destruct (key =? "ArrowUp")%string; [|auto].
      split; [|split; [exact Hs|]].
      - apply keyed_index; try assumption.
        unfold Game.DIFFICULTIES_length. cbn [List.length DIFFICULTIES Z.of_nat].
        change (Z.pos (Pos.of_succ_nat 2)) with 3%Z. apply rem3_valid. lia.
      - game_fields.
        unfold Game.DIFFICULTIES_length. cbn [List.length DIFFICULTIES Z.of_nat].
        change (Z.pos (Pos.of_succ_nat 2)) with 3%Z. apply rem3_valid. lia. }
    clearbody g1. destruct K1 as (K1 & S1 & V1).
    set (g2 := if (key =? "ArrowDown")%string then _ else g1).
    assert (K2 : keyed host g g2 /\ Game.state g2 = Menu).
    { subst g2. destruct (key =? "ArrowDown")%string; [|auto].
      split; [|exact S1].
      apply keyed_index; try assumption.
      unfold Game.DIFFICULTIES_length. cbn [List.length DIFFICULTIES Z.of_nat].
      change (Z.pos (Pos.of_succ_nat 2)) with 3%Z. apply rem3_valid. lia. }
    clearbody g2. destruct K2 as (K2 & S2).
    destruct ((key =? "1")%string || (key =? "2")%string || (key =? "3")%string).
    + apply Start. apply keyed_index; try assumption.
      unfold clampZ, Game.DIFFICULTIES_length.
      cbn [List.length DIFFICULTIES Z.of_nat].
      change (Z.pos (Pos.of_succ_nat 2)) with 3%Z.
      destruct (key =? "1")%string; [lia|].
      destruct (key =? "2")%string; lia.
    + destruct ((key =? "Enter")%string || (key =? " ")%string);
        [apply Start; exact K2 | apply triple_ret; exact K2].
  - (* playing *)
    destruct ((key =? "p")%string || (key =? "Escape")%string).
    { apply triple_ret. apply keyed_pause. exact Hs. }
    destruct (key =? "r")%string; [apply Start; exact Same|].
    apply triple_ret. exact Same.
  - (* paused *)
    destruct ((key =? "p")%string || (key =? "Escape")%string).
    { apply triple_ret. apply keyed_resume. exact Hs. }
    eapply triple_bind with (P := keyed host g).
    + destruct (key =? "r")%string; [apply Start; exact Same|].
      apply triple_ret. exact Same.
    + intros g1 K1.
      destruct (key =? "m")%string; [apply Reset; exact K1|].
      apply triple_ret. exact K1.
  - (* game over *)
    eapply triple_bind with (P := keyed host g).
    + destruct ((key =? "Enter")%string || (key =? " ")%string);
        [apply Start; exact Same | apply triple_ret; exact Same].
    + intros g1 K1.
      destruct ((key =? "r")%string || (key =? "m")%string);
        [apply Reset; exact K1 | apply triple_ret; exact K1].
Qed.

Lemma preset_positive (index : Z) (diff : Difficulty.t) :
  preset index = Some diff ->
  (1 <= Difficulty.lives diff)%Z /\ 0 < Difficulty.time diff.
Proof.
  intro H.
  assert (V : (0 <= index < 3)%Z) by (apply preset_valid; eauto).
  assert (C : index = 0%Z \/ index = 1%Z \/ index = 2%Z) by lia.
  destruct C as [-> | [-> | ->]]; cbn in H; injection H as <-; cbn;
    split; try lia; reflexivity.
Qed.

(** X16.  No key press ends a run or takes the game to ["game_over"]:
    after [onKeyDown] the game is in ["game_over"] only if it was there
    and the key changed nothing.  Outside the menu no key changes the
    difficulty.  And a game that a key puts in ["playing"] is either the
    paused game resumed as it was, or a fresh run of the selected preset:
    its lives and time, score 0, no combo, no cooldown. *)
Theorem key_presses_respect_runs (host : Host) (fuel : nat) (key : string)
    (g : Game.t) (diff : Difficulty.t) (w : World) :
  preset (Game.difficultyIndex g) = Some diff ->
  match Game.onKeyDown host fuel key g w with
  | Done (g', w') =>
      (Game.state g' = GameOver -> Game.state g = GameOver /\ g' = g)
      /\ (Game.state g <> Menu ->
          Game.difficultyIndex g' = Game.difficultyIndex g)
      /\ (Game.state g' = Playing ->
          g' = g
          \/ (Game.state g = Paused /\ g' = Game.set_state Playing g)
          \/ (exists diff',
                 preset (Game.difficultyIndex g') = Some diff'
                 /\ Game.lives g' = Difficulty.lives diff'
                 /\ Game.timeLeft g' = Difficulty.time diff'
                 /\ Game.score g' = 0%Z
                 /\ Game.combo g' = 0%Z
                 /\ Player.hitCooldown (Game.player g') = 0))
      /\ storage_throws w' = storage_throws w
      /\ slot w' = slot w
  | Throws => False
  | Spins => ~ velocityReturns host fuel
  end.
Proof.
  intro Hd.
  pose proof (onKeyDown_keyed host fuel key g (ex_intro _ diff Hd) w) as H.
  destruct (Game.onKeyDown host fuel key g w) as [[g' w']| |]; try assumption.
  destruct H as (T & S & K).
  split; [|split; [|split; [|split; assumption]]].
  - induction K as [| | |g0 index K IH Hm Hm0 Hi
                    |g0 d hs its K IH Hd0 L1 L2
                    |g0 d hs its K IH Hd0 L1 L2]; intro Over.
    + split; [exact Over | reflexivity].
    + discriminate Over.
    + discriminate Over.
    + change (Game.state g0 = GameOver) in Over. congruence.
    + destruct (started_fields host d g0 hs its) as (F1 & _). congruence.
    + destruct (reset_fields host d (Game.difficultyIndex g0) g0 hs its)
        as (F1 & _). congruence.
  - intro NotMenu.
    induction K as [| | |g0 index K IH Hm Hm0 Hi
                    |g0 d hs its K IH Hd0 L1 L2
                    |g0 d hs its K IH Hd0 L1 L2].
    + reflexivity.
    + reflexivity.
    + reflexivity.
    + congruence.
    + destruct (started_fields host d g0 hs its) as (_ & F2 & _).
      rewrite F2. exact IH.
    + destruct (reset_fields host d (Game.difficultyIndex g0) g0 hs its)
        as (_ & F2 & _).
      rewrite F2. exact IH.
  - clear T S. induction K as [| | |g0 index K IH Hm Hm0 Hi
                              |g0 d hs its K IH Hd0 L1 L2
                              |g0 d hs its K IH Hd0 L1 L2]; intro Play.
    + left. reflexivity.
    + discriminate Play.
    + right. left. split; [assumption | reflexivity].
    + change (Game.state g0 = Playing) in Play. congruence.
    + right. right. exists d.
      destruct (started_fields host d g0 hs its)
        as (_ & F2 & F3 & F4 & F5 & F6 & _ & F8 & _).
      rewrite F2. splits; assumption.
    + destruct (reset_fields host d (Game.difficultyIndex g0) g0 hs its)
        as (F1 & _). congruence.
Qed.

Lemma key_presses_respect_runs_witness :
  match Game.onKeyDown (pageWith stuckZero) 1 "p"
          (midRun 2 0.5 0 [cheeseAt 480 300] []) freshWorld with
  | Done (g', _) => Game.difficultyIndex g' = 0%Z
  | _ => False
  end.
Proof.
  pose proof (key_presses_respect_runs (pageWith stuckZero) 1 "p"
                (midRun 2 0.5 0 [cheeseAt 480 300] [])
                {| Difficulty.name := "Easy"; Difficulty.lives := 5;
                   Difficulty.time := 60; Difficulty.hazards := 3;
                   Difficulty.items := 8; Difficulty.hazardSpeed := (120, 170) |}
                freshWorld eq_refl) as H.
  destruct (Game.onKeyDown (pageWith stuckZero) 1 "p"
              (midRun 2 0.5 0 [cheeseAt 480 300] []) freshWorld)
    as [[g' w']| |].
  - destruct H as (_ & Keep & _). apply Keep. discriminate.
  - exact H.
  - apply H. exact velocityReturns_stuckZero.
Defined.

(** X17.  In the menu the arrow keys walk the three presets in a circle:
    [ArrowDown] goes to the next one and wraps from the last to the first,
    [ArrowUp] undoes it, and three [ArrowDown] come back to the start.
    They change nothing else and draw no random value. *)
Theorem menu_arrows_cycle (host : Host) (fuel : nat) (g : Game.t) (w : World) :
  Game.state g = Menu ->
  (0 <= Game.difficultyIndex g < 3)%Z ->
  let down := Game.set_difficultyIndex
                ((Game.difficultyIndex g + 1) mod 3)%Z g in
  let up := Game.set_difficultyIndex
              ((Game.difficultyIndex g + 2) mod 3)%Z g in
  Game.onKeyDown host fuel "ArrowDown" g w = Done (down, w)
  /\ Game.onKeyDown host fuel "ArrowUp" g w = Done (up, w)
  /\ Game.onKeyDown host fuel "ArrowUp" down w = Done (g, w)
  /\ Game.onKeyDown host fuel "ArrowDown" up w = Done (g, w)
  /\ (exists g2 g3,
        Game.onKeyDown host fuel "ArrowDown" down w = Done (g2, w)
        /\ Game.onKeyDown host fuel "ArrowDown" g2 w = Done (g3, w)
        /\ g3 = g).
Proof.
  intros Hs Hi. cbv zeta.
  assert (Down : forall g0, Game.state g0 = Menu ->
            (0 <= Game.difficultyIndex g0 < 3)%Z ->
            Game.onKeyDown host fuel "ArrowDown" g0 w =
              Done (Game.set_difficultyIndex
                      ((Game.difficultyIndex g0 + 1) mod 3)%Z g0, w)).
  { intros g0 S0 I0. unfold Game.onKeyDown. cbn [String.eqb Ascii.eqb Bool.eqb].
    rewrite S0. cbn [Game.isPlaying Game.isPaused orb andb]. cbv zeta.
    unfold Game.DIFFICULTIES_length. cbn [List.length DIFFICULTIES Z.of_nat].
    change (Z.pos (Pos.of_succ_nat 2)) with 3%Z.
    rewrite Z.rem_mod_nonneg by lia. reflexivity. }
  assert (Up : forall g0, Game.state g0 = Menu ->
            (0 <= Game.difficultyIndex g0 < 3)%Z ->
            Game.onKeyDown host fuel "ArrowUp" g0 w =
              Done (Game.set_difficultyIndex
                      ((Game.difficultyIndex g0 + 2) mod 3)%Z g0, w)).
  { intros g0 S0 I0. unfold Game.onKeyDown. cbn [String.eqb Ascii.eqb Bool.eqb].
    rewrite S0. cbn [Game.isPlaying Game.isPaused orb andb]. cbv zeta.
    unfold Game.DIFFICULTIES_length. cbn [List.length DIFFICULTIES Z.of_nat].
    change (Z.pos (Pos.of_succ_nat 2)) with 3%Z.
    rewrite Z.rem_mod_nonneg by lia.
    replace (Game.difficultyIndex g0 - 1 + 3)%Z
      with (Game.difficultyIndex g0 + 2)%Z by lia.
    reflexivity. }
  assert (Same : forall i, i = Game.difficultyIndex g ->
            Game.set_difficultyIndex i g = g).
  { intros i ->. destruct g; reflexivity. }
  assert (Twice : forall i j g0,
            Game.set_difficultyIndex i (Game.set_difficultyIndex j g0)
            = Game.set_difficultyIndex i g0) by reflexivity.
  assert (C : Game.difficultyIndex g = 0%Z \/ Game.difficultyIndex g = 1%Z
              \/ Game.difficultyIndex g = 2%Z) by lia.
  split; [apply Down; assumption|].
  split; [apply Up; assumption|].
  split; [|split].
  - rewrite Up; game_fields; [|exact Hs | apply Z.mod_pos_bound; lia].
    rewrite Twice. rewrite Same; [reflexivity|].
    destruct C as [E | [E | E]]; rewrite E; reflexivity.
  - rewrite Down; game_fields; [|exact Hs | apply Z.mod_pos_bound; lia].
    rewrite Twice. rewrite Same; [reflexivity|].
    destruct C as [E | [E | E]]; rewrite E; reflexivity.
  - eexists; eexists.
    split; [apply Down; game_fields; [exact Hs | apply Z.mod_pos_bound; lia]|].
    split; [apply Down; game_fields; [exact Hs | apply Z.mod_pos_bound; lia]|].
    game_fields. rewrite !Twice. apply Same.
    destruct C as [E | [E | E]]; rewrite E; reflexivity.
Qed.

Lemma menu_arrows_cycle_witness :
  Game.onKeyDown (pageWith stuckZero) 1 "ArrowUp"
    (Game.set_state Menu (midRun 0 0 0 [] [])) freshWorld
  = Done (Game.set_difficultyIndex 2
            (Game.set_state Menu (midRun 0 0 0 [] [])), freshWorld).
Proof.
  destruct (menu_arrows_cycle (pageWith stuckZero) 1
              (Game.set_state Menu (midRun 0 0 0 [] [])) freshWorld)
    as (_ & Up & _).
  - reflexivity.
  - cbn. lia.
  - exact Up.
Defined.

(** X18.  Pausing and resuming is lossless: in ["playing"], [p] or
    [Escape] pauses and a second press gives back the very game that was
    paused; no random value is drawn and nothing is stored. *)
Theorem pause_then_resume (host : Host) (fuel : nat) (key1 key2 : string)
    (g : Game.t) (w : World) :
  Game.state g = Playing ->
  key1 = "p"%string \/ key1 = "Escape"%string ->
  key2 = "p"%string \/ key2 = "Escape"%string ->
  Game.onKeyDown host fuel key1 g w = Done (Game.set_state Paused g, w)
  /\ Game.onKeyDown host fuel key2 (Game.set_state Paused g) w = Done (g, w).
Proof.
  intros Hs K1 K2.
  assert (Back : Game.set_state Playing (Game.set_state Paused g) = g).
  { destruct g. cbn in Hs. subst. reflexivity. }
  split.
  - destruct K1 as [-> | ->]; unfold Game.onKeyDown;
      cbn [String.eqb Ascii.eqb Bool.eqb]; rewrite Hs; reflexivity.
  - destruct K2 as [-> | ->]; unfold Game.onKeyDown;
      cbn [String.eqb Ascii.eqb Bool.eqb]; game_fields;
      cbn [Game.isPlaying Game.isPaused orb andb ret];
      rewrite Back; reflexivity.
Qed.

Lemma pause_then_resume_witness :
  Game.onKeyDown (pageWith stuckZero) 1 "Escape"
    (Game.set_state Paused (midRun 2 0.5 0 [] [])) freshWorld
  = Done (midRun 2 0.5 0 [] [], freshWorld).
Proof.
  destruct (pause_then_resume (pageWith stuckZero) 1 "p" "Escape"
              (midRun 2 0.5 0 [] []) freshWorld eq_refl
              (or_introl eq_refl) (or_intror eq_refl)) as [_ Back].
  exact Back.
Defined.

(** X19.  A key that [onKeyDown] does not know (the movement keys among
    them) changes nothing, in any state. *)
Theorem other_keys_do_nothing (host : Host) (fuel : nat) (key : string)
    (g : Game.t) (w : World) :
  existsb (String.eqb key)
          ["q"; "p"; "Escape"; "r"; "m"; "ArrowUp"; "ArrowDown";
           "1"; "2"; "3"; "Enter"; " "]%string = false ->
  Game.onKeyDown host fuel key g w = Done (g, w).
Proof.
  intro No. cbn [existsb] in No.
  repeat (apply orb_false_iff in No; destruct No as [?E No]).
  unfold Game.onKeyDown.
  rewrite E, E0, E1, E2, E3, E4, E5, E6, E7, E8, E9, E10.
  cbn [orb andb]. rewrite !andb_false_r.
  destruct (Game.state g); reflexivity.
Qed.

Lemma other_keys_do_nothing_witness :
  Game.onKeyDown (pageWith stuckZero) 1 "ArrowLeft"
    (midRun 2 0.5 0 [] []) freshWorld
  = Done (midRun 2 0.5 0 [] [], freshWorld).
Proof.
  apply (other_keys_do_nothing (pageWith stuckZero) 1 "ArrowLeft"
           (midRun 2 0.5 0 [] []) freshWorld).
  reflexivity.
Defined.

(** ** What every reachable game satisfies *)

Lemma keyed_healthy (host : Host) (g g' : Game.t) :
  keyed host g g' -> healthy g -> healthy g'.
Proof.
  induction 1 as [| | |g0 index K IH Hm Hm0 Hi
                  |g0 diff hs its K IH Hd L1 L2
                  |g0 diff hs its K IH Hd L1 L2]; intro Hg;
    try specialize (IH Hg).
  - exact Hg.
  - destruct Hg as ((d & V & C) & L & T & S & Cb & Ct & Hc & Run).
    unfold healthy. game_fields.
    split; [exists d; split; [exact V | intros _; apply C; congruence]|].
    splits; try assumption. intros _. apply Run. left. assumption.
  - destruct Hg as ((d & V & C) & L & T & S & Cb & Ct & Hc & Run).
    unfold healthy. game_fields.
    split; [exists d; split; [exact V | intros _; apply C; congruence]|].
    splits; try assumption. intros _. apply Run. right. assumption.
  - destruct IH as ((d & V & C) & L & T & S & Cb & Ct & Hc & Run).
    unfold healthy. game_fields.
    split.
    + destruct (proj2 (preset_valid index) Hi) as [d' V'].
      exists d'. split; [exact V' | congruence].
    + splits; assumption.
  - destruct (preset_positive _ _ Hd) as [Lp Tp].
    destruct (started_fields host diff g0 hs its)
      as (F1 & F2 & F3 & F4 & F5 & F6 & F7 & F8 & F9 & F10 & _).
    cbv zeta in *.
    set (g' := Game.set_items its (Game.set_hazards hs (cleared host diff g0))) in *.
    clearbody g'.
    unfold healthy. rewrite F2, F3, F4, F5, F6, F7, F8, F9, F10.
    split; [exists diff; split; [exact Hd | intros _; split; assumption]|].
    splits; try lia; try (apply Qlt_le_weak; exact Tp); try apply Qle_refl.
    intros _. split; [exact Lp | exact Tp].
  - destruct (preset_positive _ _ Hd) as [Lp Tp].
    destruct (reset_fields host diff (Game.difficultyIndex g0) g0 hs its)
      as (F1 & F2 & F3 & F4 & F5 & F6 & F7 & F8 & F9 & F10 & _).
    cbv zeta in *.
    set (g' := Game.set_state Menu
                 (Game.set_items its
                    (Game.set_hazards hs
                       (wiped host diff (Game.difficultyIndex g0) g0)))) in *.
    clearbody g'.
    unfold healthy. rewrite F1, F2, F3, F4, F5, F6, F7, F8.
    split; [exists diff; split; [exact Hd | congruence]|].
    splits; try lia; try (apply Qlt_le_weak; exact Tp); try apply Qle_refl.
    intros [F | F]; discriminate.
Qed.

Lemma epilogue_fields (dt : Q) (g1 : Game.t) (w1 : World) :
  exists g' w',
    epilogue dt g1 w1 = Done (g', w')
    /\ Game.difficultyIndex g' = Game.difficultyIndex g1
    /\ tally g' = tally g1
    /\ Game.lives g' = Game.lives g1
    /\ Game.player g' = Game.player g1
    /\ Game.hazards g' = Game.hazards g1
    /\ Game.items g' = Game.items g1
    /\ Game.timeLeft g' = Qmax 0 (Game.timeLeft g1 - dt)
    /\ (Game.state g' = GameOver
        \/ (Game.state g' = Game.state g1
            /\ 0 < Game.timeLeft g' /\ (1 <= Game.lives g')%Z)).
Proof.
  unfold epilogue. cbv zeta. game_fields.
  destruct (Qle_bool (Qmax 0 (Game.timeLeft g1 - dt)) 0
            || (Game.lives g1 <=? 0)%Z) eqn:Over.
  - destruct (enterGameOver_spec
                (Game.set_timeLeft (Qmax 0 (Game.timeLeft g1 - dt)) g1) w1)
      as (g' & w' & E & G1 & G2 & G3 & G4 & G5 & G6 & G7 & G8 & G9 & _).
    game_fields. exists g', w'. split; [exact E|].
    splits; try assumption. left. exact G1.
  - exists (Game.set_timeLeft (Qmax 0 (Game.timeLeft g1 - dt)) g1), w1.
    split; [reflexivity|]. game_fields.
    splits; try reflexivity.
    right. apply orb_false_iff in Over. destruct Over as [O1 O2].
    split; [reflexivity|].
    split; [apply Qle_bool_false; exact O1 | apply Z.leb_gt in O2; lia].
Qed.

Lemma update_healthy_idle (host : Host) (dt : Q) (keys : list string)
    (g : Game.t) (w : World) (g' : Game.t) (w' : World) :
  healthy g ->
  Game.state g <> Playing ->
  Game.update host dt keys g w = Done (g', w') ->
  healthy g'.
Proof.
  intros H Hs E.
  destruct (update_idle host dt keys g w Hs) as (g2 & E2 & Eb & Et).
  rewrite E in E2. injection E2 as <-.
  apply board_fields in Eb. apply tally_fields in Et.
  destruct Eb as (B1 & B2 & B3 & B4 & B5 & B6 & B7 & _).
  destruct Et as (T1 & T2 & T3).
  unfold healthy in *.
  rewrite B1, B2, B3, B4, B5, B6, B7, T1, T2, T3. exact H.
Qed.

Lemma update_healthy (host : Host) (dt : Q) (keys : list string)
    (g : Game.t) (w : World) (g' : Game.t) (w' : World) :
  healthy g ->
  Game.update host dt keys g w = Done (g', w') ->
  healthy g'.
Proof.
  intros H E.
  destruct (Game.state g) eqn:Hs;
    try (apply (update_healthy_idle host dt keys g w g' w' H); 
         [congruence | exact E]).
  destruct H as ((diff & Hd & Cnt) & L & T & S & Cb & Ct & Hc & Run).
  destruct Cnt as [Ch Ci]; [congruence|].
  destruct Run as [L1 T1]; [left; exact Hs|].
  rewrite (update_playing host dt keys g Hs) in E.
  pose proof (prelude_fields host dt keys g) as PF. cbv zeta in PF.
  set (g0 := prelude host dt keys g) in *. clearbody g0.
  destruct PF as (P1 & P2 & P3 & P4 & P5 & P6 & P7 & P8 & P9 & P10 & P11 & P12 & P13).
  assert (Hd0 : preset (Game.difficultyIndex g0) = Some diff)
    by (rewrite P2; exact Hd).
  destruct (triple_done _ _ w
              (triple_both _ _ _ _
                 (handleCollisions_detail host g0 diff Hd0)
                 (handleCollisions_total host g0 diff Hd0)))
    as (g1 & w1 & E1 & _ & _ & D & Col).
  apply bind_done in E. destruct E as (a & wa & Ea & E).
  rewrite E1 in Ea. injection Ea as <- <-.
  destruct (epilogue_fields dt g1 w1)
    as (g2 & w2 & E2 & F1 & F2 & F3 & F4 & F5 & F6 & F7 & F8).
  rewrite E in E2. injection E2 as <- <-.
  apply tally_fields in F2. destruct F2 as (F2s & F2c & F2t).
  cbv zeta in D. destruct D as (Sc & Keep & Fresh & Lv & Pl & _).
  unfold collided in Col. cbv zeta in Col.
  destruct Col as (_ & C2 & _ & _ & _ & _ & Z0 & Zp & Bodies & _).
  set (p0 := Game.player g0) in *.
  assert (Cb0 : (0 <= Game.combo g0)%Z).
  { rewrite P13.
    match goal with |- context [if ?b then _ else _] => destruct b end; lia. }
  assert (Ct0 : 0 <= Game.comboTimer g0).
  { rewrite P12. destruct (Qlt_bool 0 (Game.comboTimer g));
      [apply Q.le_max_l | exact Ct]. }
  assert (Hc0 : 0 <= Player.hitCooldown p0).
  { subst p0. rewrite P10, Player_update_cooldown.
    destruct (Qlt_bool 0 (Player.hitCooldown (Game.player g)));
      [apply Q.le_max_l | exact Hc]. }
  unfold healthy.
  rewrite F1, F2s, F2c, F2t, F3, F4, F5, F6, F7, C2, P2.
  split.
  { exists diff. split; [exact Hd|]. intros _. split.
    - rewrite <- (Forall2_length Bodies). rewrite P11, length_map. exact Ch.
    - destruct (filter (fun it => negb (Game.overlapsItem host p0 it))
                       (Game.items g0)) as [|k kept'] eqn:Ek.
      + apply Fresh. reflexivity.
      + rewrite Keep by discriminate.
        rewrite <- Ek. eapply Nat.le_trans; [apply filter_length_le|].
        rewrite P6. exact Ci. }
  split.
  { rewrite Lv, P3.
    match goal with |- context [if ?b then _ else _] => destruct b end; lia. }
  split; [apply Q.le_max_l|].
  split.
  { rewrite Sc, P5.
    pose proof (comboSum_bounds
                  (List.length (filter (Game.overlapsItem host p0) (Game.items g0)))
                  (comboBase g0) (comboBase_nonneg g0 Cb0)).
    lia. }
  assert (N : overlapCount host p0 (Game.items g0) = 0%Z
              \/ (0 < overlapCount host p0 (Game.items g0))%Z)
    by (unfold overlapCount; lia).
  split.
  { destruct N as [N | N].
    - apply Z0 in N. apply tally_fields in N. destruct N as (_ & N2 & _).
      rewrite N2. exact Cb0.
    - destruct (Zp N) as [Nc _]. rewrite Nc.
      pose proof (comboBase_nonneg g0 Cb0). lia. }
  split.
  { destruct N as [N | N].
    - apply Z0 in N. apply tally_fields in N. destruct N as (_ & _ & N3).
      rewrite N3. exact Ct0.
    - destruct (Zp N) as [_ Nt]. rewrite Nt. discriminate. }
  split.
  { rewrite Pl.
    match goal with |- context [if ?b then _ else _] => destruct b end;
      [cbn; discriminate | exact Hc0]. }
  intros Running.
  destruct F8 as [Over | (Same & Tl & Lv1)].
  - destruct Running as [R | R]; congruence.
  - rewrite <- F7, <- F3. split; assumption.
Qed.

Lemma new_healthy (host : Host) (fuel : nat) (assets : Assets) :
  triple (~ velocityReturns host fuel) (Game.new host fuel assets) healthy.
Proof.
  unfold Game.new.
  eapply triple_bind; [apply loadHighScore_total|].
  intros loaded _.
  change (preset 0) with (nth_error DIFFICULTIES 0).
  cbn [nth_error DIFFICULTIES].
  unfold Game.resetRun. cbv zeta. game_fields.
  change (preset 0) with (nth_error DIFFICULTIES 0).
  cbn [nth_error DIFFICULTIES].
  eapply triple_bind; [apply spawnHazards_outcome|].
  intros g1 [hs E1].
  eapply triple_bind;
    [eapply triple_weaken;
      [apply spawnItems_total | tauto | intros ? H; exact H]|].
  intros g2 [its E2]. subst g2 g1. apply triple_ret.
  unfold healthy. game_fields.
  split.
  { eexists. split; [reflexivity|]. congruence. }
  cbn [Difficulty.lives Difficulty.time].
  splits; try lia; try discriminate.
  intros [F | F]; discriminate.
Qed.

(** X20.  Every game the page can reach, from the constructor through any
    frames and key presses, is sound: its difficulty index selects a
    preset; lives, time left, score, combo, combo timer and hit cooldown
    are never negative; outside the menu there are no more hazards and no
    more items than the preset declares; and a game that is playing or
    paused has at least one life and some time left. *)
Theorem reachable_games_are_sound (host : Host) (fuel : nat) (g : Game.t)
    (w : World) :
  reachable host fuel g w ->
  (exists diff,
      preset (Game.difficultyIndex g) = Some diff
      /\ (Game.state g <> Menu ->
          (List.length (Game.hazards g) <= Difficulty.hazards diff)%nat
          /\ (List.length (Game.items g) <= Difficulty.items diff)%nat))
  /\ (0 <= Game.lives g)%Z
  /\ 0 <= Game.timeLeft g
  /\ (0 <= Game.score g)%Z
  /\ (0 <= Game.combo g)%Z
  /\ 0 <= Game.comboTimer g
  /\ 0 <= Player.hitCooldown (Game.player g)
  /\ (Game.state g = Playing \/ Game.state g = Paused ->
      (1 <= Game.lives g)%Z /\ 0 < Game.timeLeft g).
Proof.
  intro R. change (healthy g).
  induction R as [assets w g w' E
                 | dt keys g w g' w' R IH E
                 | key g w g' w' R IH E].
  - pose proof (new_healthy host fuel assets w) as H. rewrite E in H. tauto.
  - exact (update_healthy host dt keys g w g' w' IH E).
  - destruct IH as ((diff & Hd & Cnt) & Rest).
    pose proof (onKeyDown_keyed host fuel key g (ex_intro _ diff Hd) w) as K.
    rewrite E in K. destruct K as (_ & _ & K).
    apply (keyed_healthy host g g' K).
    split; [exists diff; split; assumption | exact Rest].
Qed.

Lemma reachable_games_are_sound_witness :
  let host := pageWith alternating in
  exists g0 w0 g1 w1 g w,
    Game.new host 1 noSprites freshWorld = Done (g0, w0)
    /\ Game.onKeyDown host 1 "Enter" g0 w0 = Done (g1, w1)
    /\ Game.update host 0.05 ["d"%string] g1 w1 = Done (g, w)
    /\ Game.state g = Playing
    /\ List.length (Game.hazards g) = 2%nat
    /\ (exists diff,
          preset (Game.difficultyIndex g) = Some diff
          /\ (List.length (Game.hazards g) <= Difficulty.hazards diff)%nat
          /\ (List.length (Game.items g) <= Difficulty.items diff)%nat)
    /\ (1 <= Game.lives g)%Z
    /\ 0 < Game.timeLeft g.
Proof.
  cbv zeta.
  assert (Run : exists g0 w0 g1 w1 g w,
             Game.new (pageWith alternating) 1 noSprites freshWorld
               = Done (g0, w0)
             /\ Game.onKeyDown (pageWith alternating) 1 "Enter" g0 w0
                = Done (g1, w1)
             /\ Game.update (pageWith alternating) 0.05 ["d"%string] g1 w1
                = Done (g, w)
             /\ Game.state g = Playing
             /\ List.length (Game.hazards g) = 2%nat).
  { do 6 eexists.
    split; [vm_compute; reflexivity|].
    split; [vm_compute; reflexivity|].
    split; [vm_compute; reflexivity|].
    split; vm_compute; reflexivity. }
  destruct Run as (g0 & w0 & g1 & w1 & g & w & E0 & E1 & E2 & Hs & Hn).
  exists g0, w0, g1, w1, g, w.
  destruct (reachable_games_are_sound (pageWith alternating) 1 g w)
    as ((diff & Hd & Cnt) & _ & _ & _ & _ & _ & _ & Running).
  { eapply reach_update; [|exact E2].
    eapply reach_key; [|exact E1].
    eapply reach_new. exact E0. }
  destruct Cnt as [Ch Ci]; [congruence|].
  destruct Running as [L T]; [left; exact Hs|].
  splits; try assumption.
  exists diff. splits; assumption.
Defined.

(** ** Where and how fast a run starts *)

Lemma rand_between (S : Prop) (host : Host) (min max : Q) :
  fairDice host ->
  triple S (rand host min max) (fun r => min <= max -> min <= r <= max).
Proof.
  intros Fair w. rewrite rand_at. cbn [drawOne storage_throws slot].
  splits; try reflexivity. intro Ordered.
  destruct (Fair (drawn w)) as [Lo Hi].
  set (d := dice host (drawn w)) in *.
  assert (A : 0 <= d * (max - min)) by (apply Qmult_le_0_compat; lra).
  assert (B : 0 <= (1 - d) * (max - min)) by (apply Qmult_le_0_compat; lra).
  split; lra.
Qed.

Lemma spawnItemsLoop_inside (host : Host) (count : nat) (sprite : option Q)
    (player : Player.t) (hazards : list Hazard.t) :
  fairDice host ->
  80 <= canvas_width host ->
  120 <= canvas_height host ->
  forall (budget attempts : nat) (items : list Item.t),
    Forall (fun it => itemField host (Item.pos it)) items ->
    triple False
      (Game.spawnItemsLoop host budget count attempts sprite player hazards
                           items)
      (fun result => Forall (fun it => itemField host (Item.pos it))
                            (fst result)).
Proof.
  intros Fair Wide High.
  induction budget as [|budget IH]; intros attempts items Hin;
    cbn [Game.spawnItemsLoop].
  - apply triple_ret. exact Hin.
  - destruct ((List.length items <? count)%nat
              && (attempts <? count * 20)%nat).
    + eapply triple_bind; [apply (rand_between _ host _ _ Fair)|].
      intros px Hx.
      eapply triple_bind; [apply (rand_between _ host _ _ Fair)|].
      intros py Hy.
      destruct (Game.itemTooClose host _ player hazards items _).
      * apply IH. exact Hin.
      * eapply triple_bind; [apply Item_new_total|].
        intros it [Hpos _]. apply IH.
        apply Forall_app. split; [exact Hin|].
        constructor; [|constructor].
        rewrite Hpos. unfold itemField. cbn [Vec2.x Vec2.y].
        split; [apply Hx | apply Hy]; lra.
    + apply triple_ret. exact Hin.
Qed.

Lemma spawnHazardsLoop_all (host : Host) (fuel count : nat)
    (speedRange : Q * Q) (player : Player.t) (S : Prop)
    (P : Hazard.t -> Prop) :
  fairDice host ->
  (forall pos,
      (120 <= canvas_width host -> 160 <= canvas_height host ->
       hazardField host pos) ->
      triple S (Hazard.new host fuel pos speedRange) P) ->
  forall (budget attempts : nat) (hazards : list Hazard.t),
    Forall P hazards ->
    triple S
      (Game.spawnHazardsLoop host fuel budget count attempts speedRange player
                             hazards)
      (fun result => Forall P (fst result)).
Proof.
  intros Fair New.
  induction budget as [|budget IH]; intros attempts hazards Hin;
    cbn [Game.spawnHazardsLoop].
  - apply triple_ret. exact Hin.
  - destruct ((List.length hazards <? count)%nat
              && (attempts <? count * 25)%nat).
    + eapply triple_bind; [apply (rand_between _ host _ _ Fair)|].
      intros px Hx.
      eapply triple_bind; [apply (rand_between _ host _ _ Fair)|].
      intros py Hy.
      destruct (Game.hazardTooClose host player hazards _).
      * apply IH. exact Hin.
      * eapply triple_bind.
        -- apply (New (Vec2.new px py)).
           intros Wide High. unfold hazardField. cbn [Vec2.x Vec2.y].
           split; [apply Hx | apply Hy]; lra.
        -- intros h Hp. apply IH.
           apply Forall_app. split; [exact Hin|].
           constructor; [|constructor]. exact Hp.
    + apply triple_ret. exact Hin.
Qed.



Lemma populate_all (host : Host) (fuel : nat) (diff : Difficulty.t)
    (g : Game.t) (P : Hazard.t -> Prop) (I : Item.t -> Prop) :
  Game.hazards g = [] ->
  Game.items g = [] ->
  (forall player,
     triple (~ velocityReturns host fuel)
       (Game.spawnHazardsLoop host fuel (Difficulty.hazards diff * 25)
          (Difficulty.hazards diff) 0 (Difficulty.hazardSpeed diff)
          player [])
       (fun result => Forall P (fst result))) ->
  (forall sprite player hs,
     triple False
       (Game.spawnItemsLoop host (Difficulty.items diff * 20)
          (Difficulty.items diff) 0 sprite player hs [])
       (fun result => Forall I (fst result))) ->
  triple (~ velocityReturns host fuel)
    (bind (Game.spawnHazards host fuel (Difficulty.hazards diff)
                             (Difficulty.hazardSpeed diff) g)
          (Game.spawnItems host (Difficulty.items diff)))
    (fun g' => Forall I (Game.items g') /\ Forall P (Game.hazards g')).
Proof.
  intros Hh Hi Hz It.
  unfold Game.spawnHazards, Game.spawnItems. rewrite Hh.
  apply (triple_bind _ _ _
           (fun g1 => exists hs, g1 = Game.set_hazards hs g /\ Forall P hs)).
  - eapply triple_bind; [apply Hz|].
    intros [hs att] Hp. apply triple_ret.
    exists hs. split; [reflexivity | exact Hp].
  - intros g1 (hs & -> & Hp). game_fields. rewrite Hi.
    eapply triple_bind;
      [eapply triple_weaken; [apply It | tauto | intros ? H; exact H]|].
    intros [its att] Hin. apply triple_ret. game_fields. split; assumption.
Qed.

Lemma startGame_all (host : Host) (fuel : nat) (g : Game.t)
    (diff : Difficulty.t) (P : Hazard.t -> Prop) (I : Item.t -> Prop) :
  preset (Game.difficultyIndex g) = Some diff ->
  (forall player,
     triple (~ velocityReturns host fuel)
       (Game.spawnHazardsLoop host fuel (Difficulty.hazards diff * 25)
          (Difficulty.hazards diff) 0 (Difficulty.hazardSpeed diff)
          player [])
       (fun result => Forall P (fst result))) ->
  (forall sprite player hs,
     triple False
       (Game.spawnItemsLoop host (Difficulty.items diff * 20)
          (Difficulty.items diff) 0 sprite player hs [])
       (fun result => Forall I (fst result))) ->
  triple (~ velocityReturns host fuel) (Game.startGame host fuel g)
    (fun g' => Forall I (Game.items g') /\ Forall P (Game.hazards g')).
Proof.
  intros Hd Hz It. unfold Game.startGame. rewrite Hd. cbv zeta.
  exact (populate_all host fuel diff (cleared host diff g) P I
           eq_refl eq_refl Hz It).
Qed.


Lemma fairDice_stuckZero : fairDice (pageWith stuckZero).
Proof. intro n. split; [discriminate | reflexivity]. Qed.




(** X22.  On a canvas of at least 120 by 160, with [Math.random()] in
    [0, 1), a run starts with every item inside
    [40, WIDTH - 40] x [80, HEIGHT - 40] and every hazard inside
    [60, WIDTH - 60] x [100, HEIGHT - 60]: nothing is placed in the HUD
    band or against a wall. *)
Theorem runs_start_inside_the_playfield (host : Host) (fuel : nat)
    (g : Game.t) (diff : Difficulty.t) (w : World) :
  fairDice host ->
  120 <= canvas_width host ->
  160 <= canvas_height host ->
  preset (Game.difficultyIndex g) = Some diff ->
  match Game.startGame host fuel g w with
  | Done (g', _) =>
      Forall (fun it => itemField host (Item.pos it)) (Game.items g')
      /\ Forall (fun h => hazardField host (Hazard.pos h)) (Game.hazards g')
  | Throws => False
  | Spins => ~ velocityReturns host fuel
  end.
Proof.
  intros Fair Wide High Hd.
  assert (T : triple (~ velocityReturns host fuel) (Game.startGame host fuel g)
                (fun g' =>
                   Forall (fun it => itemField host (Item.pos it))
                          (Game.items g')
                   /\ Forall (fun h => hazardField host (Hazard.pos h))
                             (Game.hazards g'))).
  { apply (startGame_all host fuel g diff _ _ Hd).
    - intro player. apply spawnHazardsLoop_all; [exact Fair | | constructor].
      intros pos In.
      eapply triple_weaken;
        [apply Hazard_new_outcome | intro V; exact V |].
      intros h [Hpos _]. cbv beta. rewrite Hpos. exact (In Wide High).
    - intros sprite player hs.
      apply spawnItemsLoop_inside; try assumption; try constructor; lra. }
  specialize (T w).
  destruct (Game.startGame host fuel g w) as [[g' w']| |]; tauto.
Qed.

Lemma runs_start_inside_the_playfield_witness :
  exists g' w',
    Game.startGame (pageWith stuckZero) 1
                   (midRun 0 0 0 [cheeseAt 480 300] []) freshWorld
    = Done (g', w')
    /\ Forall (fun h => hazardField (pageWith stuckZero) (Hazard.pos h))
              (Game.hazards g').
Proof.
  pose proof (runs_start_inside_the_playfield (pageWith stuckZero) 1
                (midRun 0 0 0 [cheeseAt 480 300] [])
                {| Difficulty.name := "Easy"; Difficulty.lives := 5;
                   Difficulty.time := 60; Difficulty.hazards := 3;
                   Difficulty.items := 8; Difficulty.hazardSpeed := (120, 170) |}
                freshWorld fairDice_stuckZero
                ltac:(vm_compute; discriminate)
                ltac:(vm_compute; discriminate) eq_refl) as T.
  destruct (Game.startGame (pageWith stuckZero) 1
                           (midRun 0 0 0 [cheeseAt 480 300] []) freshWorld)
    as [[g' w']| |].
  - exists g', w'. split; [reflexivity | apply T].
  - destruct T.
  - destruct (T velocityReturns_stuckZero).
Defined.


